(** * SATNET-OSPF route-failure prediction: the timeline, the link gate,
      the update buffer and the controller

    A shallow embedding of the C++ headers of the repository
    ([topology-mgmt.h], [link-detection.h], [route-mgmt.h],
    [performance-analyzer.h], [satnet-controller.h] and the validation
    helper of [quagga-integration.h]) and the properties of the design
    document checked against it; then the rest of that code (the getters
    and the report of the modules, the vtysh helper of
    [quagga-integration.h], the stream reading of [route-mgmt.h] and the
    scenario of the main file) with properties read off the code.

    Conventions.
    - A C++ [double] is an IEEE-754 binary64 number: [spec_float] with the
      operations of [SpecFloat] at precision 53 and maximal exponent 1024
      (round to nearest, ties to even).
    - A C++ [int] node identifier is a [Z]; a [uint32_t] or [uint64_t]
      counter is a [Z] reduced modulo [2^32] or [2^64] after each update.
    - A [std::map] is a [gmap], a [std::set] a [gset], a [std::vector] a
      [list] (push_back appends at the end).
    - Every method is a function from the object before the call to the
      object after it, together with the calls it makes on the routing
      daemon, in order ([SinkCall]). *)

From Stdlib Require Import ZArith Lia Floats.SpecFloat.
From Stdlib Require Import DecimalString DecimalZ DecimalPos.
From stdpp Require Import gmap strings list.

Local Open Scope Z_scope.

(** ** IEEE-754 binary64 *)

Module Double.

Definition double := spec_float.

Definition prec : Z := 53.
Definition emax : Z := 1024.

Definition add : double -> double -> double := SFadd prec emax.
Definition sub : double -> double -> double := SFsub prec emax.
Definition mul : double -> double -> double := SFmul prec emax.
Definition div : double -> double -> double := SFdiv prec emax.

(** [x < y], [x <= y], [x >= y] of C++: false as soon as one side is NaN. *)
Definition ltb : double -> double -> bool := SFltb.
Definition leb : double -> double -> bool := SFleb.
Definition geb (x y : double) : bool := SFleb y x.

(** Conversion of an [int] to [double] (exact below [2^53]). *)
Definition of_int (z : Z) : double := binary_normalize prec emax z 0 false.

(** The decimal literal [n/d] where [n] and [d] are small integers: the
    double nearest to the quotient, which is what the compiler stores for
    literals such as [0.1], [0.5] or [40000.0]. *)
Definition lit (n d : Z) : double := div (of_int n) (of_int d).

(** The finite doubles other than zero that the hardware can hold: the
    mantissa is canonical for the exponent and the exponent is in range. *)
Definition finite_nonzero (x : double) : bool :=
  match x with
  | S754_finite _ m e => bounded prec emax m e
  | _ => false
  end.

(** The exact value of a finite double, counted in units of [2^-1074],
    the smallest positive double: an integer. One second is [2^1074]
    ticks. *)
Definition magnitude (m : positive) (e : Z) : Z := Zpos m * 2 ^ (e + 1074).

Definition ticks (x : double) : Z :=
  match x with
  | S754_finite s m e => cond_Zopp s (Zpos m) * 2 ^ (e + 1074)
  | _ => 0
  end.

(** The hardware doubles: canonical when finite. *)
Definition valid (x : double) : bool := valid_binary prec emax x.

(** A double of the given sign that is neither zero nor NaN: finite with
    an exponent in range, or infinite. *)
Definition signed (s : bool) (x : double) : Prop :=
  match x with
  | S754_finite s' _ e => s' = s /\ -1074 <= e
  | S754_infinity s' => s' = s
  | _ => False
  end.

(** The double that holds [k/2], for an integer [k]. *)
Definition of_halves (k : Z) : double := binary_normalize prec emax k (-1) false.

(** Zero or a finite double: neither an infinity nor NaN. *)
Definition is_finite (x : double) : bool :=
  match x with
  | S754_zero _ | S754_finite _ _ _ => true
  | _ => false
  end.

Definition is_nan (x : double) : bool :=
  match x with
  | S754_nan => true
  | _ => false
  end.

(** *** Rounding, on exact values

    [rne x k] is [x / 2^k] rounded to the nearest integer, ties to the
    even one. A double holds 53 bits: [round_ticks x] is the value, in
    ticks, of the double nearest to a value of [x] ticks, where no
    exponent is too large for it. [top] is the first power of two, in
    ticks, that no finite double reaches. *)
Definition rne (x k : Z) : Z :=
  let q := x / 2 ^ k in
  match 2 * (x mod 2 ^ k) ?= 2 ^ k with
  | Lt => q
  | Eq => if Z.even q then q else q + 1
  | Gt => q + 1
  end.

Definition excess (x : Z) : Z := Z.max 0 (Z.log2 x - 52).

Definition round_ticks (x : Z) : Z := rne x (excess x) * 2 ^ excess x.

Definition top : Z := 2 ^ 2098.

(** The place of a double in the order of the doubles: its exact value
    when it is finite, and [top] or its opposite for an infinity. *)
Definition rank (x : double) : Z :=
  match x with
  | S754_infinity s => cond_Zopp s top
  | _ => ticks x
  end.

(** The rank of the double nearest to an exact value. *)
Definition round_rank (z : Z) : Z :=
  Z.sgn z * Z.min top (round_ticks (Z.abs z)).

(** A double of the hardware that is a number. *)
Definition number (x : double) : Prop := valid x = true /\ is_nan x = false.

End Double.

Abbreviation double := Double.double.

(** ** Configuration constants

    [topology-mgmt.h] takes them from [core/constellation-params.h]; the
    values are the ones [satnet-dce-quagga-base.cc] declares for the same
    two constants. *)

Definition RFP_CONVERGENCE_TIME_TC : double := Double.lit 2 1.   (* 2.0 *)
Definition RFP_SAFETY_MARGIN_DT : double := Double.lit 5 10.     (* 0.5 *)

(** ** The routing daemon seen from the modules

    The helpers of [quagga-integration.h] and the two private methods that
    only drive them are the boundary of the model: a call is recorded, what
    it then sends to vtysh is not modelled. *)

Inductive SinkCall :=
  | SetQuaggaLinkStateReal (a b : Z) (isUp : bool)
  | AddAlternativeRoutes (a b : Z)
  | ApplyRouteUpdateReal (node : Z) (routeUpdate : string)
  | ForceOspfConvergence.

(** ** Topology management module ([topology-mgmt.h]) *)

Record PredictableLinkDownEvent := {
  linkId : Z;
  nodeA : Z;
  nodeB : Z;
  T0 : double;
  T1 : double;
  T2 : double;
  T3 : double;
  active : bool
}.

(** The four-argument constructor of the struct. *)
Definition NewPredictableLinkDownEvent (lid a b : Z) (t0 : double)
  : PredictableLinkDownEvent :=
  let two_dT := Double.mul (Double.of_int 2) RFP_SAFETY_MARGIN_DT in
  let t1 := Double.sub (Double.sub t0 RFP_CONVERGENCE_TIME_TC) two_dT in
  let t2 := Double.sub t0 RFP_SAFETY_MARGIN_DT in
  let t3 := Double.add t0 RFP_SAFETY_MARGIN_DT in
  if Double.ltb t1 (Double.of_int 0) then
    let t1 := Double.lit 1 10 in
    let t2 := Double.add (Double.add t1 RFP_CONVERGENCE_TIME_TC)
                         RFP_SAFETY_MARGIN_DT in
    let t3 := Double.add t2 two_dT in
    let t0 := Double.sub t3 RFP_SAFETY_MARGIN_DT in
    {| linkId := lid; nodeA := a; nodeB := b;
       T0 := t0; T1 := t1; T2 := t2; T3 := t3; active := true |}
  else
    {| linkId := lid; nodeA := a; nodeB := b;
       T0 := t0; T1 := t1; T2 := t2; T3 := t3; active := true |}.

Module TMM.

Record TopologyManagementModule := {
  m_predictedEvents : list PredictableLinkDownEvent
}.

Definition init : TopologyManagementModule := {| m_predictedEvents := [] |}.

Definition AddPredictableLinkDown (lid a b : Z) (eventTime : double)
    (tmm : TopologyManagementModule) : TopologyManagementModule :=
  {| m_predictedEvents :=
       m_predictedEvents tmm ++ [NewPredictableLinkDownEvent lid a b eventTime] |}.

(** The test of the loop body of [IsInBldPeriod], as written. *)
Definition bld_match (a b : Z) (currentTime : double)
    (event : PredictableLinkDownEvent) : bool :=
  active event
  && ((Z.eqb (nodeA event) a && Z.eqb (nodeB event) b)
      || (Z.eqb (nodeA event) b && Z.eqb (nodeA event) a))
  && Double.geb currentTime (T1 event)
  && Double.leb currentTime (T3 event).

Definition IsInBldPeriod (a b : Z) (currentTime : double)
    (tmm : TopologyManagementModule) : bool :=
  existsb (bld_match a b currentTime) (m_predictedEvents tmm).

Definition IsInBfuPeriod (currentTime : double)
    (tmm : TopologyManagementModule) : bool :=
  existsb (fun event =>
             active event
             && Double.geb currentTime (T1 event)
             && Double.leb currentTime (T2 event))
          (m_predictedEvents tmm).

(** What the design calls an active masking window: a registered, active
    event on the unordered pair [{a, b}] whose interval [[T1, T3]]
    contains the time. *)
Definition covers (a b : Z) (currentTime : double)
    (event : PredictableLinkDownEvent) : bool :=
  active event
  && ((Z.eqb (nodeA event) a && Z.eqb (nodeB event) b)
      || (Z.eqb (nodeA event) b && Z.eqb (nodeB event) a))
  && Double.geb currentTime (T1 event)
  && Double.leb currentTime (T3 event).

Definition has_masking_window (a b : Z) (currentTime : double)
    (tmm : TopologyManagementModule) : bool :=
  existsb (covers a b currentTime) (m_predictedEvents tmm).

Definition GetPredictedEvents (tmm : TopologyManagementModule)
  : list PredictableLinkDownEvent :=
  m_predictedEvents tmm.

Definition GetActiveEvents (currentTime : double)
    (tmm : TopologyManagementModule) : list PredictableLinkDownEvent :=
  List.filter (fun event =>
                 active event
                 && Double.geb currentTime (T1 event)
                 && Double.leb currentTime (T3 event))
              (m_predictedEvents tmm).

(** A history of registrations [(linkId, nodeA, nodeB, eventTime)] on one
    module, oldest first. *)
Definition registrations (regs : list (Z * Z * Z * double))
    (tmm : TopologyManagementModule) : TopologyManagementModule :=
  fold_left (fun tmm '(lid, a, b, t) => AddPredictableLinkDown lid a b t tmm)
            regs tmm.

End TMM.

(** ** Link detection module ([link-detection.h]) *)

Module LDM.

Record LinkDetectionModule := {
  m_realLinkStates : gmap (Z * Z) bool;
  m_reportedLinkStates : gmap (Z * Z) bool;
  m_forcedDownLinks : gset (Z * Z)
}.

Definition init : LinkDetectionModule :=
  {| m_realLinkStates := ∅; m_reportedLinkStates := ∅; m_forcedDownLinks := ∅ |}.

Definition MakeOrderedPair (a b : Z) : Z * Z := (Z.min a b, Z.max a b).

Definition ForceLinkDown (a b : Z) (currentTime : double)
    (ldm : LinkDetectionModule) : LinkDetectionModule * list SinkCall :=
  let link := MakeOrderedPair a b in
  ({| m_realLinkStates := m_realLinkStates ldm;
      m_reportedLinkStates := <[link := false]> (m_reportedLinkStates ldm);
      m_forcedDownLinks := {[link]} ∪ m_forcedDownLinks ldm |},
   [SetQuaggaLinkStateReal a b false; AddAlternativeRoutes a b]).

(** [m_realLinkStates[link]] reads through [operator[]], which inserts the
    default [false] under a key that is absent. *)
Definition RestoreNormalDetection (a b : Z) (currentTime : double)
    (ldm : LinkDetectionModule) : LinkDetectionModule * list SinkCall :=
  let link := MakeOrderedPair a b in
  let realState := default false (m_realLinkStates ldm !! link) in
  ({| m_realLinkStates := <[link := realState]> (m_realLinkStates ldm);
      m_reportedLinkStates := <[link := realState]> (m_reportedLinkStates ldm);
      m_forcedDownLinks := m_forcedDownLinks ldm ∖ {[link]} |},
   [SetQuaggaLinkStateReal a b realState]).

(** [tmm] is the pointer argument: [None] is the null pointer. *)
Definition UpdateRealLinkState (a b : Z) (isUp : bool) (currentTime : double)
    (tmm : option TMM.TopologyManagementModule)
    (ldm : LinkDetectionModule) : LinkDetectionModule * list SinkCall :=
  let link := MakeOrderedPair a b in
  let oldState := default false (m_realLinkStates ldm !! link) in
  let ldm1 :=
    {| m_realLinkStates := <[link := isUp]> (m_realLinkStates ldm);
       m_reportedLinkStates := m_reportedLinkStates ldm;
       m_forcedDownLinks := m_forcedDownLinks ldm |} in
  if decide (link ∈ m_forcedDownLinks ldm) then (ldm1, [])
  else if match tmm with
          | Some t => TMM.IsInBldPeriod a b currentTime t
          | None => false
          end
  then (ldm1, [])
  else if negb (Bool.eqb isUp oldState) then
    ({| m_realLinkStates := m_realLinkStates ldm1;
        m_reportedLinkStates := <[link := isUp]> (m_reportedLinkStates ldm1);
        m_forcedDownLinks := m_forcedDownLinks ldm1 |},
     [SetQuaggaLinkStateReal a b isUp])
  else (ldm1, []).

(** The accessors are not [const] in the source: they return the object
    too, so that what they leave untouched can be stated. *)
Definition GetReportedState (a b : Z) (ldm : LinkDetectionModule)
  : bool * LinkDetectionModule :=
  let link := MakeOrderedPair a b in
  (match m_reportedLinkStates ldm !! link with
   | Some v => v
   | None => false
   end, ldm).

Definition GetRealState (a b : Z) (ldm : LinkDetectionModule)
  : bool * LinkDetectionModule :=
  let link := MakeOrderedPair a b in
  (match m_realLinkStates ldm !! link with
   | Some v => v
   | None => false
   end, ldm).

(** The record of the design for an unordered pair: what the three
    containers hold under its key. *)
Definition realState (a b : Z) (ldm : LinkDetectionModule) : bool :=
  fst (GetRealState a b ldm).
Definition reportedState (a b : Z) (ldm : LinkDetectionModule) : bool :=
  fst (GetReportedState a b ldm).
Definition forcedDown (a b : Z) (ldm : LinkDetectionModule) : bool :=
  bool_decide (MakeOrderedPair a b ∈ m_forcedDownLinks ldm).

(** A call of a public method, and a history of calls on one object. *)
Inductive Call :=
  | CallForceLinkDown (a b : Z) (currentTime : double)
  | CallRestoreNormalDetection (a b : Z) (currentTime : double)
  | CallUpdateRealLinkState (a b : Z) (isUp : bool) (currentTime : double)
      (tmm : option TMM.TopologyManagementModule)
  | CallGetReportedState (a b : Z)
  | CallGetRealState (a b : Z).

Definition step (ldm : LinkDetectionModule) (c : Call) : LinkDetectionModule :=
  match c with
  | CallForceLinkDown a b t => fst (ForceLinkDown a b t ldm)
  | CallRestoreNormalDetection a b t => fst (RestoreNormalDetection a b t ldm)
  | CallUpdateRealLinkState a b isUp t tmm =>
      fst (UpdateRealLinkState a b isUp t tmm ldm)
  | CallGetReportedState a b => snd (GetReportedState a b ldm)
  | CallGetRealState a b => snd (GetRealState a b ldm)
  end.

Definition run (calls : list Call) (ldm : LinkDetectionModule)
  : LinkDetectionModule :=
  fold_left step calls ldm.

Definition restores (link : Z * Z) (c : Call) : bool :=
  match c with
  | CallRestoreNormalDetection a b _ => bool_decide (MakeOrderedPair a b = link)
  | _ => false
  end.

(** The override invariant, for one pair: the pair is under override and
    reported down. *)
Definition overridden (link : Z * Z) (ldm : LinkDetectionModule) : Prop :=
  link ∈ m_forcedDownLinks ldm /\ m_reportedLinkStates ldm !! link = Some false.

(** Every pair under override is reported down: an invariant of the
    histories of an object. *)
Definition override_invariant (ldm : LinkDetectionModule) : Prop :=
  forall link, link ∈ m_forcedDownLinks ldm ->
               m_reportedLinkStates ldm !! link = Some false.

(** A call that can change the record of a pair: the accessors cannot. *)
Definition touches (link : Z * Z) (c : Call) : bool :=
  match c with
  | CallForceLinkDown a b _ | CallRestoreNormalDetection a b _
  | CallUpdateRealLinkState a b _ _ _ => bool_decide (MakeOrderedPair a b = link)
  | CallGetReportedState _ _ | CallGetRealState _ _ => false
  end.

(** No entry under the key of the pair, in either map. *)
Definition untouched (link : Z * Z) (ldm : LinkDetectionModule) : Prop :=
  m_realLinkStates ldm !! link = None /\ m_reportedLinkStates ldm !! link = None.

(** A call together with what it sends to the routing daemon, and a
    history with everything it sent, in order. *)
Definition exec (c : Call) (ldm : LinkDetectionModule)
  : LinkDetectionModule * list SinkCall :=
  match c with
  | CallForceLinkDown a b t => ForceLinkDown a b t ldm
  | CallRestoreNormalDetection a b t => RestoreNormalDetection a b t ldm
  | CallUpdateRealLinkState a b isUp t tmm => UpdateRealLinkState a b isUp t tmm ldm
  | CallGetReportedState a b => (snd (GetReportedState a b ldm), [])
  | CallGetRealState a b => (snd (GetRealState a b ldm), [])
  end.

Fixpoint trace (calls : list Call) (ldm : LinkDetectionModule)
  : LinkDetectionModule * list SinkCall :=
  match calls with
  | [] => (ldm, [])
  | c :: rest =>
      let '(ldm1, out1) := exec c ldm in
      let '(ldm2, out2) := trace rest ldm1 in
      (ldm2, out1 ++ out2)
  end.

(** The state of a link that a call tells the daemon, if it is about that
    link, and the last state told in a sequence of calls. *)
Definition told (link : Z * Z) (c : SinkCall) : option bool :=
  match c with
  | SetQuaggaLinkStateReal a b isUp =>
      if decide (MakeOrderedPair a b = link) then Some isUp else None
  | _ => None
  end.

Fixpoint last_told (link : Z * Z) (out : list SinkCall) : option bool :=
  match out with
  | [] => None
  | c :: rest =>
      match last_told link rest with
      | Some v => Some v
      | None => told link c
      end
  end.

(** The state of a link that a call observes, if it is an observation of
    that link, and the last state observed in a history. *)
Definition observed (link : Z * Z) (c : Call) : option bool :=
  match c with
  | CallUpdateRealLinkState a b isUp _ _ =>
      if decide (MakeOrderedPair a b = link) then Some isUp else None
  | _ => None
  end.

Fixpoint last_observed (link : Z * Z) (calls : list Call) : option bool :=
  match calls with
  | [] => None
  | c :: rest =>
      match last_observed link rest with
      | Some v => Some v
      | None => observed link c
      end
  end.

End LDM.

(** ** Route management module ([route-mgmt.h]) *)

Definition u32 (z : Z) : Z := z mod 2 ^ 32.
Definition u64 (z : Z) : Z := z mod 2 ^ 64.

Module RMM.

(** A [Ptr<Node>] is the index of the node it points to. *)
Record RouteManagementModule := {
  m_bfuActive : bool;
  m_pendingUpdates : list (Z * string);
  m_routeUpdatesBlocked : Z;
  m_routeUpdatesApplied : Z
}.

Definition init : RouteManagementModule :=
  {| m_bfuActive := false; m_pendingUpdates := [];
     m_routeUpdatesBlocked := 0; m_routeUpdatesApplied := 0 |}.

Definition StartBfuPeriod (currentTime : double) (rmm : RouteManagementModule)
  : RouteManagementModule :=
  {| m_bfuActive := true;
     m_pendingUpdates := m_pendingUpdates rmm;
     m_routeUpdatesBlocked := m_routeUpdatesBlocked rmm;
     m_routeUpdatesApplied := m_routeUpdatesApplied rmm |}.

(** The body of the [for] loop of [EndBfuPeriod] over the pending updates:
    the applied counter and the calls made so far. *)
Fixpoint apply_pending (pending : list (Z * string)) (applied : Z)
  : Z * list SinkCall :=
  match pending with
  | [] => (applied, [])
  | update :: rest =>
      let '(applied', calls) := apply_pending rest (u32 (applied + 1)) in
      (applied', ApplyRouteUpdateReal (fst update) (snd update) :: calls)
  end.

Definition EndBfuPeriod (currentTime : double) (rmm : RouteManagementModule)
  : RouteManagementModule * list SinkCall :=
  let '(applied, calls) :=
    apply_pending (m_pendingUpdates rmm) (m_routeUpdatesApplied rmm) in
  ({| m_bfuActive := false;
      m_pendingUpdates := [];
      m_routeUpdatesBlocked := m_routeUpdatesBlocked rmm;
      m_routeUpdatesApplied := applied |},
   calls ++ [ForceOspfConvergence]).

Definition OnNewRoutingTable (node : Z) (routeUpdate : string)
    (currentTime : double) (rmm : RouteManagementModule)
  : RouteManagementModule * list SinkCall :=
  if m_bfuActive rmm then
    ({| m_bfuActive := m_bfuActive rmm;
        m_pendingUpdates := m_pendingUpdates rmm ++ [(node, routeUpdate)];
        m_routeUpdatesBlocked := u32 (m_routeUpdatesBlocked rmm + 1);
        m_routeUpdatesApplied := m_routeUpdatesApplied rmm |}, [])
  else
    ({| m_bfuActive := m_bfuActive rmm;
        m_pendingUpdates := m_pendingUpdates rmm;
        m_routeUpdatesBlocked := m_routeUpdatesBlocked rmm;
        m_routeUpdatesApplied := u32 (m_routeUpdatesApplied rmm + 1) |},
     [ApplyRouteUpdateReal node routeUpdate]).

Definition GetBlockedUpdatesCount (rmm : RouteManagementModule) : Z :=
  m_routeUpdatesBlocked rmm.
Definition GetAppliedUpdatesCount (rmm : RouteManagementModule) : Z :=
  m_routeUpdatesApplied rmm.
Definition IsBfuActive (rmm : RouteManagementModule) : bool :=
  m_bfuActive rmm.

(** A call of a public method that changes the object, and a history. *)
Inductive Call :=
  | CallStartBfuPeriod (currentTime : double)
  | CallEndBfuPeriod (currentTime : double)
  | CallOnNewRoutingTable (node : Z) (routeUpdate : string) (currentTime : double).

Definition step (c : Call) (rmm : RouteManagementModule)
  : RouteManagementModule * list SinkCall :=
  match c with
  | CallStartBfuPeriod t => (StartBfuPeriod t rmm, [])
  | CallEndBfuPeriod t => EndBfuPeriod t rmm
  | CallOnNewRoutingTable node u t => OnNewRoutingTable node u t rmm
  end.

Fixpoint run (calls : list Call) (rmm : RouteManagementModule)
  : RouteManagementModule * list SinkCall :=
  match calls with
  | [] => (rmm, [])
  | c :: rest =>
      let '(rmm1, out1) := step c rmm in
      let '(rmm2, out2) := run rest rmm1 in
      (rmm2, out1 ++ out2)
  end.

(** The submissions of a list of updates, one [OnNewRoutingTable] each. *)
Definition submissions (updates : list (Z * string)) (currentTime : double)
  : list Call :=
  map (fun u => CallOnNewRoutingTable (fst u) (snd u) currentTime) updates.

Definition applications (updates : list (Z * string)) : list SinkCall :=
  map (fun u => ApplyRouteUpdateReal (fst u) (snd u)) updates.

(** The number of route applications among the calls made. *)
Definition is_application (c : SinkCall) : bool :=
  match c with
  | ApplyRouteUpdateReal _ _ => true
  | _ => false
  end.

Definition count_applications (calls : list SinkCall) : Z :=
  Z.of_nat (length (List.filter is_application calls)).

(** The updates handed to [OnNewRoutingTable] in a history, and the
    updates applied in a sequence of calls on the daemon, both in order. *)
Definition submitted (calls : list Call) : list (Z * string) :=
  omap (fun c => match c with
                 | CallOnNewRoutingTable node u _ => Some (node, u)
                 | _ => None
                 end) calls.

Definition applied (out : list SinkCall) : list (Z * string) :=
  omap (fun c => match c with
                 | ApplyRouteUpdateReal node u => Some (node, u)
                 | _ => None
                 end) out.

End RMM.

(** ** Performance analyzer ([performance-analyzer.h])

    [simNow] stands for [Simulator::Now().GetSeconds()], the reading of the
    simulator's clock at the call. *)

Definition to_string (z : Z) : string := NilZero.string_of_int (Z.to_int z).

Module Analyzer.

Record Metrics := {
  packetsLost : Z;
  routeOutageTotal : double;
  linkDownEvents : Z;
  detectionTimeTotal : double;
  realQuaggaModifications : Z
}.

Definition Metrics_init : Metrics :=
  {| packetsLost := 0; routeOutageTotal := Double.of_int 0;
     linkDownEvents := 0; detectionTimeTotal := Double.of_int 0;
     realQuaggaModifications := 0 |}.

Record LinkEvent := {
  linkDownTime : double;
  routeUpdateTime : double;
  detectionTime : double;
  isRfp : bool;
  packetsLostDuringOutage : Z;
  completed : bool
}.

Record PerformanceAnalyzer := {
  m_standardOspf : Metrics;
  m_rfp : Metrics;
  m_simulationStartTime : double;
  m_activeEvents : gmap string LinkEvent;
  m_packetsSentTotal : Z;
  m_packetsReceivedTotal : Z;
  m_packetsAtLinkDown : Z
}.

Definition init : PerformanceAnalyzer :=
  {| m_standardOspf := Metrics_init; m_rfp := Metrics_init;
     m_simulationStartTime := Double.of_int 0; m_activeEvents := ∅;
     m_packetsSentTotal := 0; m_packetsReceivedTotal := 0;
     m_packetsAtLinkDown := 0 |}.

Definition MakeLinkKey (a b : Z) : string :=
  let '(a, b) := if Z.ltb b a then (b, a) else (a, b) in
  to_string a +:+ "-" +:+ to_string b.

Definition milliseconds (simNow : double) : double :=
  Double.mul simNow (Double.lit 1000 1).

Definition StartLinkDownEvent (a b : Z) (rfp : bool) (simNow : double)
    (pa : PerformanceAnalyzer) : PerformanceAnalyzer :=
  let key := MakeLinkKey a b in
  let now := milliseconds simNow in
  let event :=
    {| linkDownTime := now;
       routeUpdateTime := if rfp then now else Double.of_int 0;
       detectionTime := Double.of_int 0;
       isRfp := rfp;
       packetsLostDuringOutage := 0;
       completed := false |} in
  {| m_standardOspf := m_standardOspf pa; m_rfp := m_rfp pa;
     m_simulationStartTime := m_simulationStartTime pa;
     m_activeEvents := <[key := event]> (m_activeEvents pa);
     m_packetsSentTotal := m_packetsSentTotal pa;
     m_packetsReceivedTotal := m_packetsReceivedTotal pa;
     m_packetsAtLinkDown := m_packetsSentTotal pa |}.

Definition RecordRouteConvergence (a b : Z) (simNow : double)
    (pa : PerformanceAnalyzer) : PerformanceAnalyzer :=
  let key := MakeLinkKey a b in
  let now := milliseconds simNow in
  match m_activeEvents pa !! key with
  | None => pa
  | Some event =>
      let event' :=
        {| linkDownTime := linkDownTime event;
           routeUpdateTime := if isRfp event then routeUpdateTime event else now;
           detectionTime := detectionTime event;
           isRfp := isRfp event;
           packetsLostDuringOutage :=
             u32 (u64 (u64 (m_packetsSentTotal pa - m_packetsAtLinkDown pa)
                       - u64 (m_packetsReceivedTotal pa - m_packetsAtLinkDown pa)));
           completed := completed event |} in
      {| m_standardOspf := m_standardOspf pa; m_rfp := m_rfp pa;
         m_simulationStartTime := m_simulationStartTime pa;
         m_activeEvents := <[key := event']> (m_activeEvents pa);
         m_packetsSentTotal := m_packetsSentTotal pa;
         m_packetsReceivedTotal := m_packetsReceivedTotal pa;
         m_packetsAtLinkDown := m_packetsAtLinkDown pa |}
  end.

(** The five [+=] on one accumulator. *)
Definition accumulate (m : Metrics) (outage : double) (lost : Z)
    (detection : double) (quaggaMods : Z) : Metrics :=
  {| packetsLost := u32 (packetsLost m + lost);
     routeOutageTotal := Double.add (routeOutageTotal m) outage;
     linkDownEvents := u32 (linkDownEvents m + 1);
     detectionTimeTotal := Double.add (detectionTimeTotal m) detection;
     realQuaggaModifications := u32 (realQuaggaModifications m + quaggaMods) |}.

Definition CompleteLinkEvent (a b : Z) (quaggaMods : Z) (simNow : double)
    (pa : PerformanceAnalyzer) : PerformanceAnalyzer :=
  let key := MakeLinkKey a b in
  match m_activeEvents pa !! key with
  | None => pa
  | Some event =>
      let outageTime := Double.sub (routeUpdateTime event) (linkDownTime event) in
      let outageTime :=
        if Double.ltb outageTime (Double.of_int 0) then Double.of_int 0
        else outageTime in
      let rfp' :=
        if isRfp event
        then accumulate (m_rfp pa) outageTime (packetsLostDuringOutage event)
                        (detectionTime event) quaggaMods
        else m_rfp pa in
      let std' :=
        if isRfp event then m_standardOspf pa
        else accumulate (m_standardOspf pa) outageTime
                        (packetsLostDuringOutage event)
                        (detectionTime event) quaggaMods in
      {| m_standardOspf := std'; m_rfp := rfp';
         m_simulationStartTime := m_simulationStartTime pa;
         m_activeEvents := delete key (m_activeEvents pa);
         m_packetsSentTotal := m_packetsSentTotal pa;
         m_packetsReceivedTotal := m_packetsReceivedTotal pa;
         m_packetsAtLinkDown := m_packetsAtLinkDown pa |}
  end.

Definition RecordLinkDownEvent (useRfp : bool) (outageTimeMs : double)
    (lost : Z) (detectionTimeMs : double) (quaggaMods : Z)
    (pa : PerformanceAnalyzer) : PerformanceAnalyzer :=
  {| m_standardOspf :=
       if useRfp then m_standardOspf pa
       else accumulate (m_standardOspf pa) outageTimeMs lost detectionTimeMs quaggaMods;
     m_rfp :=
       if useRfp
       then accumulate (m_rfp pa) outageTimeMs lost detectionTimeMs quaggaMods
       else m_rfp pa;
     m_simulationStartTime := m_simulationStartTime pa;
     m_activeEvents := m_activeEvents pa;
     m_packetsSentTotal := m_packetsSentTotal pa;
     m_packetsReceivedTotal := m_packetsReceivedTotal pa;
     m_packetsAtLinkDown := m_packetsAtLinkDown pa |}.

Definition SetSimulationStart (startTime : double) (pa : PerformanceAnalyzer)
  : PerformanceAnalyzer :=
  {| m_standardOspf := m_standardOspf pa; m_rfp := m_rfp pa;
     m_simulationStartTime := startTime;
     m_activeEvents := m_activeEvents pa;
     m_packetsSentTotal := m_packetsSentTotal pa;
     m_packetsReceivedTotal := m_packetsReceivedTotal pa;
     m_packetsAtLinkDown := m_packetsAtLinkDown pa |}.

Definition OnPacketSent (pa : PerformanceAnalyzer) : PerformanceAnalyzer :=
  {| m_standardOspf := m_standardOspf pa; m_rfp := m_rfp pa;
     m_simulationStartTime := m_simulationStartTime pa;
     m_activeEvents := m_activeEvents pa;
     m_packetsSentTotal := u64 (m_packetsSentTotal pa + 1);
     m_packetsReceivedTotal := m_packetsReceivedTotal pa;
     m_packetsAtLinkDown := m_packetsAtLinkDown pa |}.

Definition OnPacketReceived (pa : PerformanceAnalyzer) : PerformanceAnalyzer :=
  {| m_standardOspf := m_standardOspf pa; m_rfp := m_rfp pa;
     m_simulationStartTime := m_simulationStartTime pa;
     m_activeEvents := m_activeEvents pa;
     m_packetsSentTotal := m_packetsSentTotal pa;
     m_packetsReceivedTotal := u64 (m_packetsReceivedTotal pa + 1);
     m_packetsAtLinkDown := m_packetsAtLinkDown pa |}.

Definition RecordOspfDetection (a b : Z) (simNow : double)
    (pa : PerformanceAnalyzer) : PerformanceAnalyzer :=
  let key := MakeLinkKey a b in
  let now := milliseconds simNow in
  match m_activeEvents pa !! key with
  | None => pa
  | Some event =>
      if isRfp event then pa
      else
        let event' :=
          {| linkDownTime := linkDownTime event;
             routeUpdateTime := routeUpdateTime event;
             detectionTime := Double.sub now (linkDownTime event);
             isRfp := isRfp event;
             packetsLostDuringOutage := packetsLostDuringOutage event;
             completed := completed event |} in
        {| m_standardOspf := m_standardOspf pa; m_rfp := m_rfp pa;
           m_simulationStartTime := m_simulationStartTime pa;
           m_activeEvents := <[key := event']> (m_activeEvents pa);
           m_packetsSentTotal := m_packetsSentTotal pa;
           m_packetsReceivedTotal := m_packetsReceivedTotal pa;
           m_packetsAtLinkDown := m_packetsAtLinkDown pa |}
  end.

(** The figures that [PrintFinalResults] computes before it prints them.
    An improvement factor is computed only under the test that guards its
    line of the report. *)
Record Report := {
  avgStandardOutage : double;
  avgRfpOutage : double;
  avgStandardDetection : double;
  avgRfpDetection : double;
  outageImprovement : option double;
  detectionImprovement : option double;
  totalQuaggaModifications : Z
}.

Definition average (total : double) (events : Z) : double :=
  if 0 <? events then Double.div total (Double.of_int events)
  else Double.of_int 0.

Definition improvement (standard rfp : double) : option double :=
  if Double.ltb (Double.of_int 0) standard && Double.geb rfp (Double.of_int 0)
  then Some (Double.div standard (Double.add rfp (Double.lit 1 1000)))
  else None.

Definition PrintFinalResults (pa : PerformanceAnalyzer) : Report :=
  let std := m_standardOspf pa in
  let rfp := m_rfp pa in
  let avgStandardOutage := average (routeOutageTotal std) (linkDownEvents std) in
  let avgRfpOutage := average (routeOutageTotal rfp) (linkDownEvents rfp) in
  let avgStandardDetection :=
    average (detectionTimeTotal std) (linkDownEvents std) in
  let avgRfpDetection := average (detectionTimeTotal rfp) (linkDownEvents rfp) in
  {| avgStandardOutage := avgStandardOutage;
     avgRfpOutage := avgRfpOutage;
     avgStandardDetection := avgStandardDetection;
     avgRfpDetection := avgRfpDetection;
     outageImprovement := improvement avgStandardOutage avgRfpOutage;
     detectionImprovement := improvement avgStandardDetection avgRfpDetection;
     totalQuaggaModifications :=
       u32 (realQuaggaModifications rfp + realQuaggaModifications std) |}.

(** The figures of [n] link-down events recorded with the constants that
    the controller passes for a failure it had not predicted: 40100 ms of
    outage, 15 packets, 40000 ms of detection and one modification
    each. *)
Definition baseline (n : Z) : Metrics :=
  {| packetsLost := u32 (15 * n);
     routeOutageTotal := Double.of_int (40100 * n);
     linkDownEvents := u32 n;
     detectionTimeTotal := Double.of_int (40000 * n);
     realQuaggaModifications := u32 n |}.

(** A call of a public method that changes the object, and a history. *)
Inductive Call :=
  | CallSetSimulationStart (startTime : double)
  | CallOnPacketSent
  | CallOnPacketReceived
  | CallStartLinkDownEvent (a b : Z) (rfp : bool) (simNow : double)
  | CallRecordOspfDetection (a b : Z) (simNow : double)
  | CallRecordRouteConvergence (a b : Z) (simNow : double)
  | CallCompleteLinkEvent (a b : Z) (quaggaMods : Z) (simNow : double)
  | CallRecordLinkDownEvent (useRfp : bool) (outageTimeMs : double) (lost : Z)
      (detectionTimeMs : double) (quaggaMods : Z).

Definition step (pa : PerformanceAnalyzer) (c : Call) : PerformanceAnalyzer :=
  match c with
  | CallSetSimulationStart t => SetSimulationStart t pa
  | CallOnPacketSent => OnPacketSent pa
  | CallOnPacketReceived => OnPacketReceived pa
  | CallStartLinkDownEvent a b rfp now => StartLinkDownEvent a b rfp now pa
  | CallRecordOspfDetection a b now => RecordOspfDetection a b now pa
  | CallRecordRouteConvergence a b now => RecordRouteConvergence a b now pa
  | CallCompleteLinkEvent a b mods now => CompleteLinkEvent a b mods now pa
  | CallRecordLinkDownEvent useRfp outage lost detection mods =>
      RecordLinkDownEvent useRfp outage lost detection mods pa
  end.

Definition run (calls : list Call) (pa : PerformanceAnalyzer)
  : PerformanceAnalyzer :=
  fold_left step calls pa.

(** A reading of the clock that is a number once it is in milliseconds. *)
Definition clock_finite (c : Call) : bool :=
  match c with
  | CallStartLinkDownEvent _ _ _ now => Double.is_finite (milliseconds now)
  | _ => true
  end.

(** The figures of the predicted events are fed by hand. *)
Definition feeds_rfp (c : Call) : bool :=
  match c with
  | CallRecordLinkDownEvent useRfp _ _ _ _ => useRfp
  | _ => false
  end.

(** Every predicted event under measurement has no outage and no detection
    time on record. *)
Definition rfp_events_timeless (pa : PerformanceAnalyzer) : Prop :=
  forall key event,
    m_activeEvents pa !! key = Some event -> isRfp event = true ->
    Double.is_finite (linkDownTime event) = true
    /\ routeUpdateTime event = linkDownTime event
    /\ detectionTime event = Double.of_int 0.

End Analyzer.

(** ** Validation of node indices ([quagga-integration.h])

    [totalNodes] stands for [NodeList::GetNNodes()]. *)

Definition ValidateNodeIndices (totalNodes : Z) (a b : Z) : bool :=
  if (a <? 0) || (b <? 0) then false
  else if (totalNodes <=? a) || (totalNodes <=? b) then false
  else if a =? b then false
  else true.

(** [NodeList::GetNode]: the node of that index. Outside the range the
    simulator has no node to give (it asserts); the controller tests the
    pointers it gets, and the model gives it the null pointer there. *)
Definition GetNode (totalNodes : Z) (n : Z) : option Z :=
  if (0 <=? n) && (n <? totalNodes) then Some n else None.

(** ** The controller ([satnet-controller.h]) *)

Module Controller.

Inductive TimelineAction := ExecuteT1 | ExecuteT2 | ExecuteT0 | ExecuteT3.

(** A call of [Simulator::Schedule]: the delay, the member function and the
    three arguments bound to it. *)
Record Scheduled := {
  delay : double;
  action : TimelineAction;
  arg_nodeA : Z;
  arg_nodeB : Z;
  arg_currentTime : double
}.

Record SatnetOspfController := {
  m_tmm : TMM.TopologyManagementModule;
  m_ldm : LDM.LinkDetectionModule;
  m_rmm : RMM.RouteManagementModule;
  m_analyzer : Analyzer.PerformanceAnalyzer;
  m_eventCounter : Z;
  m_lastEventTime : double;
  m_totalQuaggaModifications : Z
}.

Definition init : SatnetOspfController :=
  {| m_tmm := TMM.init; m_ldm := LDM.init; m_rmm := RMM.init;
     m_analyzer := Analyzer.init; m_eventCounter := 0;
     m_lastEventTime := Double.of_int 0; m_totalQuaggaModifications := 0 |}.

Section WithTopology.

Variable totalNodes : Z.

Definition SchedulePredictableLinkDown (lid a b : Z) (eventTime : double)
    (c : SatnetOspfController) : SatnetOspfController * list Scheduled :=
  if negb (ValidateNodeIndices totalNodes a b) then (c, [])
  else
    let tmm' := TMM.AddPredictableLinkDown lid a b eventTime (m_tmm c) in
    let event := NewPredictableLinkDownEvent lid a b eventTime in
    if Double.ltb (Double.of_int 0) (T1 event) then
      ({| m_tmm := tmm'; m_ldm := m_ldm c; m_rmm := m_rmm c;
          m_analyzer := m_analyzer c;
          m_eventCounter := u32 (m_eventCounter c + 1);
          m_lastEventTime := m_lastEventTime c;
          m_totalQuaggaModifications := m_totalQuaggaModifications c |},
       [ {| delay := T1 event; action := ExecuteT1;
            arg_nodeA := a; arg_nodeB := b; arg_currentTime := T1 event |};
         {| delay := T2 event; action := ExecuteT2;
            arg_nodeA := a; arg_nodeB := b; arg_currentTime := T2 event |};
         {| delay := T0 event; action := ExecuteT0;
            arg_nodeA := a; arg_nodeB := b; arg_currentTime := T0 event |};
         {| delay := T3 event; action := ExecuteT3;
            arg_nodeA := a; arg_nodeB := b; arg_currentTime := T3 event |} ])
    else
      ({| m_tmm := tmm'; m_ldm := m_ldm c; m_rmm := m_rmm c;
          m_analyzer := m_analyzer c;
          m_eventCounter := m_eventCounter c;
          m_lastEventTime := m_lastEventTime c;
          m_totalQuaggaModifications := m_totalQuaggaModifications c |}, []).

Definition FindAlternativePath (a b : Z) : Z :=
  let maxNodes := Z.min totalNodes 10 in
  match List.find (fun i => negb (i =? a) && negb (i =? b)) (seqZ 0 maxNodes) with
  | Some i => i
  | None => -1
  end.

Definition GenerateOspfRouteUpdate (a b : Z) (isUp : bool) : string :=
  if isUp then
    "ADD 10." +:+ to_string b +:+ ".0.0/16 10.0." +:+ to_string a +:+ ".1 1"
  else
    let alternativeNode := FindAlternativePath a b in
    "DEL 10." +:+ to_string b +:+ ".0.0/16 10.0." +:+ to_string a +:+ ".1"
    +:+ (if 0 <=? alternativeNode
         then " ADD 10." +:+ to_string b +:+ ".0.0/16 10.0."
              +:+ to_string alternativeNode +:+ ".1 5"
         else "").

Definition AnalyzeLinkDownPerformance (a b : Z) (currentTime : double)
    (c : SatnetOspfController) : Analyzer.PerformanceAnalyzer :=
  if negb (TMM.IsInBldPeriod a b currentTime (m_tmm c)) then
    let detectionTime := Double.lit 40000 1 in
    let convergenceTime := Double.lit 100 1 in
    let totalOutage := Double.add detectionTime convergenceTime in
    Analyzer.RecordLinkDownEvent false totalOutage 15 detectionTime 1
                                 (m_analyzer c)
  else m_analyzer c.

Definition OnLinkStateChange (a b : Z) (isUp : bool) (currentTime : double)
    (c : SatnetOspfController) : SatnetOspfController * list SinkCall :=
  let '(ldm1, calls1) :=
    LDM.UpdateRealLinkState a b isUp currentTime (Some (m_tmm c)) (m_ldm c) in
  let '(ospfState, ldm2) := LDM.GetReportedState a b ldm1 in
  let '(rmm1, mods1, calls2) :=
    match GetNode totalNodes a, GetNode totalNodes b with
    | Some nodeAPtr, Some _ =>
        let routeUpdate := GenerateOspfRouteUpdate a b ospfState in
        let '(rmm1, calls2) :=
          RMM.OnNewRoutingTable nodeAPtr routeUpdate currentTime (m_rmm c) in
        (rmm1, u32 (m_totalQuaggaModifications c + 1), calls2)
    | _, _ => (m_rmm c, m_totalQuaggaModifications c, [])
    end in
  let analyzer1 :=
    if negb isUp then AnalyzeLinkDownPerformance a b currentTime c
    else m_analyzer c in
  ({| m_tmm := m_tmm c; m_ldm := ldm2; m_rmm := rmm1;
      m_analyzer := analyzer1;
      m_eventCounter := m_eventCounter c;
      m_lastEventTime := m_lastEventTime c;
      m_totalQuaggaModifications := mods1 |},
   calls1 ++ calls2).

Definition GetOspfLinkState (a b : Z) (c : SatnetOspfController) : bool :=
  fst (LDM.GetReportedState a b (m_ldm c)).

End WithTopology.

Definition ExecuteT1Actions (a b : Z) (currentTime simNow : double)
    (c : SatnetOspfController) : SatnetOspfController * list SinkCall :=
  let analyzer1 := Analyzer.StartLinkDownEvent a b true simNow (m_analyzer c) in
  let '(ldm1, calls) := LDM.ForceLinkDown a b currentTime (m_ldm c) in
  let rmm1 := RMM.StartBfuPeriod currentTime (m_rmm c) in
  ({| m_tmm := m_tmm c; m_ldm := ldm1; m_rmm := rmm1;
      m_analyzer := analyzer1;
      m_eventCounter := m_eventCounter c;
      m_lastEventTime := m_lastEventTime c;
      m_totalQuaggaModifications := u32 (m_totalQuaggaModifications c + 2) |},
   calls).

Definition ExecuteT2Actions (a b : Z) (currentTime : double)
    (c : SatnetOspfController) : SatnetOspfController * list SinkCall :=
  let '(rmm1, calls) := RMM.EndBfuPeriod currentTime (m_rmm c) in
  ({| m_tmm := m_tmm c; m_ldm := m_ldm c; m_rmm := rmm1;
      m_analyzer := m_analyzer c;
      m_eventCounter := m_eventCounter c;
      m_lastEventTime := m_lastEventTime c;
      m_totalQuaggaModifications :=
        u32 (m_totalQuaggaModifications c + RMM.GetBlockedUpdatesCount rmm1) |},
   calls).

Definition ExecuteT0Actions (a b : Z) (currentTime simNow : double)
    (c : SatnetOspfController) : SatnetOspfController * list SinkCall :=
  let analyzer1 := Analyzer.RecordRouteConvergence a b simNow (m_analyzer c) in
  let analyzer2 :=
    Analyzer.CompleteLinkEvent a b (m_totalQuaggaModifications c) simNow analyzer1 in
  ({| m_tmm := m_tmm c; m_ldm := m_ldm c; m_rmm := m_rmm c;
      m_analyzer := analyzer2;
      m_eventCounter := m_eventCounter c;
      m_lastEventTime := m_lastEventTime c;
      m_totalQuaggaModifications := m_totalQuaggaModifications c |},
   []).

Definition ExecuteT3Actions (a b : Z) (currentTime : double)
    (c : SatnetOspfController) : SatnetOspfController * list SinkCall :=
  let '(ldm1, calls) := LDM.RestoreNormalDetection a b currentTime (m_ldm c) in
  ({| m_tmm := m_tmm c; m_ldm := ldm1; m_rmm := m_rmm c;
      m_analyzer := m_analyzer c;
      m_eventCounter := m_eventCounter c;
      m_lastEventTime := m_lastEventTime c;
      m_totalQuaggaModifications := u32 (m_totalQuaggaModifications c + 2) |},
   calls).

(** The calls that reach a controller: the three public methods and the
    four actions, which the simulator invokes when their delay has run
    out. *)
Inductive Call :=
  | CallSchedulePredictableLinkDown (lid a b : Z) (eventTime : double)
  | CallOnLinkStateChange (a b : Z) (isUp : bool) (currentTime : double)
  | CallExecuteT1Actions (a b : Z) (currentTime simNow : double)
  | CallExecuteT2Actions (a b : Z) (currentTime : double)
  | CallExecuteT0Actions (a b : Z) (currentTime simNow : double)
  | CallExecuteT3Actions (a b : Z) (currentTime : double).

Definition step (totalNodes : Z) (call : Call) (c : SatnetOspfController)
  : SatnetOspfController * list SinkCall :=
  match call with
  | CallSchedulePredictableLinkDown lid a b t =>
      (fst (SchedulePredictableLinkDown totalNodes lid a b t c), [])
  | CallOnLinkStateChange a b isUp t => OnLinkStateChange totalNodes a b isUp t c
  | CallExecuteT1Actions a b t now => ExecuteT1Actions a b t now c
  | CallExecuteT2Actions a b t => ExecuteT2Actions a b t c
  | CallExecuteT0Actions a b t now => ExecuteT0Actions a b t now c
  | CallExecuteT3Actions a b t => ExecuteT3Actions a b t c
  end.

Fixpoint run (totalNodes : Z) (calls : list Call) (c : SatnetOspfController)
  : SatnetOspfController * list SinkCall :=
  match calls with
  | [] => (c, [])
  | call :: rest =>
      let '(c1, out1) := step totalNodes call c in
      let '(c2, out2) := run totalNodes rest c1 in
      (c2, out1 ++ out2)
  end.

(** The action that lifts the override of a pair. *)
Definition lifts (link : Z * Z) (call : Call) : bool :=
  match call with
  | CallExecuteT3Actions a b _ => bool_decide (LDM.MakeOrderedPair a b = link)
  | _ => false
  end.

(** The reading of the clock when a predicted event starts to be
    measured. *)
Definition clock_finite (call : Call) : bool :=
  match call with
  | CallExecuteT1Actions _ _ _ now => Double.is_finite (Analyzer.milliseconds now)
  | _ => true
  end.

End Controller.

(** ** Reading words and numbers from a string stream

    What [std::istringstream] does for [iss >> word] and [iss >> number],
    and what the loop [while (std::getline(ss, dir, ':'))] reads. *)

Module Stream.

Import Stdlib.Strings.Ascii.

Definition colon : ascii := ":"%char.

(** [isspace] in the C locale: the space and the characters 9 to 13. *)
Definition isspace (c : ascii) : bool :=
  let n := N_of_ascii c in
  ((n =? 32) || ((9 <=? n) && (n <=? 13)))%N.

Definition isdigit (c : ascii) : bool :=
  let n := N_of_ascii c in
  ((48 <=? n) && (n <=? 57))%N.

Fixpoint skipws (s : string) : string :=
  match s with
  | String c rest => if isspace c then skipws rest else s
  | EmptyString => EmptyString
  end.

(** The characters up to the next white space, and what follows. *)
Fixpoint word (s : string) : string * string :=
  match s with
  | EmptyString => (EmptyString, EmptyString)
  | String c rest =>
      if isspace c then (EmptyString, s)
      else let '(w, rest') := word rest in (String c w, rest')
  end.

(** The stream: what is left to read, and the two state bits that an
    extraction can set. *)
Record istringstream := {
  rest : string;
  eofbit : bool;
  failbit : bool
}.

Definition open (s : string) : istringstream :=
  {| rest := s; eofbit := false; failbit := false |}.

Definition good (s : istringstream) : bool := negb (eofbit s) && negb (failbit s).

(** The sentry of a formatted extraction: it fails on a stream that is
    not good, skips the white space, and fails at the end of the
    input. *)
Definition sentry (s : istringstream) : bool * istringstream :=
  if negb (good s) then
    (false, {| rest := rest s; eofbit := eofbit s; failbit := true |})
  else
    match skipws (rest s) with
    | EmptyString => (false, {| rest := EmptyString; eofbit := true; failbit := true |})
    | r => (true, {| rest := r; eofbit := false; failbit := false |})
    end.

(** [iss >> str]: [str] keeps its value when the sentry fails. *)
Definition extract_string (str : string) (s : istringstream)
  : string * istringstream :=
  let '(ok, s1) := sentry s in
  if ok then
    let '(w, r) := word (rest s1) in
    (w, {| rest := r;
           eofbit := match r with EmptyString => true | _ => false end;
           failbit := false |})
  else (str, s1).

(** The decimal digits at the head of a string: their value, and whether
    there was one. *)
Fixpoint digits (s : string) (acc : Z) (found : bool) : Z * bool :=
  match s with
  | String c rest =>
      if isdigit c then digits rest (10 * acc + (Z.of_N (N_of_ascii c) - 48)) true
      else (acc, found)
  | EmptyString => (acc, found)
  end.

Definition INT_MAX : Z := 2 ^ 31 - 1.
Definition INT_MIN : Z := - 2 ^ 31.

(** An [int] in decimal at the head of a string: an optional sign and
    digits. A value out of range is replaced by the nearest bound. *)
Definition parse_int (s : string) : option Z :=
  let '(negative, body) :=
    match s with
    | String "-"%char r => (true, r)
    | String "+"%char r => (false, r)
    | _ => (false, s)
    end in
  let '(v, found) := digits body 0 false in
  if found then
    let v := if negative then - v else v in
    Some (Z.max INT_MIN (Z.min INT_MAX v))
  else None.

(** [iss >> n] for an [int]: [n] keeps its value when the sentry fails,
    and becomes 0 when no number can be read. *)
Definition extract_int (n : Z) (s : istringstream) : Z :=
  let '(ok, s1) := sentry s in
  if ok then
    match parse_int (rest s1) with
    | Some v => v
    | None => 0
    end
  else n.

(** The lines that the loop [while (std::getline(ss, line, delim))] sees:
    the pieces between the delimiters; an empty piece after the last
    delimiter is not seen (the extraction that would read it fails). *)
Fixpoint getlines (delim : ascii) (s : string) : list string :=
  match s with
  | EmptyString => []
  | String c r =>
      if Ascii.eqb c delim then EmptyString :: getlines delim r
      else match getlines delim r with
           | [] => [String c EmptyString]
           | line :: lines => String c line :: lines
           end
  end.

(** The pieces joined again, the delimiter between them. *)
Fixpoint join (delim : ascii) (lines : list string) : string :=
  match lines with
  | [] => EmptyString
  | [line] => line
  | line :: lines => line +:+ String delim (join delim lines)
  end.

Definition nonempty (s : string) : bool :=
  match s with
  | EmptyString => false
  | _ => true
  end.

Definition no_space (s : string) : Prop :=
  Forall (fun c => isspace c = false) (String.list_ascii_of_string s).

(** What follows a word in a stream: the end, or a space. *)
Definition ends_word (r : string) : Prop :=
  r = "" \/ exists r', r = " " +:+ r'.

End Stream.

(** ** The routing daemon ([quagga-integration.h])

    The environment of the process is what [getenv] and [stat] read: the
    two variables, and the paths that exist. A command that reaches DCE is
    recorded with the node it is installed on. *)

Module Quagga.

Record VtyshState := {
  available : bool;
  checked : bool
}.

(** The state that [GetVtyshState] holds when the program starts. *)
Definition VtyshState_init : VtyshState :=
  {| available := false; checked := false |}.

Record Environment := {
  DCE_PATH : option string;
  DCE_ROOT : option string;
  stat : string -> bool
}.

(** A function of the helper that returns nothing: the state after it and
    the commands it started, in order. *)
Definition Action : Type := VtyshState -> VtyshState * list (Z * string).

Definition skip : Action := fun st => (st, []).

Definition seq (f g : Action) : Action :=
  fun st =>
    let '(st1, l1) := f st in
    let '(st2, l2) := g st1 in
    (st2, l1 ++ l2).

Notation "f ;> g" := (seq f g) (at level 60, right associativity).

Definition for_each {A : Type} (l : list A) (body : A -> Action) : Action :=
  fold_right (fun x k => body x ;> k) skip l.

Section WithEnvironment.

Variable env : Environment.
Variable totalNodes : Z.

Definition GetPrimaryDceRoot : string :=
  match DCE_ROOT env with
  | None => ""
  | Some rootStr =>
      match String.index 0 ":" rootStr with
      | Some pos => String.substring 0 pos rootStr
      | None => rootStr
      end
  end.

Definition pathsToCheck : list string :=
  let dceRoot := GetPrimaryDceRoot in
  (if Stream.nonempty dceRoot then [dceRoot +:+ "/bin_dce/vtysh"] else [])
  ++ match DCE_PATH env with
     | Some dcePathStr =>
         map (fun dir => dir +:+ "/vtysh")
             (List.filter Stream.nonempty (Stream.getlines Stream.colon dcePathStr))
     | None => []
     end
  ++ ["/workspace/source/ns-3-dce/build/bin_dce/vtysh";
      "/workspace/build/bin_dce/vtysh";
      "/usr/bin/vtysh";
      "/usr/local/bin/vtysh"].

Definition IsVtyshAvailable (st : VtyshState) : bool * VtyshState :=
  if checked st then (available st, st)
  else
    let exists_ := existsb (stat env) pathsToCheck in
    (exists_, {| available := exists_; checked := true |}).

(** [node] is the pointer argument: [None] is the null pointer. *)
Definition ExecuteVtyshCommand (node : option Z) (command : string) : Action :=
  fun st =>
    match node with
    | None => (st, [])
    | Some n =>
        if negb (Stream.nonempty command) then (st, [])
        else
          let '(ok, st1) := IsVtyshAvailable st in
          if negb ok then (st1, [])
          else if (200 <? String.length command)%nat then (st1, [])
          else (st1, [(n, command)])
    end.

Definition SetQuaggaLinkStateReal (a b : Z) (isUp : bool) : Action :=
  fun st =>
    if negb (ValidateNodeIndices totalNodes a b) then (st, [])
    else
      match GetNode totalNodes a, GetNode totalNodes b with
      | Some nodeAPtr, Some _ =>
          let '(ok, st1) := IsVtyshAvailable st in
          if ok then
            (ExecuteVtyshCommand (Some nodeAPtr) "configure terminal" ;>
             ExecuteVtyshCommand (Some nodeAPtr)
               (if isUp then "no shutdown" else "shutdown")) st1
          else (st1, [])
      | _, _ => (st, [])
      end.

Definition AddQuaggaRoute (node : Z) (prefix nexthop : string) (metric : Z)
  : Action :=
  ExecuteVtyshCommand (Some node) "configure terminal" ;>
  ExecuteVtyshCommand (Some node)
    ("ip route " +:+ prefix +:+ " " +:+ nexthop +:+ " " +:+ to_string metric) ;>
  ExecuteVtyshCommand (Some node) "router ospf" ;>
  ExecuteVtyshCommand (Some node) "redistribute static".

Definition DelQuaggaRoute (node : Z) (prefix nexthop : string) : Action :=
  ExecuteVtyshCommand (Some node) "configure terminal" ;>
  ExecuteVtyshCommand (Some node) ("no ip route " +:+ prefix +:+ " " +:+ nexthop).

Definition ForceOspfConvergence : Action :=
  let maxNodes := Z.min totalNodes 20 in
  for_each (seqZ 0 maxNodes) (fun i =>
    let node := GetNode totalNodes i in
    ExecuteVtyshCommand node "clear ip ospf database" ;>
    ExecuteVtyshCommand node "router ospf" ;>
    ExecuteVtyshCommand node "area 0.0.0.0 stub" ;>
    ExecuteVtyshCommand node "no area 0.0.0.0 stub").

(** The private method of the link detection module ([link-detection.h])
    that [ForceLinkDown] calls. *)
Definition AddAlternativeRoutes (a b : Z) : Action :=
  let maxNodes := Z.min totalNodes 10 in
  for_each (seqZ 0 maxNodes) (fun i =>
    if negb (i =? a) && negb (i =? b) then
      let prefix := "10." +:+ to_string b +:+ ".0.0/16" in
      let nexthop := "10.0." +:+ to_string i +:+ ".1" in
      match GetNode totalNodes a with
      | Some nodeAPtr => AddQuaggaRoute nodeAPtr prefix nexthop 10
      | None => skip
      end
    else skip).

(** The private method of the route management module ([route-mgmt.h])
    that applies one update: four extractions from the text, then the
    action that the first word names. *)
Definition ApplyRouteUpdateReal (node : Z) (routeUpdate : string) : Action :=
  let iss := Stream.open routeUpdate in
  let '(action, iss) := Stream.extract_string "" iss in
  let '(prefix, iss) := Stream.extract_string "" iss in
  let '(nexthop, iss) := Stream.extract_string "" iss in
  let metric := Stream.extract_int 1 iss in
  if String.eqb action "ADD" then AddQuaggaRoute node prefix nexthop metric
  else if String.eqb action "DEL" then DelQuaggaRoute node prefix nexthop
  else if String.eqb action "UPDATE" then
    DelQuaggaRoute node prefix nexthop ;> AddQuaggaRoute node prefix nexthop metric
  else skip.

End WithEnvironment.

(** An action that starts no command in the simulation mode, where the
    state says that vtysh is not there. *)
Definition silent (f : Action) : Prop :=
  forall st, available st = false ->
             snd (f st) = [] /\ available (fst (f st)) = false.

(** Vtysh is there: the state says so, or will after the first check. *)
Definition ready (env : Environment) (st : VtyshState) : Prop :=
  fst (IsVtyshAvailable env st) = true.

End Quagga.

(** What a call recorded at the boundary of the modules does in the
    helper, and a sequence of them. *)
Definition perform (env : Quagga.Environment) (totalNodes : Z) (c : SinkCall)
  : Quagga.Action :=
  match c with
  | SetQuaggaLinkStateReal a b isUp =>
      Quagga.SetQuaggaLinkStateReal env totalNodes a b isUp
  | AddAlternativeRoutes a b => Quagga.AddAlternativeRoutes env totalNodes a b
  | ApplyRouteUpdateReal node routeUpdate =>
      Quagga.ApplyRouteUpdateReal env node routeUpdate
  | ForceOspfConvergence => Quagga.ForceOspfConvergence env totalNodes
  end.

Definition perform_all (env : Quagga.Environment) (totalNodes : Z)
    (calls : list SinkCall) : Quagga.Action :=
  Quagga.for_each calls (perform env totalNodes).

(** The four commands that install a route, and the two that remove
    one. *)
Definition route_commands (node : Z) (prefix nexthop : string) (metric : Z)
  : list (Z * string) :=
  [(node, "configure terminal");
   (node, "ip route " +:+ prefix +:+ " " +:+ nexthop +:+ " " +:+ to_string metric);
   (node, "router ospf");
   (node, "redistribute static")].

Definition no_route_commands (node : Z) (prefix nexthop : string)
  : list (Z * string) :=
  [(node, "configure terminal");
   (node, "no ip route " +:+ prefix +:+ " " +:+ nexthop)].

Definition convergence_commands (node : Z) : list (Z * string) :=
  [(node, "clear ip ospf database");
   (node, "router ospf");
   (node, "area 0.0.0.0 stub");
   (node, "no area 0.0.0.0 stub")].

(** ** The scenario ([satnet-dce-quagga-rfp.cc])

    [SIM_STOP] is the value [satnet-dce-quagga-base.cc] declares. The
    global [g_rfpController] is a pointer that may be null. *)

Module Scenario.

Definition SIM_STOP : double := Double.lit 100 1.   (* 100.0 *)

(** The four calls of [Simulator::Schedule] for one event, in the order
    in which [SchedulePredictableLinkDown] makes them. *)
Definition timeline (a b : Z) (event : PredictableLinkDownEvent)
  : list Controller.Scheduled :=
  [ {| Controller.delay := T1 event; Controller.action := Controller.ExecuteT1;
       Controller.arg_nodeA := a; Controller.arg_nodeB := b;
       Controller.arg_currentTime := T1 event |};
    {| Controller.delay := T2 event; Controller.action := Controller.ExecuteT2;
       Controller.arg_nodeA := a; Controller.arg_nodeB := b;
       Controller.arg_currentTime := T2 event |};
    {| Controller.delay := T0 event; Controller.action := Controller.ExecuteT0;
       Controller.arg_nodeA := a; Controller.arg_nodeB := b;
       Controller.arg_currentTime := T0 event |};
    {| Controller.delay := T3 event; Controller.action := Controller.ExecuteT3;
       Controller.arg_nodeA := a; Controller.arg_nodeB := b;
       Controller.arg_currentTime := T3 event |} ].

Section WithNodes.

Variable totalNodes : Z.

(** One pass of the loop of [CreatePredictableLinkEvents], on the
    controller, the calls scheduled so far and [eventCount]. The loop
    stops once [eventCount] is 6; from then on a pass changes nothing. *)
Definition create_pass (maxSatellites : Z)
    (st : Controller.SatnetOspfController * list Controller.Scheduled * Z) (i : Z)
  : Controller.SatnetOspfController * list Controller.Scheduled * Z :=
  let '(c, scheduled, eventCount) := st in
  if negb (eventCount <? 6) then st
  else
    let nodeA := i mod maxSatellites in
    let nodeB := (i + 1) mod maxSatellites in
    let nodeB := if nodeA =? nodeB then (nodeB + 1) mod maxSatellites else nodeB in
    if negb (ValidateNodeIndices totalNodes nodeA nodeB) then st
    else
      let linkDownTime :=
        Double.add (Double.of_int 10)
                   (Double.mul (Double.of_int (u32 (eventCount + 1)))
                               (Double.of_int 8)) in
      if Double.ltb linkDownTime (Double.sub SIM_STOP (Double.of_int 15)) then
        let '(c', calls) :=
          Controller.SchedulePredictableLinkDown totalNodes (u32 (eventCount + 1))
            nodeA nodeB linkDownTime c in
        (c', scheduled ++ calls, u32 (eventCount + 1))
      else st.

Definition CreatePredictableLinkEvents
    (g_rfpController : option Controller.SatnetOspfController)
  : option Controller.SatnetOspfController * list Controller.Scheduled :=
  match g_rfpController with
  | None => (None, [])
  | Some c =>
      let maxSatellites := Z.min totalNodes 30 in
      if maxSatellites <? 2 then (Some c, [])
      else
        let '(c', scheduled, _) :=
          fold_left (create_pass maxSatellites) (seqZ 0 6) (c, [], 0) in
        (Some c', scheduled)
  end.

End WithNodes.

End Scenario.

(** * Properties *)

(** ** Binary64 arithmetic where it does not round

    An addition or a subtraction whose exact result is a double returns
    that double, and the comparison of two doubles is the comparison of
    their exact values. *)

Section Exact.

Import Double.

Lemma iter_pos_eq {A : Type} (f : A -> A) (p : positive) (x : A) :
  SpecFloat.iter_pos f p x = Pos.iter f x p.
Proof.
  revert x. induction p as [p IH|p IH|]; intros x; simpl.
  - rewrite !IH, !Pos.iter_swap. done.
  - by rewrite !IH.
  - done.
Qed.

Lemma iter_xO_digits (m k : positive) :
  digits2_pos (Pos.iter xO m k) = (digits2_pos m + k)%positive.
Proof.
  induction k as [|k IH] using Pos.peano_ind.
  - simpl. lia.
  - rewrite Pos.iter_succ. simpl. rewrite IH. lia.
Qed.

Lemma iter_xO_value (m k : positive) :
  Zpos (Pos.iter xO m k) = Zpos m * 2 ^ Zpos k.
Proof.
  induction k as [|k IH] using Pos.peano_ind.
  - simpl. lia.
  - rewrite Pos.iter_succ, Pos2Z.inj_xO, IH, Pos2Z.inj_succ, Z.pow_succ_r; lia.
Qed.

Lemma iter_shr_1_xO (m k : positive) :
  SpecFloat.iter_pos shr_1 k {| shr_m := Zpos (Pos.iter xO m k); shr_r := false; shr_s := false |}
  = {| shr_m := Zpos m; shr_r := false; shr_s := false |}.
Proof.
  rewrite iter_pos_eq.
  induction k as [|k IH] using Pos.peano_ind.
  - done.
  - rewrite Pos.iter_succ_r, Pos.iter_succ. simpl. exact IH.
Qed.

Lemma bounded_inv (m : positive) (e : Z) :
  bounded prec emax m e = true ->
  fexp prec emax (Zpos (digits2_pos m) + e) = e /\ e <= emax - prec.
Proof.
  unfold bounded, canonical_mantissa. intros H.
  apply andb_prop in H as [H1 H2]. split; [by apply Z.eqb_eq|by apply Z.leb_le].
Qed.

Lemma round_aux_canonical (s : bool) (m : positive) (e : Z) :
  bounded prec emax m e = true ->
  binary_round_aux prec emax s (Zpos m) e loc_Exact = S754_finite s m e.
Proof.
  intros H. destruct (bounded_inv m e H) as [Hc Hle].
  unfold binary_round_aux, shr_fexp. cbn [Zdigits2 shr_record_of_loc].
  rewrite Hc, Z.sub_diag. cbn [shr shr_m loc_of_shr_record round_nearest_even Zdigits2].
  rewrite Hc, Z.sub_diag. cbn [shr shr_m].
  apply Z.leb_le in Hle. by rewrite Hle.
Qed.

Lemma round_aux_shifted (s : bool) (m k : positive) (e : Z) :
  bounded prec emax m (e + Zpos k) = true ->
  binary_round_aux prec emax s (Zpos (Pos.iter xO m k)) e loc_Exact
  = S754_finite s m (e + Zpos k).
Proof.
  intros H. destruct (bounded_inv _ _ H) as [Hc Hle].
  unfold binary_round_aux, shr_fexp. cbn [Zdigits2 shr_record_of_loc].
  rewrite iter_xO_digits.
  replace (Z.pos (digits2_pos m + k) + e) with (Z.pos (digits2_pos m) + (e + Z.pos k)) by lia.
  rewrite Hc.
  replace (e + Z.pos k - e) with (Zpos k) by lia.
  cbn [shr]. rewrite iter_shr_1_xO.
  cbn [shr_m loc_of_shr_record round_nearest_even Zdigits2].
  rewrite Hc, Z.sub_diag. cbn [shr shr_m].
  apply Z.leb_le in Hle. by rewrite Hle.
Qed.

(** Rounding of [p * 2^e], an exactly representable value. *)
Lemma binary_round_exact (s : bool) (p m : positive) (e er : Z) :
  bounded prec emax m er = true ->
  -1074 <= e ->
  Zpos p * 2 ^ (e + 1074) = Zpos m * 2 ^ (er + 1074) ->
  binary_round prec emax s p e = S754_finite s m er.
Proof.
  intros Hb He Heq. destruct (bounded_inv _ _ Hb) as [Hc Hle].
  assert (Her : -1074 <= er).
  { rewrite <- Hc. unfold fexp, SpecFloat.emin, emax, prec. lia. }
  unfold binary_round.
  destruct (Z.lt_trichotomy er e) as [Hlt|[->|Hgt]].
  - (* the mantissa is shifted left *)
    assert (Hm : Zpos m = Zpos p * 2 ^ (e - er)).
    { replace (e + 1074) with ((e - er) + (er + 1074)) in Heq by lia.
      rewrite (Z.pow_add_r 2 (e - er) (er + 1074)) in Heq by lia.
      rewrite Z.mul_assoc in Heq.
      apply (Z.mul_cancel_r _ _ (2 ^ (er + 1074))); [|lia].
      apply Z.pow_nonzero; lia. }
    destruct (e - er) as [|k|k] eqn:Hk; try lia.
    rewrite <- iter_xO_value in Hm. injection Hm as ->.
    assert (Hd : fexp prec emax (Z.pos (digits2_pos p) + e) = er).
    { etransitivity; [|exact Hc]. rewrite iter_xO_digits. f_equal. lia. }
    rewrite Hd. unfold shl_align.
    replace (er - e) with (Zneg k) by lia.
    by apply round_aux_canonical.
  - assert (p = m) as ->.
    { apply Z.mul_cancel_r in Heq; [by injection Heq|]. apply Z.pow_nonzero; lia. }
    rewrite Hc. unfold shl_align. rewrite Z.sub_diag.
    by apply round_aux_canonical.
  - assert (Hp : Zpos p = Zpos m * 2 ^ (er - e)).
    { replace (er + 1074) with ((er - e) + (e + 1074)) in Heq by lia.
      rewrite (Z.pow_add_r 2 (er - e) (e + 1074)) in Heq by lia.
      rewrite Z.mul_assoc in Heq.
      apply (Z.mul_cancel_r _ _ (2 ^ (e + 1074))); [|lia].
      apply Z.pow_nonzero; lia. }
    destruct (er - e) as [|k|k] eqn:Hk; try lia.
    rewrite <- iter_xO_value in Hp. injection Hp as ->.
    assert (Hd : fexp prec emax (Z.pos (digits2_pos (Pos.iter xO m k)) + e) = er).
    { etransitivity; [|exact Hc]. rewrite iter_xO_digits. f_equal. lia. }
    rewrite Hd. unfold shl_align.
    replace (er - e) with (Zpos k) by lia.
    replace er with (e + Zpos k) in * by lia.
    by apply round_aux_shifted.
Qed.

Lemma pow2_pos (k : Z) : 0 <= k -> 0 < 2 ^ k.
Proof. intros H. apply Z.pow_pos_nonneg; lia. Qed.

Lemma normalize_exact (z e : Z) (s : bool) (m : positive) (er : Z) :
  bounded prec emax m er = true ->
  -1074 <= e ->
  z * 2 ^ (e + 1074) = cond_Zopp s (Zpos m) * 2 ^ (er + 1074) ->
  binary_normalize prec emax z e false = S754_finite s m er.
Proof.
  intros Hb He Heq. destruct (bounded_inv _ _ Hb) as [Hc _].
  assert (Her : -1074 <= er).
  { rewrite <- Hc. unfold fexp, SpecFloat.emin, emax, prec. lia. }
  pose proof (pow2_pos (e + 1074) ltac:(lia)) as H1.
  pose proof (pow2_pos (er + 1074) ltac:(lia)) as H2.
  destruct z as [|p|p], s; cbn [cond_Zopp binary_normalize] in *; try nia.
  - apply binary_round_exact; [done|done|]. lia.
  - apply binary_round_exact; [done|done|]. lia.
Qed.

Lemma shl_align_value (m : positive) (e ez : Z) :
  ez <= e -> Zpos (fst (shl_align m e ez)) = Zpos m * 2 ^ (e - ez).
Proof.
  intros H. unfold shl_align.
  destruct (ez - e) as [|d|d] eqn:Hd; try lia; cbn [fst].
  - replace (e - ez) with 0 by lia. rewrite Z.pow_0_r. lia.
  - rewrite iter_xO_value. f_equal. f_equal. lia.
Qed.

Lemma aligned_ticks (s : bool) (m : positive) (e ez : Z) :
  -1074 <= ez -> ez <= e ->
  cond_Zopp s (Zpos (fst (shl_align m e ez))) * 2 ^ (ez + 1074)
  = ticks (S754_finite s m e).
Proof.
  intros H1 H2. rewrite shl_align_value by done. cbn [ticks].
  replace (e + 1074) with ((e - ez) + (ez + 1074)) by lia.
  rewrite (Z.pow_add_r 2 (e - ez) (ez + 1074)) by lia.
  destruct s; cbn [cond_Zopp]; lia.
Qed.

Lemma finite_nonzero_emin (s : bool) (m : positive) (e : Z) :
  finite_nonzero (S754_finite s m e) = true -> -1074 <= e.
Proof.
  intros H. destruct (bounded_inv _ _ H) as [Hc _].
  rewrite <- Hc. unfold fexp, SpecFloat.emin, emax, prec. lia.
Qed.

Lemma sub_exact (x y r : spec_float) :
  finite_nonzero x = true -> finite_nonzero y = true -> finite_nonzero r = true ->
  ticks r = ticks x - ticks y ->
  SFsub prec emax x y = r.
Proof.
  destruct x as [| | |sx mx ex], y as [| | |sy my ey], r as [| | |sr mr er];
    try discriminate.
  intros Hx Hy Hr Heq.
  pose proof (finite_nonzero_emin _ _ _ Hx). pose proof (finite_nonzero_emin _ _ _ Hy).
  cbn [SFsub]. cbv zeta. apply normalize_exact; [done|lia|].
  rewrite Z.mul_sub_distr_r, !aligned_ticks by lia. symmetry. exact Heq.
Qed.

Lemma add_exact (x y r : spec_float) :
  finite_nonzero x = true -> finite_nonzero y = true -> finite_nonzero r = true ->
  ticks r = ticks x + ticks y ->
  SFadd prec emax x y = r.
Proof.
  destruct x as [| | |sx mx ex], y as [| | |sy my ey], r as [| | |sr mr er];
    try discriminate.
  intros Hx Hy Hr Heq.
  pose proof (finite_nonzero_emin _ _ _ Hx). pose proof (finite_nonzero_emin _ _ _ Hy).
  cbn [SFadd]. cbv zeta. apply normalize_exact; [done|lia|].
  rewrite Z.mul_add_distr_r, !aligned_ticks by lia. symmetry. exact Heq.
Qed.

Lemma digits2_pos_bounds (m : positive) :
  2 ^ (Zpos (digits2_pos m) - 1) <= Zpos m < 2 ^ Zpos (digits2_pos m).
Proof.
  induction m as [p IH|p IH|]; cbn [digits2_pos].
  - rewrite Pos2Z.inj_succ.
    replace (Z.succ (Z.pos (digits2_pos p)) - 1) with (Z.succ (Z.pos (digits2_pos p) - 1)) by lia.
    rewrite !Z.pow_succ_r by lia. lia.
  - rewrite Pos2Z.inj_succ.
    replace (Z.succ (Z.pos (digits2_pos p)) - 1) with (Z.succ (Z.pos (digits2_pos p) - 1)) by lia.
    rewrite !Z.pow_succ_r by lia. lia.
  - simpl. lia.
Qed.

Lemma bounded_digits (m : positive) (e : Z) :
  bounded prec emax m e = true ->
  -1074 <= e /\ Zpos (digits2_pos m) <= 53
  /\ (-1074 < e -> Zpos (digits2_pos m) = 53).
Proof.
  intros H. destruct (bounded_inv _ _ H) as [Hc _].
  unfold fexp, SpecFloat.emin, emax, prec in Hc. lia.
Qed.

Lemma magnitude_lt_exponent (m1 m2 : positive) (e1 e2 : Z) :
  bounded prec emax m1 e1 = true -> bounded prec emax m2 e2 = true ->
  e1 < e2 -> magnitude m1 e1 < magnitude m2 e2.
Proof.
  intros H1 H2 Hlt. unfold magnitude.
  destruct (bounded_digits _ _ H1) as (He1 & Hd1 & _).
  destruct (bounded_digits _ _ H2) as (He2 & _ & Hd2).
  specialize (Hd2 ltac:(lia)).
  pose proof (digits2_pos_bounds m1) as [_ Hm1].
  pose proof (digits2_pos_bounds m2) as [Hm2 _]. rewrite Hd2 in Hm2.
  assert (Hm1' : Zpos m1 < 2 ^ 53).
  { eapply Z.lt_le_trans; [exact Hm1|]. apply Z.pow_le_mono_r; lia. }
  pose proof (pow2_pos (e1 + 1074) ltac:(lia)) as Hp1.
  assert (Hp2 : 2 * 2 ^ (e1 + 1074) <= 2 ^ (e2 + 1074)).
  { rewrite <- Z.pow_succ_r by lia. apply Z.pow_le_mono_r; lia. }
  change (2 ^ (53 - 1)) with (2 ^ 52) in Hm2.
  change (2 ^ 53) with (2 * 2 ^ 52) in Hm1'.
  pose proof (pow2_pos 52 ltac:(lia)). nia.
Qed.

Lemma magnitude_compare (m1 m2 : positive) (e1 e2 : Z) :
  bounded prec emax m1 e1 = true -> bounded prec emax m2 e2 = true ->
  match e1 ?= e2 with
  | Lt => Lt
  | Gt => Gt
  | Eq => Pos.compare_cont Eq m1 m2
  end = (magnitude m1 e1 ?= magnitude m2 e2).
Proof.
  intros H1 H2. destruct (Z.compare_spec e1 e2) as [->|Hlt|Hgt].
  - unfold magnitude. destruct (bounded_digits _ _ H2) as (He2 & _).
    pose proof (pow2_pos (e2 + 1074) ltac:(lia)).
    change (Pos.compare_cont Eq m1 m2) with (Zpos m1 ?= Zpos m2).
    symmetry. destruct (Z.compare_spec (Zpos m1) (Zpos m2)) as [Heq|Hl|Hg].
    + rewrite Heq. apply Z.compare_refl.
    + apply Z.compare_lt_iff. nia.
    + apply Z.compare_gt_iff. nia.
  - symmetry. apply Z.compare_lt_iff. by apply magnitude_lt_exponent.
  - symmetry. apply Z.compare_gt_iff. by apply magnitude_lt_exponent.
Qed.

Lemma compare_ticks (x y : spec_float) :
  finite_nonzero x = true -> finite_nonzero y = true ->
  SFcompare x y = Some (ticks x ?= ticks y).
Proof.
  destruct x as [| | |sx mx ex], y as [| | |sy my ey]; try discriminate.
  intros Hx Hy. cbn [finite_nonzero] in *.
  pose proof (magnitude_compare _ _ _ _ Hx Hy) as Hxy.
  pose proof (magnitude_compare _ _ _ _ Hy Hx) as Hyx.
  destruct (bounded_digits _ _ Hx) as (Hex & _).
  destruct (bounded_digits _ _ Hy) as (Hey & _).
  pose proof (pow2_pos (ex + 1074) ltac:(lia)).
  pose proof (pow2_pos (ey + 1074) ltac:(lia)).
  cbn [SFcompare ticks]. f_equal.
  destruct sx, sy; cbn [cond_Zopp].
  - rewrite !Z.mul_opp_l, Z.compare_opp. fold (magnitude mx ex) (magnitude my ey).
    rewrite <- Hyx. rewrite (Z.compare_antisym ey ex), Pos.compare_cont_antisym.
    by destruct (ey ?= ex).
  - symmetry. apply Z.compare_lt_iff. nia.
  - symmetry. apply Z.compare_gt_iff. nia.
  - exact Hxy.
Qed.

Lemma ltb_ticks (x y : spec_float) :
  finite_nonzero x = true -> finite_nonzero y = true ->
  SFltb x y = (ticks x <? ticks y).
Proof.
  intros Hx Hy. unfold SFltb, Z.ltb. rewrite compare_ticks by done.
  by destruct (ticks x ?= ticks y).
Qed.

(** *** Rounding keeps the sign

    In the normal range the result of a rounding is not zero: what is
    needed to know which way the test [T1 < 0] goes when the subtractions
    do round. *)

Lemma shr_1_div2 (r : shr_record) :
  0 <= shr_m r -> shr_m (shr_1 r) = Z.div2 (shr_m r).
Proof.
  destruct r as [m r s]. cbn [shr_m]. intros H.
  destruct m as [|[p|p|]|p]; try done; lia.
Qed.

Lemma iter_shr_1_shiftr (k : positive) (r : shr_record) :
  0 <= shr_m r ->
  shr_m (SpecFloat.iter_pos shr_1 k r) = shr_m r / 2 ^ Zpos k.
Proof.
  rewrite iter_pos_eq. rewrite <- Z.shiftr_div_pow2 by lia.
  change (Z.shiftr (shr_m r) (Zpos k)) with (Pos.iter Z.div2 (shr_m r) k).
  intros H.
  enough (0 <= shr_m (Pos.iter shr_1 r k)
          /\ shr_m (Pos.iter shr_1 r k) = Pos.iter Z.div2 (shr_m r) k) by tauto.
  induction k as [|k IH] using Pos.peano_ind.
  - cbn [Pos.iter]. rewrite shr_1_div2 by done. split; [|done].
    rewrite Z.div2_div. apply Z.div_pos; lia.
  - rewrite !Pos.iter_succ. destruct IH as [IH1 IH2].
    rewrite shr_1_div2 by done. rewrite IH2. split; [|done].
    rewrite <- IH2, Z.div2_div. apply Z.div_pos; lia.
Qed.

Lemma digits2_pos_unique (m : positive) (d : Z) :
  2 ^ (d - 1) <= Zpos m < 2 ^ d -> Zpos (digits2_pos m) = d.
Proof.
  intros [Hlo Hhi]. pose proof (digits2_pos_bounds m) as [Hlo' Hhi'].
  assert (0 < d).
  { destruct (Z.lt_trichotomy d 0) as [Hn|[->|Hp]]; [|simpl in Hhi; lia|done].
    rewrite Z.pow_neg_r in Hhi by lia. lia. }
  assert (d - 1 < Zpos (digits2_pos m)).
  { apply (Z.pow_lt_mono_r_iff 2); [lia|lia|lia]. }
  assert (Zpos (digits2_pos m) - 1 < d).
  { apply (Z.pow_lt_mono_r_iff 2); [lia|lia|lia]. }
  lia.
Qed.

Lemma fexp_normal (x : Z) : -1074 <= x - 53 -> fexp prec emax x = x - 53.
Proof. unfold fexp, SpecFloat.emin, emax, prec. lia. Qed.

(** The second half of [binary_round_aux]: a mantissa of 53 bits, or
    [2^53], is kept or halved, never lost. *)
Lemma round_finish (s : bool) (q : positive) (e : Z) :
  2 ^ 52 <= Zpos q <= 2 ^ 53 -> -1074 <= e ->
  signed s
    (let '(mrs, e') := shr_fexp prec emax (Zpos q) e loc_Exact in
     match shr_m mrs with
     | Z0 => S754_zero s
     | Zpos m => if e' <=? emax - prec then S754_finite s m e' else S754_infinity s
     | Zneg _ => S754_nan
     end).
Proof.
  intros [Hlo Hhi] He. unfold shr_fexp. cbn [Zdigits2 shr_record_of_loc].
  destruct (Z.eq_dec (Zpos q) (2 ^ 53)) as [Heq|Hne].
  - injection Heq as ->. vm_compute digits2_pos.
    rewrite fexp_normal by lia.
    replace (54 + e - 53 - e) with 1 by lia.
    cbn [shr SpecFloat.iter_pos shr_1 shr_m].
    destruct (e + 1 <=? emax - prec); cbn [signed]; split; lia || done.
  - rewrite (digits2_pos_unique q 53) by (change (53 - 1) with 52; lia).
    rewrite fexp_normal by lia.
    replace (53 + e - 53 - e) with 0 by lia. cbn [shr shr_m].
    destruct (e <=? emax - prec); cbn [signed]; split; lia || done.
Qed.

Lemma round_nearest_even_bounds (m : Z) (l : location) :
  m <= round_nearest_even m l <= m + 1.
Proof.
  destruct l as [|[]]; cbn [round_nearest_even]; try lia.
  destruct (Z.even m); lia.
Qed.

(** A value in the normal range keeps its sign through rounding: the
    result is a finite double other than zero, or an infinity. *)
Lemma binary_round_normal (s : bool) (p : positive) (e : Z) :
  -1074 <= Zpos (digits2_pos p) + e - 53 ->
  signed s (binary_round prec emax s p e).
Proof.
  intros Hn. pose proof (digits2_pos_bounds p) as [Hlo Hhi].
  unfold binary_round. rewrite fexp_normal by done.
  unfold shl_align.
  replace (Z.pos (digits2_pos p) + e - 53 - e) with (Zpos (digits2_pos p) - 53) by lia.
  destruct (Zpos (digits2_pos p) - 53) as [|k|j] eqn:Hd.
  - (* 53 bits already *)
    unfold binary_round_aux.
    pose proof (round_finish s p e) as Hf.
    unfold shr_fexp at 1. cbn [Zdigits2 shr_record_of_loc].
    rewrite fexp_normal by done.
    replace (Z.pos (digits2_pos p) + e - 53 - e) with 0 by lia.
    cbn [shr shr_m loc_of_shr_record round_nearest_even].
    apply Hf; [|lia].
    replace (Zpos (digits2_pos p)) with 53 in * by lia.
    change (53 - 1) with 52 in Hlo. lia.
  - (* more than 53 bits: shifted right, then rounded *)
    unfold binary_round_aux.
    unfold shr_fexp at 1. cbn [Zdigits2 shr_record_of_loc].
    rewrite fexp_normal by done.
    replace (Z.pos (digits2_pos p) + e - 53 - e) with (Zpos k) by lia.
    cbn [shr].
    set (r1 := SpecFloat.iter_pos shr_1 k _).
    assert (Hm1 : shr_m r1 = Zpos p / 2 ^ Zpos k).
    { unfold r1. rewrite iter_shr_1_shiftr; [done|cbn; lia]. }
    assert (Hb : 2 ^ 52 <= shr_m r1 < 2 ^ 53).
    { rewrite Hm1.
      replace (Zpos (digits2_pos p)) with (53 + Zpos k) in * by lia.
      replace (53 + Zpos k - 1) with (52 + Zpos k) in Hlo by lia.
      rewrite !Z.pow_add_r in * by lia.
      assert (0 < 2 ^ Zpos k) by (apply Z.pow_pos_nonneg; lia).
      split.
      - apply Z.div_le_lower_bound; lia.
      - apply Z.div_lt_upper_bound; lia. }
    pose proof (round_nearest_even_bounds (shr_m r1) (loc_of_shr_record r1)) as Hr.
    destruct (round_nearest_even (shr_m r1) (loc_of_shr_record r1)) as [|q|q] eqn:Hq;
      try lia.
    apply round_finish; lia.
  - (* fewer than 53 bits: shifted left *)
    unfold binary_round_aux.
    unfold shr_fexp at 1. cbn [Zdigits2 shr_record_of_loc].
    rewrite iter_xO_digits.
    rewrite fexp_normal by lia.
    replace (Z.pos (digits2_pos p + j) + (Z.pos (digits2_pos p) + e - 53) - 53
             - (Z.pos (digits2_pos p) + e - 53)) with 0 by lia.
    cbn [shr shr_m loc_of_shr_record round_nearest_even].
    apply round_finish; [|lia].
    rewrite iter_xO_value.
    replace (Zpos j) with (53 - Zpos (digits2_pos p)) by lia.
    assert (Hpow : 2 ^ (Zpos (digits2_pos p) - 1) * 2 ^ (53 - Zpos (digits2_pos p)) = 2 ^ 52).
    { rewrite <- Z.pow_add_r by lia. f_equal. lia. }
    assert (Hpow' : 2 ^ Zpos (digits2_pos p) * 2 ^ (53 - Zpos (digits2_pos p)) = 2 ^ 53).
    { rewrite <- Z.pow_add_r by lia. f_equal. lia. }
    assert (0 < 2 ^ (53 - Zpos (digits2_pos p))) by (apply Z.pow_pos_nonneg; lia).
    nia.
Qed.

(** An integer of at most 53 bits times a power of two in the normal
    range is a double. *)
Lemma normalize_small (n e : Z) :
  0 < n < 2 ^ 53 -> -1022 <= e <= 971 ->
  finite_nonzero (binary_normalize prec emax n e false) = true
  /\ ticks (binary_normalize prec emax n e false) = n * 2 ^ (e + 1074).
Proof.
  intros [Hn0 Hn] He. destruct n as [|p|p]; try lia.
  pose proof (digits2_pos_bounds p) as [Hlo _].
  assert (Hd : Zpos (digits2_pos p) <= 53).
  { destruct (Z.le_gt_cases (Zpos (digits2_pos p)) 53) as [|Hgt]; [done|].
    assert (2 ^ 53 <= 2 ^ (Zpos (digits2_pos p) - 1))
      by (apply Z.pow_le_mono_r; lia).
    lia. }
  cbn [binary_normalize].
  destruct (53 - Zpos (digits2_pos p)) as [|j|j] eqn:Hj; try lia.
  - assert (Hb : bounded prec emax p e = true).
    { unfold bounded, canonical_mantissa, fexp, SpecFloat.emin, emax, prec.
      apply andb_true_intro. split; [apply Z.eqb_eq|apply Z.leb_le]; lia. }
    rewrite (binary_round_exact false p p e e Hb); [|lia|done].
    split; [exact Hb|]. done.
  - assert (Hj52 : Zpos j <= 52) by lia.
    assert (Hb : bounded prec emax (Pos.iter xO p j) (e - Zpos j) = true).
    { unfold bounded, canonical_mantissa, fexp, SpecFloat.emin, emax, prec.
      rewrite iter_xO_digits.
      apply andb_true_intro. split; [apply Z.eqb_eq|apply Z.leb_le]; lia. }
    assert (Hv : Zpos p * 2 ^ (e + 1074)
                 = Zpos (Pos.iter xO p j) * 2 ^ (e - Zpos j + 1074)).
    { rewrite iter_xO_value, <- Z.mul_assoc, <- Z.pow_add_r by lia.
      f_equal. f_equal. lia. }
    rewrite (binary_round_exact false p _ e _ Hb); [|lia|exact Hv].
    split; [exact Hb|]. cbn [ticks cond_Zopp]. by rewrite <- Hv.
Qed.

Lemma sub_negative (sx sy : bool) (mx my : positive) (ex ey : Z) :
  -1074 <= ex -> -1074 <= ey ->
  ticks (S754_finite sx mx ex) - ticks (S754_finite sy my ey) <= - 2 ^ 52 ->
  signed true (sub (S754_finite sx mx ex) (S754_finite sy my ey)).
Proof.
  intros Hx Hy Hlt. unfold sub. cbn [SFsub]. cbv zeta.
  set (ez := Z.min ex ey).
  set (z := cond_Zopp sx (Zpos (fst (shl_align mx ex ez)))
            - cond_Zopp sy (Zpos (fst (shl_align my ey ez)))).
  assert (Hz : z * 2 ^ (ez + 1074)
               = ticks (S754_finite sx mx ex) - ticks (S754_finite sy my ey)).
  { unfold z. rewrite Z.mul_sub_distr_r, !aligned_ticks by (unfold ez; lia). done. }
  assert (Hpos : 0 < 2 ^ (ez + 1074)) by (apply pow2_pos; unfold ez; lia).
  assert (H52 : 0 < 2 ^ 52) by (apply pow2_pos; lia).
  destruct z as [|p|p]; try lia.
  cbn [binary_normalize]. apply binary_round_normal.
  pose proof (digits2_pos_bounds p) as [_ Hhi].
  assert (Hlt2 : 2 ^ 52 < 2 ^ (Zpos (digits2_pos p) + (ez + 1074))).
  { rewrite Z.pow_add_r by (unfold ez; lia). nia. }
  apply Z.pow_lt_mono_r_iff in Hlt2; unfold ez in *; lia.
Qed.

End Exact.

(** ** The timeline *)

Section Timeline.

Import Double.

Lemma Tc_value : RFP_CONVERGENCE_TIME_TC = S754_finite false 4503599627370496 (-51).
Proof. vm_compute. reflexivity. Qed.

Lemma dT_value : RFP_SAFETY_MARGIN_DT = S754_finite false 4503599627370496 (-53).
Proof. vm_compute. reflexivity. Qed.

Lemma two_dT_value :
  mul (of_int 2) RFP_SAFETY_MARGIN_DT = S754_finite false 4503599627370496 (-52).
Proof. vm_compute. reflexivity. Qed.

Lemma ticks_Tc : ticks RFP_CONVERGENCE_TIME_TC = 2 * 2 ^ 1074.
Proof. vm_compute. reflexivity. Qed.

Lemma ticks_dT : 2 * ticks RFP_SAFETY_MARGIN_DT = 2 ^ 1074.
Proof. vm_compute. reflexivity. Qed.

Lemma ticks_positive (x : double) :
  0 < ticks x -> ltb x (of_int 0) = false.
Proof.
  intros H. destruct x as [| | |s m e]; try done.
  destruct s; [|done]. cbn [ticks cond_Zopp] in H.
  destruct (Z.le_gt_cases 0 (e + 1074)) as [He|He].
  - pose proof (pow2_pos (e + 1074) He). lia.
  - rewrite Z.pow_neg_r in H by lia. lia.
Qed.

(** The constructor where nothing rounds: the test [T1 < 0] fails and the
    three markers are the exact results. *)
Lemma constructor_exact (lid a b : Z) (t0 u t1 t2 t3 : double) :
  finite_nonzero t0 = true -> finite_nonzero u = true ->
  finite_nonzero t1 = true -> finite_nonzero t2 = true ->
  finite_nonzero t3 = true ->
  ticks u = ticks t0 - ticks RFP_CONVERGENCE_TIME_TC ->
  ticks t1 = ticks u - 2 * ticks RFP_SAFETY_MARGIN_DT ->
  ticks t2 = ticks t0 - ticks RFP_SAFETY_MARGIN_DT ->
  ticks t3 = ticks t0 + ticks RFP_SAFETY_MARGIN_DT ->
  ticks RFP_CONVERGENCE_TIME_TC + 2 * ticks RFP_SAFETY_MARGIN_DT < ticks t0 ->
  NewPredictableLinkDownEvent lid a b t0
  = {| linkId := lid; nodeA := a; nodeB := b;
       T0 := t0; T1 := t1; T2 := t2; T3 := t3; active := true |}.
Proof.
  intros H0 Hu H1 H2 H3 Eu E1 E2 E3 Hgt.
  pose proof ticks_Tc as HTc. pose proof ticks_dT as HdT.
  assert (Su : sub t0 RFP_CONVERGENCE_TIME_TC = u)
    by (apply sub_exact; done).
  assert (S1 : sub u (mul (of_int 2) RFP_SAFETY_MARGIN_DT) = t1)
    by (rewrite two_dT_value; apply sub_exact; done).
  assert (S2 : sub t0 RFP_SAFETY_MARGIN_DT = t2)
    by (apply sub_exact; done).
  assert (S3 : add t0 RFP_SAFETY_MARGIN_DT = t3)
    by (apply add_exact; done).
  unfold NewPredictableLinkDownEvent. rewrite Su, S1, S2, S3.
  rewrite (ticks_positive t1); [done|lia].
Qed.

(** C3, as the code has it. For a double [T0 > Tc + 2 dT] such that
    [T0 - Tc], [T0 - Tc - 2 dT], [T0 - dT] and [T0 + dT] are doubles (the
    subtractions and the addition do not round), the constructor keeps
    [T0] and produces exactly these values as [T1], [T2] and [T3]; then
    [T1 < T2 < T0 < T3] holds for the comparison of doubles, and
    [T3 - T1], computed in doubles, is [Tc + 3 dT]. The constructor is a
    function of its arguments. *)
Theorem markers_exact (lid a b : Z) (t0 u t1 t2 t3 : double) :
  finite_nonzero t0 = true -> finite_nonzero u = true ->
  finite_nonzero t1 = true -> finite_nonzero t2 = true ->
  finite_nonzero t3 = true ->
  ticks u = ticks t0 - ticks RFP_CONVERGENCE_TIME_TC ->
  ticks t1 = ticks u - 2 * ticks RFP_SAFETY_MARGIN_DT ->
  ticks t2 = ticks t0 - ticks RFP_SAFETY_MARGIN_DT ->
  ticks t3 = ticks t0 + ticks RFP_SAFETY_MARGIN_DT ->
  ticks RFP_CONVERGENCE_TIME_TC + 2 * ticks RFP_SAFETY_MARGIN_DT < ticks t0 ->
  let event := NewPredictableLinkDownEvent lid a b t0 in
  event = {| linkId := lid; nodeA := a; nodeB := b;
             T0 := t0; T1 := t1; T2 := t2; T3 := t3; active := true |}
  /\ ltb (T1 event) (T2 event) = true
  /\ ltb (T2 event) (T0 event) = true
  /\ ltb (T0 event) (T3 event) = true
  /\ sub (T3 event) (T1 event)
     = add RFP_CONVERGENCE_TIME_TC (mul (of_int 3) RFP_SAFETY_MARGIN_DT).
Proof.
  intros H0 Hu H1 H2 H3 Eu E1 E2 E3 Hgt. cbv zeta.
  rewrite (constructor_exact lid a b t0 u t1 t2 t3) by done.
  cbn [T0 T1 T2 T3].
  pose proof ticks_Tc as HTc. pose proof ticks_dT as HdT.
  assert (Hpos : 0 < 2 ^ 1074) by (apply pow2_pos; lia).
  split; [done|]. unfold ltb. rewrite !ltb_ticks by done.
  repeat split; try (apply Z.ltb_lt; lia).
  replace (add RFP_CONVERGENCE_TIME_TC (mul (of_int 3) RFP_SAFETY_MARGIN_DT))
    with (S754_finite false 7881299347898368 (-51)) by (vm_compute; reflexivity).
  apply sub_exact; try done.
  assert (Hc : ticks (S754_finite false 7881299347898368 (-51))
               = 3 * 2 ^ 1074 + ticks RFP_SAFETY_MARGIN_DT)
    by (vm_compute; reflexivity).
  rewrite Hc. lia.
Qed.

Lemma markers_exact_witness :
  let t0 := of_int 20 in
  let u := of_int 18 in
  let t1 := of_int 17 in
  let t2 := lit 195 10 in
  let t3 := lit 205 10 in
  (finite_nonzero t0 = true /\ finite_nonzero u = true
   /\ finite_nonzero t1 = true /\ finite_nonzero t2 = true
   /\ finite_nonzero t3 = true)
  /\ (ticks u = ticks t0 - ticks RFP_CONVERGENCE_TIME_TC
      /\ ticks t1 = ticks u - 2 * ticks RFP_SAFETY_MARGIN_DT
      /\ ticks t2 = ticks t0 - ticks RFP_SAFETY_MARGIN_DT
      /\ ticks t3 = ticks t0 + ticks RFP_SAFETY_MARGIN_DT
      /\ ticks RFP_CONVERGENCE_TIME_TC + 2 * ticks RFP_SAFETY_MARGIN_DT < ticks t0)
  /\ let event := NewPredictableLinkDownEvent 1 0 1 t0 in
     event = {| linkId := 1; nodeA := 0; nodeB := 1;
                T0 := t0; T1 := t1; T2 := t2; T3 := t3; active := true |}
     /\ ltb (T1 event) (T2 event) = true
     /\ ltb (T2 event) (T0 event) = true
     /\ ltb (T0 event) (T3 event) = true
     /\ sub (T3 event) (T1 event)
        = add RFP_CONVERGENCE_TIME_TC (mul (of_int 3) RFP_SAFETY_MARGIN_DT).
Proof.
  intros t0 u t1 t2 t3.
  assert (F0 : finite_nonzero t0 = true) by (vm_compute; reflexivity).
  assert (Fu : finite_nonzero u = true) by (vm_compute; reflexivity).
  assert (F1 : finite_nonzero t1 = true) by (vm_compute; reflexivity).
  assert (F2 : finite_nonzero t2 = true) by (vm_compute; reflexivity).
  assert (F3 : finite_nonzero t3 = true) by (vm_compute; reflexivity).
  assert (Eu : ticks u = ticks t0 - ticks RFP_CONVERGENCE_TIME_TC)
    by (vm_compute; reflexivity).
  assert (E1 : ticks t1 = ticks u - 2 * ticks RFP_SAFETY_MARGIN_DT)
    by (vm_compute; reflexivity).
  assert (E2 : ticks t2 = ticks t0 - ticks RFP_SAFETY_MARGIN_DT)
    by (vm_compute; reflexivity).
  assert (E3 : ticks t3 = ticks t0 + ticks RFP_SAFETY_MARGIN_DT)
    by (vm_compute; reflexivity).
  assert (Hgt : ticks RFP_CONVERGENCE_TIME_TC + 2 * ticks RFP_SAFETY_MARGIN_DT
                < ticks t0) by (vm_compute; reflexivity).
  split; [repeat split; assumption|].
  split; [repeat split; assumption|].
  exact (markers_exact 1 0 1 t0 u t1 t2 t3 F0 Fu F1 F2 F3 Eu E1 E2 E3 Hgt).
Defined.

(** Where the exact results are not doubles the markers are the rounded
    ones. For [T0 = 3.9] the sum [T0 + dT] rounds up, [T3] is not
    [T0 + dT] and [T3 - T1] is not [Tc + 3 dT], whether it is computed in
    doubles or exactly. For [T0 = 2^53] both [T0 - dT] and [T0 + dT] round
    to [T0]: [T2 < T0] and [T0 < T3] are false. *)
Lemma markers_rounded :
  (let t0 := lit 39 10 in
   let event := NewPredictableLinkDownEvent 1 0 1 t0 in
   ltb (add RFP_CONVERGENCE_TIME_TC (mul (of_int 2) RFP_SAFETY_MARGIN_DT)) t0 = true
   /\ T0 event = t0
   /\ ticks (T3 event) <> ticks t0 + ticks RFP_SAFETY_MARGIN_DT
   /\ ticks (T3 event) - ticks (T1 event)
      <> ticks RFP_CONVERGENCE_TIME_TC + 3 * ticks RFP_SAFETY_MARGIN_DT
   /\ sub (T3 event) (T1 event)
      <> add RFP_CONVERGENCE_TIME_TC (mul (of_int 3) RFP_SAFETY_MARGIN_DT))
  /\ (let t0 := of_int (2 ^ 53) in
      let event := NewPredictableLinkDownEvent 1 0 1 t0 in
      ltb (add RFP_CONVERGENCE_TIME_TC (mul (of_int 2) RFP_SAFETY_MARGIN_DT)) t0 = true
      /\ T0 event = t0 /\ T2 event = t0 /\ T3 event = t0
      /\ ltb (T2 event) (T0 event) = false
      /\ ltb (T0 event) (T3 event) = false).
Proof. vm_compute. repeat split; try reflexivity; discriminate. Qed.

(** The doubles that hold the multiples of [dT]. *)
Lemma of_halves_exact (k : Z) :
  0 < k < 2 ^ 53 ->
  finite_nonzero (of_halves k) = true /\ 2 * ticks (of_halves k) = k * 2 ^ 1074.
Proof.
  intros Hk. destruct (normalize_small k (-1) Hk) as [Hf Ht]; [lia|].
  split; [exact Hf|]. unfold of_halves. rewrite Ht.
  change (-1 + 1074) with 1073.
  replace (2 ^ 1074) with (2 * 2 ^ 1073)
    by (rewrite <- Z.pow_succ_r by lia; reflexivity).
  lia.
Qed.

(** The exact case covers every failure time that is a multiple of half a
    second, from 3.5 s up to [2^52] half-seconds. *)
Corollary markers_of_half_seconds (lid a b k : Z) :
  6 < k <= 2 ^ 52 ->
  NewPredictableLinkDownEvent lid a b (of_halves k)
  = {| linkId := lid; nodeA := a; nodeB := b;
       T0 := of_halves k; T1 := of_halves (k - 6);
       T2 := of_halves (k - 1); T3 := of_halves (k + 1); active := true |}.
Proof.
  intros Hk.
  assert (Hp : 2 ^ 52 < 2 ^ 53) by (apply Z.pow_lt_mono_r; lia).
  destruct (of_halves_exact k) as [F0 E0]; [lia|].
  destruct (of_halves_exact (k - 4)) as [Fu Eu]; [lia|].
  destruct (of_halves_exact (k - 6)) as [F1 E1]; [lia|].
  destruct (of_halves_exact (k - 1)) as [F2 E2]; [lia|].
  destruct (of_halves_exact (k + 1)) as [F3 E3]; [lia|].
  pose proof ticks_Tc as HTc. pose proof ticks_dT as HdT.
  apply (constructor_exact lid a b _ (of_halves (k - 4))); try done; lia.
Qed.

(** The branch that clamps gives one timeline, whatever the time asked
    for: the doubles nearest to 0.1, 2.6, 3.1 and 3.6, in their order. *)
Lemma clamped_markers (lid a b : Z) (t0 : double) :
  ltb (sub (sub t0 RFP_CONVERGENCE_TIME_TC) (mul (of_int 2) RFP_SAFETY_MARGIN_DT))
      (of_int 0) = true ->
  let event := NewPredictableLinkDownEvent lid a b t0 in
  event = {| linkId := lid; nodeA := a; nodeB := b;
             T0 := lit 31 10; T1 := lit 1 10; T2 := lit 26 10; T3 := lit 36 10;
             active := true |}
  /\ ltb (T1 event) (T2 event) = true
  /\ ltb (T2 event) (T0 event) = true
  /\ ltb (T0 event) (T3 event) = true.
Proof.
  intros H. cbv zeta. unfold NewPredictableLinkDownEvent. rewrite H.
  split; [vm_compute; reflexivity|].
  vm_compute. done.
Qed.

Lemma signed_negative_ltb (x : double) :
  signed true x -> ltb x (of_int 0) = true.
Proof. destruct x as [| [] | |[] m e]; cbn; intros H; try done; by destruct H. Qed.

Lemma sub_one_negative (u : double) :
  signed true u ->
  signed true (sub u (mul (of_int 2) RFP_SAFETY_MARGIN_DT)).
Proof.
  rewrite two_dT_value. destruct u as [| [] | |[] m e]; cbn [signed]; try done;
    try (by intros []).
  intros [_ He]. apply sub_negative; [done|lia|].
  cbn [ticks cond_Zopp]. change (-52 + 1074) with 1022.
  assert (0 < 2 ^ (e + 1074)) by (apply pow2_pos; lia).
  assert (2 ^ 52 <= 4503599627370496 * 2 ^ 1022) by (vm_compute; discriminate).
  nia.
Qed.

Lemma three_value : of_int 3 = S754_finite false 6755399441055744 (-51).
Proof. vm_compute. reflexivity. Qed.

Lemma pow2_le (a b : Z) : 0 <= a <= b -> 2 ^ a <= 2 ^ b.
Proof. intros H. apply Z.pow_le_mono_r; lia. Qed.

Lemma guard_below_boundary (t0 : double) :
  valid t0 = true ->
  ltb t0 (of_int 3) = true ->
  ltb (sub (sub t0 RFP_CONVERGENCE_TIME_TC) (mul (of_int 2) RFP_SAFETY_MARGIN_DT))
      (of_int 0) = true.
Proof.
  unfold valid. intros Hv Hlt. apply signed_negative_ltb.
  destruct t0 as [s|s| |s m e].
  - destruct s; vm_compute; split; [reflexivity|discriminate| |]; done.
  - destruct s; [vm_compute; reflexivity|discriminate Hlt].
  - discriminate Hlt.
  - cbn [valid_binary] in Hv.
    destruct (bounded_digits _ _ Hv) as (He & Hd & Hd53).
    pose proof (digits2_pos_bounds m) as [Hlo Hhi].
    assert (Hm53 : Zpos m < 2 ^ 53).
    { eapply Z.lt_le_trans; [exact Hhi|]. apply pow2_le. lia. }
    assert (Hp : 0 < 2 ^ (e + 1074)) by (apply pow2_pos; lia).
    destruct s.
    + (* a negative time *)
      apply sub_one_negative. rewrite Tc_value.
      apply sub_negative; [exact He|lia|].
      cbn [ticks cond_Zopp]. change (-51 + 1074) with 1023.
      assert (2 ^ 52 <= 2 ^ 1023) by (apply pow2_le; lia). nia.
    + rewrite three_value in Hlt. unfold ltb, SFltb in Hlt. cbn [SFcompare] in Hlt.
      destruct (Z.compare_spec e (-51)) as [->|Hlow|Hhigh]; [| |discriminate Hlt].
      * (* from 2.0 to 3.0 *)
        assert (Hm3 : Zpos m < 6755399441055744).
        { destruct (PosDef.Pos.compare_cont Eq m 6755399441055744) eqn:Hc;
            [discriminate Hlt| |discriminate Hlt].
          exact (proj1 (Pos.compare_lt_iff m 6755399441055744) Hc). }
        specialize (Hd53 ltac:(lia)). rewrite Hd53 in Hlo.
        change (2 ^ (53 - 1)) with 4503599627370496 in Hlo.
        destruct (Z.eq_dec (Zpos m) 4503599627370496) as [Heq|Hne].
        { injection Heq as ->. vm_compute. split; [reflexivity|discriminate]. }
        destruct (normalize_small (Zpos m - 4503599627370496) (-51)) as [Fr Er];
          [change (2 ^ 53) with 9007199254740992; lia|lia|].
        set (r := binary_normalize prec emax (Zpos m - 4503599627370496) (-51) false) in *.
        change (-51 + 1074) with 1023 in *.
        assert (Hsub : sub (S754_finite false m (-51)) RFP_CONVERGENCE_TIME_TC = r).
        { rewrite Tc_value.
          apply sub_exact; [exact Hv|reflexivity|exact Fr|].
          rewrite Er. cbn [ticks cond_Zopp].
          change (-51 + 1074) with 1023. lia. }
        rewrite Hsub, two_dT_value.
        destruct r as [| | |sr mr er]; [discriminate Fr|discriminate Fr|discriminate Fr|].
        destruct (bounded_digits _ _ Fr) as (Her & _).
        apply sub_negative; [exact Her|lia|].
        rewrite Er. cbn [ticks cond_Zopp].
        change (-52 + 1074) with 1022.
        assert (H23 : 2 ^ 1023 = 2 * 2 ^ 1022)
          by (rewrite <- Z.pow_succ_r by lia; reflexivity).
        assert (2 ^ 52 <= 2 ^ 1022) by (apply pow2_le; lia).
        rewrite H23. nia.
      * (* below 2.0 *)
        apply sub_one_negative. rewrite Tc_value.
        apply sub_negative; [exact He|lia|].
        cbn [ticks cond_Zopp]. change (-51 + 1074) with 1023.
        assert (Hle : 2 ^ (e + 1074) <= 2 ^ 1022) by (apply pow2_le; lia).
        assert (H23 : 2 ^ 1023 = 2 * 2 ^ 1022)
          by (rewrite <- Z.pow_succ_r by lia; reflexivity).
        assert (H53 : 2 ^ 53 = 2 * 2 ^ 52) by reflexivity.
        assert (2 ^ 52 <= 2 ^ 1022) by (apply pow2_le; lia).
        assert (0 < 2 ^ 52) by (apply pow2_pos; lia).
        rewrite H23. nia.
Qed.

(** Below the boundary the branch is taken, by every double: whatever
    [T0 < Tc + 2 dT] is asked for, zero, negative and minus infinity
    included, the timeline is the clamped one. *)
Lemma clamped_below_boundary (lid a b : Z) (t0 : double) :
  valid t0 = true ->
  ltb t0 (add RFP_CONVERGENCE_TIME_TC (mul (of_int 2) RFP_SAFETY_MARGIN_DT)) = true ->
  NewPredictableLinkDownEvent lid a b t0
  = {| linkId := lid; nodeA := a; nodeB := b;
       T0 := lit 31 10; T1 := lit 1 10; T2 := lit 26 10; T3 := lit 36 10;
       active := true |}.
Proof.
  intros Hv Hlt.
  replace (add RFP_CONVERGENCE_TIME_TC (mul (of_int 2) RFP_SAFETY_MARGIN_DT))
    with (of_int 3) in Hlt by (vm_compute; reflexivity).
  exact (proj1 (clamped_markers lid a b t0 (guard_below_boundary t0 Hv Hlt))).
Qed.

(** C4. At [T0 = Tc + 2 dT = 3.0] the difference [T0 - Tc - 2 dT] is zero,
    the test [T1 < 0] fails and nothing is clamped: [T1] is 0, not 0.1.
    The registration then finds [T1 > 0] false: the event is recorded in
    the topology module and none of its four actions is scheduled. *)
Theorem boundary_not_clamped :
  let t0 := of_int 3 in
  let event := NewPredictableLinkDownEvent 1 0 1 t0 in
  leb t0 (add RFP_CONVERGENCE_TIME_TC (mul (of_int 2) RFP_SAFETY_MARGIN_DT)) = true
  /\ T1 event = of_int 0
  /\ T1 event <> lit 1 10
  /\ ltb (of_int 0) (T1 event) = false
  /\ (T0 event, T2 event, T3 event) = (t0, lit 25 10, lit 35 10)
  /\ Controller.SchedulePredictableLinkDown 3 1 0 1 t0 Controller.init
     = ({| Controller.m_tmm := {| TMM.m_predictedEvents := [event] |};
           Controller.m_ldm := LDM.init;
           Controller.m_rmm := RMM.init;
           Controller.m_analyzer := Analyzer.init;
           Controller.m_eventCounter := 0;
           Controller.m_lastEventTime := of_int 0;
           Controller.m_totalQuaggaModifications := 0 |}, []).
Proof. vm_compute. repeat split; try reflexivity; discriminate. Qed.

End Timeline.

(** ** The link gate *)

Section LinkGate.

Import LDM.

Lemma MakeOrderedPair_comm (a b : Z) : MakeOrderedPair a b = MakeOrderedPair b a.
Proof. unfold MakeOrderedPair. f_equal; lia. Qed.

(** The three per-pair operations change the same record whichever way the
    pair is named; only the daemon sees the order (the command goes to the
    first node named). *)
Lemma ForceLinkDown_comm (a b : Z) (t : double) (ldm : LinkDetectionModule) :
  fst (ForceLinkDown a b t ldm) = fst (ForceLinkDown b a t ldm).
Proof. unfold ForceLinkDown. by rewrite (MakeOrderedPair_comm a b). Qed.

Lemma RestoreNormalDetection_comm (a b : Z) (t : double) (ldm : LinkDetectionModule) :
  fst (RestoreNormalDetection a b t ldm) = fst (RestoreNormalDetection b a t ldm).
Proof. unfold RestoreNormalDetection. by rewrite (MakeOrderedPair_comm a b). Qed.

Lemma GetReportedState_comm (a b : Z) (ldm : LinkDetectionModule) :
  GetReportedState a b ldm = GetReportedState b a ldm.
Proof. unfold GetReportedState. by rewrite (MakeOrderedPair_comm a b). Qed.

Lemma GetRealState_comm (a b : Z) (ldm : LinkDetectionModule) :
  GetRealState a b ldm = GetRealState b a ldm.
Proof. unfold GetRealState. by rewrite (MakeOrderedPair_comm a b). Qed.

(** With no topology module behind it the update does not depend on the
    order either. *)
Lemma UpdateRealLinkState_comm_null (a b : Z) (isUp : bool) (t : double)
    (ldm : LinkDetectionModule) :
  fst (UpdateRealLinkState a b isUp t None ldm)
  = fst (UpdateRealLinkState b a isUp t None ldm).
Proof.
  unfold UpdateRealLinkState. rewrite (MakeOrderedPair_comm a b).
  repeat case_match; done.
Qed.

Lemma reportedState_lookup (a b : Z) (ldm : LinkDetectionModule) :
  reportedState a b ldm
  = default false (m_reportedLinkStates ldm !! MakeOrderedPair a b).
Proof.
  unfold reportedState, GetReportedState. cbv zeta. cbn [fst].
  by destruct (m_reportedLinkStates ldm !! MakeOrderedPair a b).
Qed.

(** In the order in which the event was registered the window masks the
    update: the reported states are left as they were. *)
Lemma UpdateRealLinkState_masked (a b : Z) (isUp : bool) (t : double)
    (tmm : TMM.TopologyManagementModule) (ldm : LinkDetectionModule) :
  TMM.IsInBldPeriod a b t tmm = true ->
  m_reportedLinkStates (fst (UpdateRealLinkState a b isUp t (Some tmm) ldm))
  = m_reportedLinkStates ldm
  /\ snd (UpdateRealLinkState a b isUp t (Some tmm) ldm) = [].
Proof.
  intros Hbld. unfold UpdateRealLinkState. rewrite Hbld.
  case_decide; done.
Qed.

(** An override absorbs the update whatever the topology module says. *)
Lemma UpdateRealLinkState_forced (a b : Z) (isUp : bool) (t : double)
    (tmm : option TMM.TopologyManagementModule) (ldm : LinkDetectionModule) :
  MakeOrderedPair a b ∈ m_forcedDownLinks ldm ->
  m_reportedLinkStates (fst (UpdateRealLinkState a b isUp t tmm ldm))
  = m_reportedLinkStates ldm
  /\ snd (UpdateRealLinkState a b isUp t tmm ldm) = [].
Proof.
  intros Hin. unfold UpdateRealLinkState. by rewrite decide_True.
Qed.

Lemma UpdateRealLinkState_forcedDownLinks (a b : Z) (isUp : bool) (t : double)
    (tmm : option TMM.TopologyManagementModule) (ldm : LinkDetectionModule) :
  m_forcedDownLinks (fst (UpdateRealLinkState a b isUp t tmm ldm))
  = m_forcedDownLinks ldm.
Proof. unfold UpdateRealLinkState. repeat case_match; done. Qed.

(** What an update can do to the reported state of a pair: nothing when
    the pair it names is another one or is under override. *)
Lemma UpdateRealLinkState_reported_other (a b : Z) (isUp : bool) (t : double)
    (tmm : option TMM.TopologyManagementModule) (ldm : LinkDetectionModule)
    (link : Z * Z) :
  MakeOrderedPair a b ≠ link \/ MakeOrderedPair a b ∈ m_forcedDownLinks ldm ->
  m_reportedLinkStates (fst (UpdateRealLinkState a b isUp t tmm ldm)) !! link
  = m_reportedLinkStates ldm !! link.
Proof.
  intros H. unfold UpdateRealLinkState.
  case_decide as Hf; [done|].
  destruct H as [Hne|Hin]; [|done].
  repeat case_match; simpl; try done; by rewrite lookup_insert_ne.
Qed.

Lemma ForceLinkDown_overridden (a b : Z) (t : double) (ldm : LinkDetectionModule) :
  overridden (MakeOrderedPair a b) (fst (ForceLinkDown a b t ldm)).
Proof.
  split; simpl; [set_solver | by rewrite lookup_insert_eq].
Qed.

Lemma step_overridden (link : Z * Z) (c : Call) (ldm : LinkDetectionModule) :
  restores link c = false ->
  overridden link ldm -> overridden link (step ldm c).
Proof.
  intros Hr [Hin Hrep]. destruct c as [a b t|a b t|a b isUp t tmm|a b|a b]; simpl.
  - split; simpl; [set_solver|].
    destruct (decide (MakeOrderedPair a b = link)) as [->|Hne].
    + by rewrite lookup_insert_eq.
    + by rewrite lookup_insert_ne.
  - simpl in Hr. apply bool_decide_eq_false in Hr.
    split; simpl; [set_solver|]. by rewrite lookup_insert_ne.
  - split.
    + by rewrite UpdateRealLinkState_forcedDownLinks.
    + rewrite UpdateRealLinkState_reported_other; [done|].
      destruct (decide (MakeOrderedPair a b = link)) as [->|Hne]; auto.
  - done.
  - done.
Qed.

Lemma run_overridden (link : Z * Z) (calls : list Call) (ldm : LinkDetectionModule) :
  Forall (fun c => restores link c = false) calls ->
  overridden link ldm -> overridden link (run calls ldm).
Proof.
  unfold run. revert ldm.
  induction calls as [|c calls IH]; intros ldm Hall Hov; simpl; [done|].
  inversion Hall; subst. apply IH; [done|]. by apply step_overridden.
Qed.

Lemma step_override_invariant (c : Call) (ldm : LinkDetectionModule) :
  override_invariant ldm -> override_invariant (step ldm c).
Proof.
  intros Hinv link.
  destruct c as [a b t|a b t|a b isUp t tmm|a b|a b]; simpl; try apply Hinv.
  - intros Hin. destruct (decide (MakeOrderedPair a b = link)) as [->|Hne].
    + by rewrite lookup_insert_eq.
    + rewrite lookup_insert_ne; [|done]. apply Hinv.
      apply elem_of_union in Hin as [Hin|Hin]; [|done].
      apply elem_of_singleton in Hin. congruence.
  - intros Hin. apply elem_of_difference in Hin as [Hin Hne].
    rewrite lookup_insert_ne; [by apply Hinv|].
    intros Heq. apply Hne. by apply elem_of_singleton.
  - rewrite UpdateRealLinkState_forcedDownLinks. intros Hin.
    rewrite UpdateRealLinkState_reported_other; [by apply Hinv|].
    destruct (decide (MakeOrderedPair a b = link)) as [->|Hne]; auto.
Qed.

Lemma run_override_invariant (calls : list Call) (ldm : LinkDetectionModule) :
  override_invariant ldm -> override_invariant (run calls ldm).
Proof.
  unfold run. revert ldm.
  induction calls as [|c calls IH]; intros ldm Hinv; simpl; [done|].
  apply IH. by apply step_override_invariant.
Qed.

Lemma init_override_invariant : override_invariant init.
Proof. intros link Hin. simpl in Hin. set_solver. Qed.

(** A pair that no changing call has named is absent from both maps. *)
Lemma step_untouched (link : Z * Z) (c : Call) (ldm : LinkDetectionModule) :
  touches link c = false ->
  untouched link ldm -> untouched link (step ldm c).
Proof.
  intros Ht [Hreal Hrep].
  destruct c as [a b t|a b t|a b isUp t tmm|a b|a b]; simpl in *;
    try apply bool_decide_eq_false in Ht; try done.
  - split; simpl; [done|]. by rewrite lookup_insert_ne.
  - split; simpl; by rewrite lookup_insert_ne.
  - unfold UpdateRealLinkState. split.
    + repeat case_match; simpl; by rewrite lookup_insert_ne.
    + repeat case_match; simpl; try done; by rewrite lookup_insert_ne.
Qed.

Lemma run_untouched (link : Z * Z) (calls : list Call) (ldm : LinkDetectionModule) :
  Forall (fun c => touches link c = false) calls ->
  untouched link ldm -> untouched link (run calls ldm).
Proof.
  unfold run. revert ldm.
  induction calls as [|c calls IH]; intros ldm Hall Hun; simpl; [done|].
  inversion Hall; subst. apply IH; [done|]. by apply step_untouched.
Qed.

(** C5. Whenever a pair is under override ([forcedDown]) its reported
    state is [false], in every state an object can reach from its
    construction, whatever the real state; and from any state, after
    [ForceLinkDown] on a pair, the pair stays under override and reported
    down through every later sequence of calls that does not restore that
    pair, in particular through [UpdateRealLinkState] with [isUp = true]. *)
Theorem forcedDown_reported_false :
  (forall (calls : list Call) (a b : Z),
      forcedDown a b (run calls init) = true ->
      reportedState a b (run calls init) = false)
  /\ (forall (ldm : LinkDetectionModule) (a b : Z) (t : double)
             (calls : list Call),
        Forall (fun c => restores (MakeOrderedPair a b) c = false) calls ->
        let ldm' := run calls (fst (ForceLinkDown a b t ldm)) in
        forcedDown a b ldm' = true /\ reportedState a b ldm' = false).
Proof.
  split.
  - intros calls a b Hf. apply bool_decide_eq_true in Hf.
    pose proof (run_override_invariant calls init init_override_invariant _ Hf) as H.
    by rewrite reportedState_lookup, H.
  - intros ldm a b t calls Hall. cbv zeta.
    destruct (run_overridden _ calls _ Hall (ForceLinkDown_overridden a b t ldm))
      as [Hin Hrep].
    split.
    + by apply bool_decide_eq_true.
    + by rewrite reportedState_lookup, Hrep.
Qed.

Lemma forcedDown_reported_false_witness :
  let calls :=
    [CallUpdateRealLinkState 1 2 true (Double.of_int 18) None;
     CallUpdateRealLinkState 2 1 true (Double.of_int 19) None;
     CallRestoreNormalDetection 3 4 (Double.of_int 19)] in
  Forall (fun c => restores (MakeOrderedPair 1 2) c = false) calls
  /\ let ldm' := run calls (fst (ForceLinkDown 1 2 (Double.of_int 17) init)) in
     forcedDown 1 2 ldm' = true /\ reportedState 1 2 ldm' = false.
Proof.
  intros calls.
  assert (H : Forall (fun c => restores (MakeOrderedPair 1 2) c = false) calls)
    by (repeat constructor).
  split; [exact H|].
  exact (proj2 forcedDown_reported_false init 1 2 (Double.of_int 17) calls H).
Defined.

(** C9. For a pair that no [ForceLinkDown], [RestoreNormalDetection] or
    [UpdateRealLinkState] has named since the construction of the object,
    [GetReportedState] and [GetRealState] return [false], and they return
    the object as they found it. *)
Theorem accessors_default_false (calls : list Call) (a b : Z) :
  Forall (fun c => touches (MakeOrderedPair a b) c = false) calls ->
  let ldm := run calls init in
  GetReportedState a b ldm = (false, ldm) /\ GetRealState a b ldm = (false, ldm).
Proof.
  intros Hall. cbv zeta.
  destruct (run_untouched (MakeOrderedPair a b) calls init Hall) as [Hreal Hrep];
    [done|].
  unfold GetReportedState, GetRealState. by rewrite Hreal, Hrep.
Qed.

Lemma accessors_default_false_witness :
  let calls :=
    [CallForceLinkDown 0 1 (Double.of_int 17);
     CallUpdateRealLinkState 3 1 true (Double.of_int 18) None;
     CallGetReportedState 2 1;
     CallRestoreNormalDetection 1 0 (Double.of_int 21)] in
  Forall (fun c => touches (MakeOrderedPair 2 1) c = false) calls
  /\ GetReportedState 2 1 (run calls init) = (false, run calls init)
  /\ GetRealState 2 1 (run calls init) = (false, run calls init).
Proof.
  intros calls.
  assert (H : Forall (fun c => touches (MakeOrderedPair 2 1) c = false) calls)
    by (repeat constructor).
  split; [exact H|].
  exact (accessors_default_false calls 2 1 H).
Defined.

End LinkGate.

(** ** The masking window against the order of the pair *)

Section MaskingWindow.

Import LDM.

(** For two distinct nodes the test of the source only sees an event
    registered in the order of the query: its second disjunct compares
    [nodeA] with both arguments. *)
Lemma bld_match_distinct (a b : Z) (t : double) (event : PredictableLinkDownEvent) :
  a <> b ->
  TMM.bld_match a b t event
  = active event && (nodeA event =? a) && (nodeB event =? b)
    && Double.geb t (T1 event) && Double.leb t (T3 event).
Proof.
  intros Hab. unfold TMM.bld_match.
  replace ((nodeA event =? b) && (nodeA event =? a)) with false.
  - by rewrite orb_false_r, !andb_assoc.
  - symmetry. apply andb_false_iff.
    destruct (Z.eqb_spec (nodeA event) b) as [Hb|Hb]; [right|by left].
    apply Z.eqb_neq. congruence.
Qed.

Lemma covers_registered_order (a b : Z) (t : double)
    (event : PredictableLinkDownEvent) :
  nodeA event = a -> nodeB event = b ->
  TMM.covers a b t event = TMM.bld_match a b t event.
Proof.
  intros <- <-. unfold TMM.bld_match, TMM.covers.
  rewrite !Z.eqb_refl. simpl. done.
Qed.

(** An event registered as [(a, b)] whose window contains the time is
    seen by a query in that order. *)
Lemma IsInBldPeriod_registered_order (a b : Z) (t : double)
    (tmm : TMM.TopologyManagementModule) (event : PredictableLinkDownEvent) :
  In event (TMM.m_predictedEvents tmm) ->
  active event = true -> nodeA event = a -> nodeB event = b ->
  Double.geb t (T1 event) = true -> Double.leb t (T3 event) = true ->
  TMM.IsInBldPeriod a b t tmm = true.
Proof.
  intros Hin Hact Ha Hb Hge Hle. unfold TMM.IsInBldPeriod.
  apply existsb_exists. exists event. split; [done|].
  unfold TMM.bld_match. rewrite Hact, Ha, Hb, Hge, Hle, !Z.eqb_refl. done.
Qed.

(** In that order any number of updates, with any values, leaves every
    reported state as it was. *)
Lemma masked_in_registered_order (a b : Z) (tmm : TMM.TopologyManagementModule)
    (updates : list (bool * double)) (ldm : LinkDetectionModule) :
  Forall (fun u => TMM.IsInBldPeriod a b (snd u) tmm = true) updates ->
  m_reportedLinkStates
    (run (map (fun u => CallUpdateRealLinkState a b (fst u) (snd u) (Some tmm))
              updates) ldm)
  = m_reportedLinkStates ldm.
Proof.
  unfold run. revert ldm.
  induction updates as [|u rest IH]; intros ldm Hall; [done|].
  inversion Hall as [|? ? Hu Hrest]; subst. cbn [map fold_left step].
  rewrite IH by done.
  by destruct (UpdateRealLinkState_masked a b (fst u) (snd u) tmm ldm Hu).
Qed.

(** C6. The masking-window predicate does not resolve the pair
    order-independently: with one event registered on [(1, 2)] and the
    time inside its window, [IsInBldPeriod] answers [true] for [(1, 2)]
    and [false] for [(2, 1)]; it also answers [true] for [(1, 1)], a pair
    no event is registered on. *)
Theorem IsInBldPeriod_order_dependent :
  let tmm := TMM.AddPredictableLinkDown 1 1 2 (Double.of_int 20) TMM.init in
  let t := Double.of_int 18 in
  TMM.has_masking_window 1 2 t tmm = true
  /\ TMM.has_masking_window 2 1 t tmm = true
  /\ TMM.IsInBldPeriod 1 2 t tmm = true
  /\ TMM.IsInBldPeriod 2 1 t tmm = false
  /\ TMM.has_masking_window 1 1 t tmm = false
  /\ TMM.IsInBldPeriod 1 1 t tmm = true.
Proof. vm_compute. done. Qed.

(** C1. Inside the masking window of an event registered on [(1, 2)], an
    [UpdateRealLinkState] that names the pair as [(2, 1)] is not masked:
    the reported state of the pair goes from [false] to [true] and the
    daemon is told. *)
Theorem UpdateRealLinkState_reversed_pair_discloses :
  let tmm := TMM.AddPredictableLinkDown 1 1 2 (Double.of_int 20) TMM.init in
  let t := Double.of_int 18 in
  let '(ldm', calls) := UpdateRealLinkState 2 1 true t (Some tmm) init in
  TMM.has_masking_window 2 1 t tmm = true
  /\ reportedState 1 2 init = false
  /\ reportedState 1 2 ldm' = true
  /\ calls = [SetQuaggaLinkStateReal 2 1 true].
Proof. vm_compute. done. Qed.

End MaskingWindow.

(** ** The update buffer *)

Section UpdateBuffer.

Import RMM.

Lemma u32_succ (x : Z) : u32 (u32 (x + 1) + 1) = u32 (x + 2).
Proof.
  unfold u32. rewrite Zplus_mod_idemp_l. f_equal. lia.
Qed.

Lemma u32_add_succ (x n : Z) : u32 (u32 (x + 1) + n) = u32 (x + (1 + n)).
Proof.
  unfold u32. rewrite Zplus_mod_idemp_l. f_equal. lia.
Qed.

Lemma u32_small (x : Z) : 0 <= x < 2 ^ 32 -> u32 x = x.
Proof. intros H. unfold u32. by apply Z.mod_small. Qed.

Lemma apply_pending_calls (pending : list (Z * string)) (applied : Z) :
  snd (apply_pending pending applied) = applications pending.
Proof.
  revert applied. induction pending as [|u rest IH]; intros applied; simpl; [done|].
  specialize (IH (u32 (applied + 1))).
  destruct (apply_pending rest (u32 (applied + 1))) as [applied' calls].
  simpl in *. by rewrite IH.
Qed.

Lemma apply_pending_counter_mod (pending : list (Z * string)) (applied : Z) :
  u32 (fst (apply_pending pending applied))
  = u32 (applied + Z.of_nat (length pending)).
Proof.
  revert applied. induction pending as [|u rest IH]; intros applied.
  - simpl. f_equal. lia.
  - cbn [apply_pending length]. specialize (IH (u32 (applied + 1))).
    destruct (apply_pending rest (u32 (applied + 1))) as [applied' calls].
    cbn [fst] in *. rewrite IH, u32_add_succ. f_equal. lia.
Qed.

Lemma apply_pending_counter (pending : list (Z * string)) (applied : Z) :
  0 <= applied -> applied + Z.of_nat (length pending) < 2 ^ 32 ->
  fst (apply_pending pending applied) = applied + Z.of_nat (length pending).
Proof.
  revert applied. induction pending as [|u rest IH]; intros applied H0 Hlt.
  - simpl. lia.
  - cbn [apply_pending length] in *.
    assert (Hs : u32 (applied + 1) = applied + 1) by (apply u32_small; lia).
    specialize (IH (u32 (applied + 1))).
    destruct (apply_pending rest (u32 (applied + 1))) as [applied' calls].
    cbn [fst] in *. rewrite IH; lia.
Qed.

Lemma count_applications_app (l1 l2 : list SinkCall) :
  count_applications (l1 ++ l2) = count_applications l1 + count_applications l2.
Proof.
  unfold count_applications. rewrite List.filter_app, length_app. lia.
Qed.

Lemma count_applications_applications (updates : list (Z * string)) :
  count_applications (applications updates) = Z.of_nat (length updates).
Proof.
  unfold count_applications, applications.
  induction updates as [|u rest IH]; simpl; [done|]. lia.
Qed.

Lemma count_applications_nonneg (calls : list SinkCall) :
  0 <= count_applications calls.
Proof. unfold count_applications. lia. Qed.

Lemma EndBfuPeriod_eq (t : double) (rmm : RouteManagementModule) :
  EndBfuPeriod t rmm
  = ({| m_bfuActive := false; m_pendingUpdates := [];
        m_routeUpdatesBlocked := m_routeUpdatesBlocked rmm;
        m_routeUpdatesApplied :=
          fst (apply_pending (m_pendingUpdates rmm) (m_routeUpdatesApplied rmm)) |},
     applications (m_pendingUpdates rmm) ++ [ForceOspfConvergence]).
Proof.
  unfold EndBfuPeriod.
  rewrite <- (apply_pending_calls (m_pendingUpdates rmm) (m_routeUpdatesApplied rmm)).
  by destruct (apply_pending _ _).
Qed.

(** C10. [EndBfuPeriod] has no guard: in every state, buffering or not,
    it applies the queued entries in order, empties the queue, leaves the
    flag down and triggers the convergence; a second call right after the
    first finds the queue empty and triggers the convergence again. *)
Theorem EndBfuPeriod_unguarded (rmm : RouteManagementModule) (t t' : double) :
  let '(rmm1, calls1) := EndBfuPeriod t rmm in
  let '(rmm2, calls2) := EndBfuPeriod t' rmm1 in
  calls1 = applications (m_pendingUpdates rmm) ++ [ForceOspfConvergence]
  /\ m_pendingUpdates rmm1 = []
  /\ m_bfuActive rmm1 = false
  /\ calls2 = [ForceOspfConvergence]
  /\ rmm2 = rmm1.
Proof.
  rewrite (EndBfuPeriod_eq t rmm).
  match goal with |- context [EndBfuPeriod t' ?r] => rewrite (EndBfuPeriod_eq t' r) end.
  simpl. done.
Qed.

(** While the flag is up a submission only queues. *)
Lemma run_submissions_buffering (updates : list (Z * string)) (t : double)
    (rmm : RouteManagementModule) :
  m_bfuActive rmm = true ->
  let '(rmm', calls) := run (submissions updates t) rmm in
  calls = []
  /\ m_bfuActive rmm' = true
  /\ m_pendingUpdates rmm' = m_pendingUpdates rmm ++ updates
  /\ m_routeUpdatesApplied rmm' = m_routeUpdatesApplied rmm
  /\ u32 (m_routeUpdatesBlocked rmm')
     = u32 (m_routeUpdatesBlocked rmm + Z.of_nat (length updates))
  /\ (0 <= m_routeUpdatesBlocked rmm ->
      m_routeUpdatesBlocked rmm + Z.of_nat (length updates) < 2 ^ 32 ->
      m_routeUpdatesBlocked rmm'
      = m_routeUpdatesBlocked rmm + Z.of_nat (length updates)).
Proof.
  revert rmm. induction updates as [|u rest IH]; intros rmm Hact.
  - simpl. rewrite app_nil_r, Z.add_0_r. by repeat split.
  - destruct u as [node u].
    cbn [submissions map run step fst snd]. unfold OnNewRoutingTable. rewrite Hact.
    match goal with |- context [run _ ?r] => specialize (IH r eq_refl) end.
    fold (submissions rest t) in *.
    destruct (run (submissions rest t) _) as [rmm' calls].
    cbn [m_pendingUpdates m_routeUpdatesApplied m_routeUpdatesBlocked] in IH.
    destruct IH as (-> & Ha & Hp & Hap & Hb & Hbs).
    cbn [length] in *. repeat split; try done.
    + rewrite Hp, <- app_assoc. done.
    + rewrite Hb, u32_add_succ. f_equal. lia.
    + intros H0 Hlt.
      rewrite u32_small in Hbs by lia. rewrite Hbs; lia.
Qed.

(** Each call moves the applied counter by the number of applications it
    makes, as long as the 32 bits hold the sum. *)
Lemma step_applied (c : Call) (rmm : RouteManagementModule) :
  0 <= m_routeUpdatesApplied rmm ->
  m_routeUpdatesApplied rmm + count_applications (snd (step c rmm)) < 2 ^ 32 ->
  m_routeUpdatesApplied (fst (step c rmm))
  = m_routeUpdatesApplied rmm + count_applications (snd (step c rmm)).
Proof.
  intros H0. destruct c as [t|t|node u t]; cbn [step].
  - simpl. unfold count_applications. simpl. lia.
  - rewrite EndBfuPeriod_eq. cbn [fst snd m_routeUpdatesApplied].
    rewrite count_applications_app, count_applications_applications.
    change (count_applications [ForceOspfConvergence]) with 0.
    rewrite Z.add_0_r. intros Hlt. by apply apply_pending_counter.
  - unfold OnNewRoutingTable. destruct (m_bfuActive rmm); simpl.
    + unfold count_applications. simpl. lia.
    + unfold count_applications. simpl. intros Hlt. apply u32_small. lia.
Qed.

Lemma run_applied (calls : list Call) (rmm : RouteManagementModule) :
  0 <= m_routeUpdatesApplied rmm ->
  m_routeUpdatesApplied rmm + count_applications (snd (run calls rmm)) < 2 ^ 32 ->
  m_routeUpdatesApplied (fst (run calls rmm))
  = m_routeUpdatesApplied rmm + count_applications (snd (run calls rmm)).
Proof.
  revert rmm. induction calls as [|c rest IH]; intros rmm H0.
  - simpl. unfold count_applications. simpl. lia.
  - cbn [run]. pose proof (step_applied c rmm H0) as Hstep.
    destruct (step c rmm) as [rmm1 out1]. cbn [fst snd] in Hstep.
    specialize (IH rmm1).
    destruct (run rest rmm1) as [rmm2 out2]. cbn [fst snd] in *.
    rewrite count_applications_app.
    pose proof (count_applications_nonneg out1).
    pose proof (count_applications_nonneg out2).
    intros Hlt. rewrite IH; lia.
Qed.

(** While the flag is down a submission is applied at once. *)
Lemma run_submissions_idle (updates : list (Z * string)) (t : double)
    (rmm : RouteManagementModule) :
  m_bfuActive rmm = false ->
  let '(rmm', calls) := run (submissions updates t) rmm in
  calls = applications updates /\ m_bfuActive rmm' = false.
Proof.
  revert rmm. induction updates as [|u rest IH]; intros rmm Hact.
  - simpl. done.
  - destruct u as [node u].
    cbn [submissions map run step fst snd]. unfold OnNewRoutingTable. rewrite Hact.
    match goal with |- context [run _ ?r] => specialize (IH r eq_refl) end.
    fold (submissions rest t) in *.
    destruct (run (submissions rest t) _) as [rmm' calls].
    destruct IH as [-> Ha]. done.
Qed.

(** Out of a buffering session the queue is empty, in every state an
    object can reach from its construction. *)
Lemma step_idle_queue_empty (c : Call) (rmm : RouteManagementModule) :
  (m_bfuActive rmm = false -> m_pendingUpdates rmm = []) ->
  m_bfuActive (fst (step c rmm)) = false ->
  m_pendingUpdates (fst (step c rmm)) = [].
Proof.
  intros Hinv. destruct c as [t|t|node u t]; cbn [step fst].
  - done.
  - by rewrite EndBfuPeriod_eq.
  - unfold OnNewRoutingTable. destruct (m_bfuActive rmm) eqn:E; simpl; [done|].
    intros _. by apply Hinv.
Qed.

Lemma run_idle_queue_empty (calls : list Call) (rmm : RouteManagementModule) :
  (m_bfuActive rmm = false -> m_pendingUpdates rmm = []) ->
  m_bfuActive (fst (run calls rmm)) = false ->
  m_pendingUpdates (fst (run calls rmm)) = [].
Proof.
  revert rmm. induction calls as [|c rest IH]; intros rmm Hinv; [done|].
  cbn [run]. pose proof (step_idle_queue_empty c rmm Hinv) as Hstep.
  destruct (step c rmm) as [rmm1 out1]. specialize (IH rmm1 Hstep).
  destruct (run rest rmm1) as [rmm2 out2]. done.
Qed.

(** C2, as the code has it. Between [StartBfuPeriod] and [EndBfuPeriod]
    no submitted update reaches the daemon; [EndBfuPeriod] then applies
    what was queued before, followed by each submitted update once and in
    the order of submission, and triggers the convergence. The blocked
    counter is never reset: at the flush it is its value at the start plus
    the number of updates submitted since (modulo [2^32]), which is the
    length of the queue in the first buffering session of an object. The
    applied counter moves by the number of applications made, so it does
    not decrease as long as 32 bits hold it. *)
Theorem buffered_updates_flushed_once :
  (forall (rmm : RouteManagementModule) (updates : list (Z * string))
          (t1 t2 t3 : double),
      let rmm1 := StartBfuPeriod t1 rmm in
      let '(rmm2, before) := run (submissions updates t2) rmm1 in
      let '(rmm3, flushed) := EndBfuPeriod t3 rmm2 in
      before = []
      /\ m_pendingUpdates rmm2 = m_pendingUpdates rmm ++ updates
      /\ flushed = applications (m_pendingUpdates rmm) ++ applications updates
                   ++ [ForceOspfConvergence]
      /\ m_pendingUpdates rmm3 = []
      /\ u32 (m_routeUpdatesBlocked rmm2)
         = u32 (m_routeUpdatesBlocked rmm + Z.of_nat (length updates)))
  /\ (forall (updates : list (Z * string)) (t1 t2 : double),
        Z.of_nat (length updates) < 2 ^ 32 ->
        let rmm2 := fst (run (submissions updates t2) (StartBfuPeriod t1 init)) in
        m_pendingUpdates rmm2 = updates
        /\ m_routeUpdatesBlocked rmm2 = Z.of_nat (length (m_pendingUpdates rmm2)))
  /\ (forall (calls : list Call) (rmm : RouteManagementModule),
        0 <= m_routeUpdatesApplied rmm ->
        m_routeUpdatesApplied rmm + count_applications (snd (run calls rmm)) < 2 ^ 32 ->
        m_routeUpdatesApplied rmm <= m_routeUpdatesApplied (fst (run calls rmm))
        /\ m_routeUpdatesApplied (fst (run calls rmm))
           = m_routeUpdatesApplied rmm + count_applications (snd (run calls rmm))).
Proof.
  split; [|split].
  - intros rmm updates t1 t2 t3. cbv zeta.
    pose proof (run_submissions_buffering updates t2 (StartBfuPeriod t1 rmm) eq_refl) as H.
    destruct (run (submissions updates t2) (StartBfuPeriod t1 rmm)) as [rmm2 before].
    cbn [StartBfuPeriod m_pendingUpdates m_routeUpdatesBlocked] in H.
    destruct H as (-> & Ha & Hp & Hap & Hb & _).
    rewrite EndBfuPeriod_eq, Hp. unfold applications at 1.
    rewrite map_app. fold (applications (m_pendingUpdates rmm)) (applications updates).
    rewrite <- app_assoc. done.
  - intros updates t1 t2 Hlen. cbv zeta.
    pose proof (run_submissions_buffering updates t2 (StartBfuPeriod t1 init) eq_refl) as H.
    destruct (run (submissions updates t2) (StartBfuPeriod t1 init)) as [rmm2 before].
    cbn [StartBfuPeriod init m_pendingUpdates m_routeUpdatesBlocked fst] in *.
    destruct H as (_ & _ & Hp & _ & _ & Hb).
    rewrite app_nil_l in Hp. rewrite Hp. split; [done|]. rewrite Hb; lia.
  - intros calls rmm H0 Hlt. rewrite (run_applied calls rmm H0 Hlt).
    pose proof (count_applications_nonneg (snd (run calls rmm))). lia.
Qed.

Lemma buffered_updates_flushed_once_witness :
  let updates := [(0, "ADD 10.1.0.0/16 10.0.0.1 1"); (1, "DEL 10.0.0.0/16 10.0.1.1")] in
  let t := Double.of_int 18 in
  let calls :=
    [CallOnNewRoutingTable 0 "ADD 10.1.0.0/16 10.0.0.1 1" t;
     CallStartBfuPeriod t;
     CallOnNewRoutingTable 1 "DEL 10.0.0.0/16 10.0.1.1" t;
     CallEndBfuPeriod t] in
  (Z.of_nat (length updates) < 2 ^ 32
   /\ let rmm2 := fst (run (submissions updates t) (StartBfuPeriod t init)) in
      m_pendingUpdates rmm2 = updates
      /\ m_routeUpdatesBlocked rmm2 = Z.of_nat (length (m_pendingUpdates rmm2)))
  /\ (0 <= m_routeUpdatesApplied init
      /\ m_routeUpdatesApplied init + count_applications (snd (run calls init)) < 2 ^ 32
      /\ m_routeUpdatesApplied init <= m_routeUpdatesApplied (fst (run calls init))
      /\ m_routeUpdatesApplied (fst (run calls init))
         = m_routeUpdatesApplied init + count_applications (snd (run calls init))).
Proof.
  intros updates t calls.
  assert (H1 : Z.of_nat (length updates) < 2 ^ 32) by (vm_compute; reflexivity).
  assert (H2 : 0 <= m_routeUpdatesApplied init) by (vm_compute; discriminate).
  assert (H3 : m_routeUpdatesApplied init
               + count_applications (snd (run calls init)) < 2 ^ 32)
    by (vm_compute; reflexivity).
  split.
  - split; [exact H1|].
    exact (proj1 (proj2 buffered_updates_flushed_once) updates t t H1).
  - split; [exact H2|]. split; [exact H3|].
    exact (proj2 (proj2 buffered_updates_flushed_once) calls init H2 H3).
Defined.

(** The two halves of C2 that the code does not have. In the second
    buffering session of an object the blocked counter is 2 when the queue
    holds one update; and the applied counter, at [2^32 - 1] after as many
    immediate applications, is back to 0 after the next one. *)
Lemma blocked_counter_is_cumulative :
  (let t := Double.of_int 18 in
   let rmm :=
     fst (run [CallStartBfuPeriod t;
               CallOnNewRoutingTable 0 "ADD 10.1.0.0/16 10.0.0.1 1" t;
               CallEndBfuPeriod t;
               CallStartBfuPeriod t;
               CallOnNewRoutingTable 1 "DEL 10.0.0.0/16 10.0.1.1" t] init) in
   m_bfuActive rmm = true
   /\ m_routeUpdatesBlocked rmm = 2
   /\ length (m_pendingUpdates rmm) = 1%nat)
  /\ (let t := Double.of_int 18 in
      let updates := repeat (0, "ADD 10.1.0.0/16 10.0.0.1 1") (Z.to_nat (2 ^ 32 - 1)) in
      let rmm := fst (run (submissions updates t) init) in
      m_routeUpdatesApplied rmm = 2 ^ 32 - 1
      /\ m_routeUpdatesApplied
           (fst (OnNewRoutingTable 0 "ADD 10.1.0.0/16 10.0.0.1 1" t rmm)) = 0).
Proof.
  split; [vm_compute; done|].
  intros t. remember (Z.to_nat (2 ^ 32 - 1)) as n eqn:Hn.
  assert (Hzn : Z.of_nat n = 2 ^ 32 - 1) by (subst n; apply Z2Nat.id; done).
  clear Hn. cbv zeta.
  set (updates := repeat (0, "ADD 10.1.0.0/16 10.0.0.1 1"%string) n).
  pose proof (run_submissions_idle updates t init eq_refl) as Hidle.
  pose proof (run_applied (submissions updates t) init) as Happ.
  destruct (run (submissions updates t) init) as [rmm calls].
  destruct Hidle as [-> Hact]. cbn [fst snd] in *.
  rewrite count_applications_applications in Happ.
  unfold updates in Happ. rewrite repeat_length, Hzn in Happ.
  change (m_routeUpdatesApplied init) with 0 in Happ.
  assert (Hval : m_routeUpdatesApplied rmm = 2 ^ 32 - 1) by (rewrite Happ; lia).
  split; [exact Hval|].
  unfold OnNewRoutingTable. rewrite Hact. cbn [fst m_routeUpdatesApplied].
  rewrite Hval. reflexivity.
Qed.

End UpdateBuffer.

(** ** The controller *)

Section Orchestrator.

Import Controller.

Lemma ValidateNodeIndices_spec (totalNodes a b : Z) :
  ValidateNodeIndices totalNodes a b = true
  <-> 0 <= a < totalNodes /\ 0 <= b < totalNodes /\ a <> b.
Proof.
  unfold ValidateNodeIndices.
  destruct (Z.ltb_spec a 0), (Z.ltb_spec b 0), (Z.leb_spec totalNodes a),
    (Z.leb_spec totalNodes b), (Z.eqb_spec a b); simpl;
    split; try discriminate; try lia; done.
Qed.

(** The registration entry point validates before it touches anything. *)
Lemma SchedulePredictableLinkDown_rejects (totalNodes lid a b : Z)
    (eventTime : double) (c : SatnetOspfController) :
  ValidateNodeIndices totalNodes a b = false ->
  SchedulePredictableLinkDown totalNodes lid a b eventTime c = (c, []).
Proof.
  intros H. unfold SchedulePredictableLinkDown. by rewrite H.
Qed.

(** C8. The observation entry point does not validate: on a controller
    just constructed over three nodes, [OnLinkStateChange (0, 0, true)],
    whose two identifiers are equal, records the pair as up in both maps
    of the link gate, applies a route update on node 0 and counts a
    modification. *)
Theorem OnLinkStateChange_no_validation :
  let t := Double.of_int 1 in
  let '(c, calls) := OnLinkStateChange 3 0 0 true t init in
  ValidateNodeIndices 3 0 0 = false
  /\ SchedulePredictableLinkDown 3 1 0 0 t init = (init, [])
  /\ LDM.realState 0 0 (m_ldm init) = false
  /\ LDM.realState 0 0 (m_ldm c) = true
  /\ LDM.reportedState 0 0 (m_ldm c) = true
  /\ RMM.m_routeUpdatesApplied (m_rmm c) = 1
  /\ m_totalQuaggaModifications c = 1
  /\ calls = [SetQuaggaLinkStateReal 0 0 true;
              ApplyRouteUpdateReal 0 "ADD 10.0.0.0/16 10.0.0.1 1"].
Proof. vm_compute. done. Qed.

Lemma ExecuteT3Actions_eq (a b : Z) (t : double) (c : SatnetOspfController) :
  ExecuteT3Actions a b t c
  = ({| m_tmm := m_tmm c;
        m_ldm := fst (LDM.RestoreNormalDetection a b t (m_ldm c));
        m_rmm := m_rmm c;
        m_analyzer := m_analyzer c;
        m_eventCounter := m_eventCounter c;
        m_lastEventTime := m_lastEventTime c;
        m_totalQuaggaModifications := u32 (m_totalQuaggaModifications c + 2) |},
     snd (LDM.RestoreNormalDetection a b t (m_ldm c))).
Proof. reflexivity. Qed.

Lemma RestoreNormalDetection_reported_real (a b : Z) (t : double)
    (ldm : LDM.LinkDetectionModule) :
  let ldm' := fst (LDM.RestoreNormalDetection a b t ldm) in
  LDM.forcedDown a b ldm' = false
  /\ LDM.reportedState a b ldm' = LDM.realState a b ldm
  /\ LDM.realState a b ldm' = LDM.realState a b ldm.
Proof.
  cbv zeta. unfold LDM.forcedDown, LDM.reportedState, LDM.realState,
    LDM.GetReportedState, LDM.GetRealState, LDM.RestoreNormalDetection.
  cbn [fst LDM.m_forcedDownLinks LDM.m_reportedLinkStates LDM.m_realLinkStates].
  rewrite !lookup_insert_eq. split; [|split].
  - apply bool_decide_eq_false. intros Hin.
    apply elem_of_difference in Hin as [_ Hn]. apply Hn. by apply elem_of_singleton.
  - by destruct (LDM.m_realLinkStates ldm !! LDM.MakeOrderedPair a b).
  - by destruct (LDM.m_realLinkStates ldm !! LDM.MakeOrderedPair a b).
Qed.

(** C7, as the code has it. When T3 fires the controller restores normal
    detection for the pair: the override is lifted, the reported state
    becomes the last real state, the daemon is told that state, two
    modifications are counted, and the analyzer is left as it was. The
    measurement of the event is completed when T0 fires: an RFP event
    started for the pair is accumulated into the RFP metrics with the
    modification count of that moment and removed from the active
    events. *)
Theorem T3_restores_T0_completes :
  (forall (a b : Z) (t : double) (c : SatnetOspfController),
      let '(c', calls) := ExecuteT3Actions a b t c in
      m_ldm c' = fst (LDM.RestoreNormalDetection a b t (m_ldm c))
      /\ LDM.forcedDown a b (m_ldm c') = false
      /\ LDM.reportedState a b (m_ldm c') = LDM.realState a b (m_ldm c)
      /\ calls = [SetQuaggaLinkStateReal a b (LDM.realState a b (m_ldm c))]
      /\ m_totalQuaggaModifications c' = u32 (m_totalQuaggaModifications c + 2)
      /\ m_analyzer c' = m_analyzer c
      /\ m_tmm c' = m_tmm c /\ m_rmm c' = m_rmm c)
  /\ (forall (a b : Z) (t simNow : double) (c : SatnetOspfController)
             (event : Analyzer.LinkEvent),
        Analyzer.m_activeEvents (m_analyzer c) !! Analyzer.MakeLinkKey a b
        = Some event ->
        Analyzer.isRfp event = true ->
        let '(c', calls) := ExecuteT0Actions a b t simNow c in
        Analyzer.m_activeEvents (m_analyzer c') !! Analyzer.MakeLinkKey a b = None
        /\ Analyzer.linkDownEvents (Analyzer.m_rfp (m_analyzer c'))
           = u32 (Analyzer.linkDownEvents (Analyzer.m_rfp (m_analyzer c)) + 1)
        /\ Analyzer.realQuaggaModifications (Analyzer.m_rfp (m_analyzer c'))
           = u32 (Analyzer.realQuaggaModifications (Analyzer.m_rfp (m_analyzer c))
                  + m_totalQuaggaModifications c)
        /\ Analyzer.m_standardOspf (m_analyzer c')
           = Analyzer.m_standardOspf (m_analyzer c)
        /\ m_ldm c' = m_ldm c
        /\ calls = []).
Proof.
  split.
  - intros a b t c. rewrite ExecuteT3Actions_eq.
    cbn [m_ldm m_totalQuaggaModifications m_analyzer m_tmm m_rmm].
    destruct (RestoreNormalDetection_reported_real a b t (m_ldm c)) as (Hf & Hr & _).
    repeat split; try done.
    all: unfold LDM.RestoreNormalDetection, LDM.realState, LDM.GetRealState;
      cbn [fst snd];
      by destruct (LDM.m_realLinkStates (m_ldm c) !! LDM.MakeOrderedPair a b).
  - intros a b t simNow c event Hev Hrfp.
    unfold ExecuteT0Actions. cbn [m_analyzer m_ldm].
    unfold Analyzer.RecordRouteConvergence. rewrite Hev.
    unfold Analyzer.CompleteLinkEvent.
    cbn [Analyzer.m_activeEvents]. rewrite lookup_insert_eq.
    cbn [Analyzer.isRfp Analyzer.m_activeEvents Analyzer.m_rfp
         Analyzer.m_standardOspf]. rewrite Hrfp.
    cbn [Analyzer.accumulate Analyzer.linkDownEvents
         Analyzer.realQuaggaModifications].
    rewrite lookup_delete_eq. done.
Qed.

Lemma T3_restores_T0_completes_witness :
  let t1 := Double.of_int 17 in
  let t0 := Double.of_int 20 in
  let c := fst (ExecuteT1Actions 0 1 t1 t1 init) in
  let event :=
    {| Analyzer.linkDownTime := Analyzer.milliseconds t1;
       Analyzer.routeUpdateTime := Analyzer.milliseconds t1;
       Analyzer.detectionTime := Double.of_int 0;
       Analyzer.isRfp := true;
       Analyzer.packetsLostDuringOutage := 0;
       Analyzer.completed := false |} in
  Analyzer.m_activeEvents (m_analyzer c) !! Analyzer.MakeLinkKey 0 1 = Some event
  /\ Analyzer.isRfp event = true
  /\ let '(c', calls) := ExecuteT0Actions 0 1 t0 t0 c in
     Analyzer.m_activeEvents (m_analyzer c') !! Analyzer.MakeLinkKey 0 1 = None
     /\ Analyzer.linkDownEvents (Analyzer.m_rfp (m_analyzer c'))
        = u32 (Analyzer.linkDownEvents (Analyzer.m_rfp (m_analyzer c)) + 1)
     /\ Analyzer.realQuaggaModifications (Analyzer.m_rfp (m_analyzer c'))
        = u32 (Analyzer.realQuaggaModifications (Analyzer.m_rfp (m_analyzer c))
               + m_totalQuaggaModifications c)
     /\ Analyzer.m_standardOspf (m_analyzer c')
        = Analyzer.m_standardOspf (m_analyzer c)
     /\ m_ldm c' = m_ldm c
     /\ calls = [].
Proof.
  intros t1 t0 c event.
  assert (H1 : Analyzer.m_activeEvents (m_analyzer c) !! Analyzer.MakeLinkKey 0 1
               = Some event) by (vm_compute; reflexivity).
  assert (H2 : Analyzer.isRfp event = true) by reflexivity.
  split; [exact H1|]. split; [exact H2|].
  exact (proj2 T3_restores_T0_completes 0 1 t0 t0 c event H1 H2).
Defined.

(** The measurement is over before T3. A failure at 20 s is registered on
    the pair (0, 1) of a three-node topology and its four actions run at
    their markers: the RFP metrics count no event after T2, one event
    after T0, when the event has left the active ones, and T3 hands back
    the analyzer it was given. *)
Lemma measurement_completed_at_T0 :
  let '(c0, timeline) :=
    SchedulePredictableLinkDown 3 1 0 1 (Double.of_int 20) init in
  let c1 := fst (ExecuteT1Actions 0 1 (Double.of_int 17) (Double.of_int 17) c0) in
  let c2 := fst (ExecuteT2Actions 0 1 (Double.lit 195 10) c1) in
  let c3 := fst (ExecuteT0Actions 0 1 (Double.of_int 20) (Double.of_int 20) c2) in
  let c4 := fst (ExecuteT3Actions 0 1 (Double.lit 205 10) c3) in
  map (fun s => (action s, delay s)) timeline
  = [(ExecuteT1, Double.of_int 17); (ExecuteT2, Double.lit 195 10);
     (ExecuteT0, Double.of_int 20); (ExecuteT3, Double.lit 205 10)]
  /\ Analyzer.linkDownEvents (Analyzer.m_rfp (m_analyzer c2)) = 0
  /\ is_Some (Analyzer.m_activeEvents (m_analyzer c2) !! Analyzer.MakeLinkKey 0 1)
  /\ Analyzer.linkDownEvents (Analyzer.m_rfp (m_analyzer c3)) = 1
  /\ Analyzer.m_activeEvents (m_analyzer c3) !! Analyzer.MakeLinkKey 0 1 = None
  /\ m_analyzer c4 = m_analyzer c3.
Proof. vm_compute. repeat split; eauto. Qed.

End Orchestrator.

(** ** The link gate and the daemon *)

Section DaemonView.

Import LDM.

Lemma last_told_app (link : Z * Z) (out1 out2 : list SinkCall) :
  last_told link (out1 ++ out2)
  = match last_told link out2 with
    | Some v => Some v
    | None => last_told link out1
    end.
Proof.
  induction out1 as [|c out1 IH]; simpl.
  - by destruct (last_told link out2).
  - rewrite IH. by destruct (last_told link out2).
Qed.

Lemma exec_reported (link : Z * Z) (c : Call) (ldm : LinkDetectionModule) :
  m_reportedLinkStates (fst (exec c ldm)) !! link
  = match last_told link (snd (exec c ldm)) with
    | Some v => Some v
    | None => m_reportedLinkStates ldm !! link
    end.
Proof.
  destruct c as [a b t|a b t|a b isUp t tmm|a b|a b]; cbn [exec].
  - cbn [ForceLinkDown fst snd m_reportedLinkStates last_told told].
    destruct (decide (MakeOrderedPair a b = link)) as [->|Hne].
    + by rewrite lookup_insert_eq.
    + by rewrite lookup_insert_ne.
  - cbn [RestoreNormalDetection fst snd m_reportedLinkStates last_told told].
    destruct (decide (MakeOrderedPair a b = link)) as [->|Hne].
    + by rewrite lookup_insert_eq.
    + by rewrite lookup_insert_ne.
  - unfold UpdateRealLinkState. cbv zeta.
    destruct (decide (MakeOrderedPair a b ∈ m_forcedDownLinks ldm)); [done|].
    destruct (match tmm with Some t0 => TMM.IsInBldPeriod a b t t0 | None => false end);
      [done|].
    destruct (negb (Bool.eqb isUp _)); [|done].
    cbn [fst snd m_reportedLinkStates last_told told].
    destruct (decide (MakeOrderedPair a b = link)) as [->|Hne].
    + by rewrite lookup_insert_eq.
    + by rewrite lookup_insert_ne.
  - done.
  - done.
Qed.

Lemma trace_reported (link : Z * Z) (calls : list Call) (ldm : LinkDetectionModule) :
  m_reportedLinkStates (fst (trace calls ldm)) !! link
  = match last_told link (snd (trace calls ldm)) with
    | Some v => Some v
    | None => m_reportedLinkStates ldm !! link
    end.
Proof.
  revert ldm. induction calls as [|c rest IH]; intros ldm; [done|].
  cbn [trace]. pose proof (exec_reported link c ldm) as Hc.
  destruct (exec c ldm) as [ldm1 out1]. specialize (IH ldm1).
  destruct (trace rest ldm1) as [ldm2 out2]. cbn [fst snd] in *.
  rewrite last_told_app, IH, Hc. by destruct (last_told link out2).
Qed.

(** The state of a link that the module reports is the last state it
    sent to the routing daemon for that link, in either order of the two
    identifiers, and down if it never sent one. *)
Theorem reported_is_last_told (calls : list Call) (a b : Z) :
  fst (GetReportedState a b (fst (trace calls init)))
  = default false (last_told (MakeOrderedPair a b) (snd (trace calls init))).
Proof.
  cbn [GetReportedState fst].
  rewrite (trace_reported (MakeOrderedPair a b) calls init).
  destruct (last_told _ _); [done|]. cbn [init m_reportedLinkStates]. by rewrite lookup_empty.
Qed.

Lemma step_real (link : Z * Z) (c : Call) (ldm : LinkDetectionModule) :
  default false (m_realLinkStates (step ldm c) !! link)
  = match observed link c with
    | Some v => v
    | None => default false (m_realLinkStates ldm !! link)
    end.
Proof.
  destruct c as [a b t|a b t|a b isUp t tmm|a b|a b]; cbn [step observed]; try done.
  - cbn [RestoreNormalDetection fst m_realLinkStates].
    destruct (decide (MakeOrderedPair a b = link)) as [->|Hne].
    + by rewrite lookup_insert_eq.
    + by rewrite lookup_insert_ne.
  - assert (Hreal : m_realLinkStates (fst (UpdateRealLinkState a b isUp t tmm ldm))
                    = <[MakeOrderedPair a b := isUp]> (m_realLinkStates ldm)).
    { unfold UpdateRealLinkState. cbv zeta. by repeat case_match. }
    rewrite Hreal.
    destruct (decide (MakeOrderedPair a b = link)) as [->|Hne].
    + by rewrite lookup_insert_eq.
    + by rewrite lookup_insert_ne.
Qed.

Lemma run_real (link : Z * Z) (calls : list Call) (ldm : LinkDetectionModule) :
  default false (m_realLinkStates (run calls ldm) !! link)
  = match last_observed link calls with
    | Some v => v
    | None => default false (m_realLinkStates ldm !! link)
    end.
Proof.
  unfold run. revert ldm. induction calls as [|c rest IH]; intros ldm; [done|].
  cbn [fold_left last_observed]. rewrite IH, step_real.
  by destruct (last_observed link rest).
Qed.

(** Masking loses no observation: the real state of a link is the state
    of the last [UpdateRealLinkState] on the pair, whether or not the
    update was disclosed, and down if there was none. *)
Theorem real_is_last_observed (calls : list Call) (a b : Z) :
  fst (GetRealState a b (run calls init))
  = default false (last_observed (MakeOrderedPair a b) calls).
Proof.
  pose proof (run_real (MakeOrderedPair a b) calls init) as H.
  cbn [GetRealState fst].
  transitivity (default false (m_realLinkStates (run calls init) !! MakeOrderedPair a b)).
  { by destruct (_ !! _). }
  rewrite H. destruct (last_observed _ _); [done|].
  cbn [init m_realLinkStates]. by rewrite lookup_empty.
Qed.

End DaemonView.

(** ** Conservation of the route updates *)

Section Conservation.

Import RMM.

Lemma applied_app (out1 out2 : list SinkCall) :
  applied (out1 ++ out2) = applied out1 ++ applied out2.
Proof. unfold applied. apply omap_app. Qed.

Lemma applied_applications (updates : list (Z * string)) :
  applied (applications updates) = updates.
Proof.
  induction updates as [|[node u] rest IH]; [done|].
  cbn. f_equal. exact IH.
Qed.

Lemma step_conserved (c : Call) (rmm : RouteManagementModule) :
  (m_bfuActive rmm = false -> m_pendingUpdates rmm = []) ->
  applied (snd (step c rmm)) ++ m_pendingUpdates (fst (step c rmm))
  = m_pendingUpdates rmm ++ submitted [c].
Proof.
  intros Hinv. destruct c as [t|t|node u t]; cbn [step fst snd submitted omap].
  - cbn. by rewrite app_nil_r.
  - rewrite EndBfuPeriod_eq. cbn [fst snd m_pendingUpdates].
    rewrite applied_app, applied_applications. cbn. by rewrite !app_nil_r.
  - unfold OnNewRoutingTable. destruct (m_bfuActive rmm) eqn:E; cbn.
    + done.
    + by rewrite (Hinv eq_refl).
Qed.

Lemma submitted_cons (c : Call) (calls : list Call) :
  submitted (c :: calls) = submitted [c] ++ submitted calls.
Proof. unfold submitted. cbn. by destruct c. Qed.

Lemma run_conserved (calls : list Call) (rmm : RouteManagementModule) :
  (m_bfuActive rmm = false -> m_pendingUpdates rmm = []) ->
  applied (snd (run calls rmm)) ++ m_pendingUpdates (fst (run calls rmm))
  = m_pendingUpdates rmm ++ submitted calls.
Proof.
  revert rmm. induction calls as [|c rest IH]; intros rmm Hinv.
  - cbn. by rewrite app_nil_r.
  - cbn [run]. pose proof (step_conserved c rmm Hinv) as Hc.
    pose proof (step_idle_queue_empty c rmm Hinv) as Hq.
    destruct (step c rmm) as [rmm1 out1]. cbn [fst snd] in *.
    specialize (IH rmm1 Hq).
    destruct (run rest rmm1) as [rmm2 out2]. cbn [fst snd] in *.
    rewrite applied_app, <- app_assoc, IH, app_assoc, Hc, <- app_assoc.
    by rewrite <- submitted_cons.
Qed.

Lemma u32_idem (x : Z) : u32 (u32 x) = u32 x.
Proof. unfold u32. apply Z.mod_mod. lia. Qed.

Lemma u32_add_l (x y : Z) : u32 (u32 x + y) = u32 (x + y).
Proof. unfold u32. by rewrite Z.add_mod_idemp_l by lia. Qed.

Lemma apply_pending_u32 (pending : list (Z * string)) (n : Z) :
  fst (apply_pending pending (u32 n)) = u32 (n + Z.of_nat (length pending)).
Proof.
  revert n. induction pending as [|u rest IH]; intros n.
  - cbn. rewrite Z.add_0_r. done.
  - cbn [apply_pending length]. rewrite u32_add_l.
    specialize (IH (n + 1)).
    destruct (apply_pending rest (u32 (n + 1))) as [applied' calls].
    cbn [fst] in *. rewrite IH. f_equal. lia.
Qed.

Lemma step_applied_counter (c : Call) (rmm : RouteManagementModule) (n : Z) :
  m_routeUpdatesApplied rmm = u32 n ->
  m_routeUpdatesApplied (fst (step c rmm))
  = u32 (n + Z.of_nat (length (applied (snd (step c rmm))))).
Proof.
  intros Hn. destruct c as [t|t|node u t]; cbn [step fst snd].
  - cbn. by rewrite Z.add_0_r.
  - rewrite EndBfuPeriod_eq. cbn [fst snd m_routeUpdatesApplied].
    rewrite applied_app, applied_applications. cbn [applied omap]. rewrite app_nil_r.
    rewrite Hn. apply apply_pending_u32.
  - unfold OnNewRoutingTable. destruct (m_bfuActive rmm); cbn.
    + by rewrite Z.add_0_r.
    + by rewrite Hn, u32_add_l.
Qed.

Lemma run_applied_counter (calls : list Call) (rmm : RouteManagementModule) (n : Z) :
  m_routeUpdatesApplied rmm = u32 n ->
  m_routeUpdatesApplied (fst (run calls rmm))
  = u32 (n + Z.of_nat (length (applied (snd (run calls rmm))))).
Proof.
  revert rmm n. induction calls as [|c rest IH]; intros rmm n Hn.
  - cbn. by rewrite Z.add_0_r.
  - cbn [run]. pose proof (step_applied_counter c rmm n Hn) as Hc.
    destruct (step c rmm) as [rmm1 out1]. cbn [fst snd] in *.
    specialize (IH rmm1 _ Hc).
    destruct (run rest rmm1) as [rmm2 out2]. cbn [fst snd] in *.
    rewrite IH, applied_app, length_app. f_equal. lia.
Qed.

(** No update is lost, duplicated or reordered, over any history of a
    module: the updates applied so far followed by the updates still
    queued are the updates submitted, in the order of submission. *)
Theorem updates_conserved (calls : list Call) :
  applied (snd (run calls init)) ++ m_pendingUpdates (fst (run calls init))
  = submitted calls.
Proof. by rewrite run_conserved. Qed.

(** The applied counter is the number of applications made on the daemon
    since the construction, modulo [2^32], and with the length of the
    queue it accounts for every submission. *)
Theorem applied_counter_counts (calls : list Call) :
  let rmm := fst (run calls init) in
  let out := snd (run calls init) in
  GetAppliedUpdatesCount rmm = u32 (Z.of_nat (length (applied out)))
  /\ u32 (GetAppliedUpdatesCount rmm + Z.of_nat (length (m_pendingUpdates rmm)))
     = u32 (Z.of_nat (length (submitted calls))).
Proof.
  cbv zeta. unfold GetAppliedUpdatesCount.
  pose proof (run_applied_counter calls init 0 eq_refl) as H.
  rewrite Z.add_0_l in H. split; [exact H|].
  rewrite H, u32_add_l, <- Nat2Z.inj_add, <- length_app.
  rewrite run_conserved; done.
Qed.

End Conservation.

(** ** The measurements of the analyzer *)

Section Measurement.

Import Analyzer.

Lemma sub_self (x : double) :
  Double.is_finite x = true -> Double.sub x x = S754_zero false.
Proof.
  destruct x as [s| | |s m e]; try discriminate; intros _.
  - by destruct s.
  - unfold Double.sub. cbn [SFsub]. cbv zeta. by rewrite Z.sub_diag.
Qed.

Lemma of_int_positive (n : Z) : 0 < n -> Double.signed false (Double.of_int n).
Proof.
  intros Hn. destruct n as [|p|p]; try lia.
  unfold Double.of_int. cbn [binary_normalize].
  apply binary_round_normal. pose proof (Pos2Z.is_pos (digits2_pos p)). lia.
Qed.

Lemma average_zero (events : Z) :
  average (Double.of_int 0) events = Double.of_int 0.
Proof.
  unfold average. destruct (0 <? events) eqn:E; [|done].
  apply Z.ltb_lt in E. pose proof (of_int_positive events E) as Hs.
  destruct (Double.of_int events) as [| s| |s m e]; cbn [Double.signed] in Hs; try done.
  - by subst s.
  - destruct Hs as [-> _]. done.
Qed.

Lemma accumulate_zero (m : Metrics) (lost mods : Z) :
  routeOutageTotal m = Double.of_int 0 -> detectionTimeTotal m = Double.of_int 0 ->
  routeOutageTotal (accumulate m (Double.of_int 0) lost (Double.of_int 0) mods)
  = Double.of_int 0
  /\ detectionTimeTotal (accumulate m (Double.of_int 0) lost (Double.of_int 0) mods)
     = Double.of_int 0.
Proof. intros H1 H2. cbn. rewrite H1, H2. done. Qed.

Lemma step_rfp_zero (c : Call) (pa : PerformanceAnalyzer) :
  clock_finite c = true -> feeds_rfp c = false ->
  rfp_events_timeless pa ->
  routeOutageTotal (m_rfp pa) = Double.of_int 0 ->
  detectionTimeTotal (m_rfp pa) = Double.of_int 0 ->
  rfp_events_timeless (step pa c)
  /\ routeOutageTotal (m_rfp (step pa c)) = Double.of_int 0
  /\ detectionTimeTotal (m_rfp (step pa c)) = Double.of_int 0.
Proof.
  intros Hclock Hfeed Hev Hout Hdet.
  destruct c as [t| | |a b rfp now|a b now|a b now|a b mods now|useRfp outage lost det mods];
    cbn [step].
  - done.
  - done.
  - done.
  - split; [|done]. intros key event. cbn [StartLinkDownEvent m_activeEvents].
    destruct (decide (MakeLinkKey a b = key)) as [->|Hne].
    + rewrite lookup_insert_eq. intros [= <-]. cbn [isRfp]. intros ->.
      cbn [linkDownTime routeUpdateTime detectionTime]. done.
    + rewrite lookup_insert_ne by done. apply Hev.
  - unfold RecordOspfDetection. cbv zeta.
    destruct (m_activeEvents pa !! MakeLinkKey a b) as [ev|] eqn:E; [|done].
    destruct (isRfp ev) eqn:Er; [done|].
    split; [|done]. intros key event. cbn [m_activeEvents].
    destruct (decide (MakeLinkKey a b = key)) as [->|Hne].
    + rewrite lookup_insert_eq. intros [= <-]. cbn [isRfp]. congruence.
    + rewrite lookup_insert_ne by done. apply Hev.
  - unfold RecordRouteConvergence. cbv zeta.
    destruct (m_activeEvents pa !! MakeLinkKey a b) as [ev|] eqn:E; [|done].
    split; [|done]. intros key event. cbn [m_activeEvents].
    destruct (decide (MakeLinkKey a b = key)) as [->|Hne].
    + rewrite lookup_insert_eq. intros [= <-]. cbn [isRfp]. intros Hr.
      cbn [linkDownTime routeUpdateTime detectionTime]. rewrite Hr.
      by apply (Hev _ _ E).
    + rewrite lookup_insert_ne by done. apply Hev.
  - unfold CompleteLinkEvent. cbv zeta.
    destruct (m_activeEvents pa !! MakeLinkKey a b) as [ev|] eqn:E; [|done].
    split.
    + intros key event. cbn [m_activeEvents].
      destruct (decide (MakeLinkKey a b = key)) as [->|Hne].
      * by rewrite lookup_delete_eq.
      * rewrite lookup_delete_ne by done. apply Hev.
    + cbn [m_rfp]. destruct (isRfp ev) eqn:Er; [|done].
      destruct (Hev _ _ E Er) as (Hfin & Hupd & Hd0).
      rewrite Hupd, Hd0, (sub_self _ Hfin).
      change (Double.ltb (S754_zero false) (Double.of_int 0)) with false.
      cbv iota. change (S754_zero false) with (Double.of_int 0).
      by apply accumulate_zero.
  - cbn [feeds_rfp] in Hfeed. subst useRfp. done.
Qed.

Lemma run_rfp_zero (calls : list Call) (pa : PerformanceAnalyzer) :
  forallb clock_finite calls = true ->
  forallb (fun c => negb (feeds_rfp c)) calls = true ->
  rfp_events_timeless pa ->
  routeOutageTotal (m_rfp pa) = Double.of_int 0 ->
  detectionTimeTotal (m_rfp pa) = Double.of_int 0 ->
  rfp_events_timeless (run calls pa)
  /\ routeOutageTotal (m_rfp (run calls pa)) = Double.of_int 0
  /\ detectionTimeTotal (m_rfp (run calls pa)) = Double.of_int 0.
Proof.
  unfold run. revert pa. induction calls as [|c rest IH]; intros pa Hc Hf Hev Ho Hd.
  - done.
  - cbn [forallb] in Hc, Hf.
    apply andb_prop in Hc as [Hc1 Hc2]. apply andb_prop in Hf as [Hf1 Hf2].
    apply negb_true_iff in Hf1.
    destruct (step_rfp_zero c pa Hc1 Hf1 Hev Ho Hd) as (Hev' & Ho' & Hd').
    cbn [fold_left]. by apply IH.
Qed.

Lemma init_rfp_events_timeless : rfp_events_timeless init.
Proof. intros key event. cbn [init m_activeEvents]. by rewrite lookup_empty. Qed.

(** The measured outage of the predicted events is always zero: an event
    started as predicted has its route update time set to its link down
    time, nothing changes either, and completion adds their difference.
    Whatever is measured, the two totals of the predicted side stay at
    zero and so do the averages of the final report. *)
Theorem rfp_outage_always_zero (calls : list Call) :
  forallb clock_finite calls = true ->
  forallb (fun c => negb (feeds_rfp c)) calls = true ->
  let pa := run calls init in
  routeOutageTotal (m_rfp pa) = Double.of_int 0
  /\ detectionTimeTotal (m_rfp pa) = Double.of_int 0
  /\ avgRfpOutage (PrintFinalResults pa) = Double.of_int 0
  /\ avgRfpDetection (PrintFinalResults pa) = Double.of_int 0.
Proof.
  intros Hc Hf pa.
  destruct (run_rfp_zero calls init Hc Hf init_rfp_events_timeless eq_refl eq_refl)
    as (_ & Ho & Hd).
  fold pa in Ho, Hd. cbn [PrintFinalResults avgRfpOutage avgRfpDetection].
  rewrite Ho, Hd. repeat split; apply average_zero.
Qed.

Lemma rfp_outage_always_zero_witness :
  let calls :=
    [CallOnPacketSent;
     CallStartLinkDownEvent 1 2 true (Double.of_int 15);
     CallOnPacketSent; CallOnPacketReceived;
     CallRecordOspfDetection 2 1 (Double.of_int 16);
     CallRecordRouteConvergence 1 2 (Double.of_int 18);
     CallCompleteLinkEvent 1 2 4 (Double.of_int 18)] in
  linkDownEvents (m_rfp (run calls init)) = 1
  /\ routeOutageTotal (m_rfp (run calls init)) = Double.of_int 0
  /\ avgRfpOutage (PrintFinalResults (run calls init)) = Double.of_int 0.
Proof.
  cbv zeta. split; [vm_compute; reflexivity|].
  match goal with |- context [run ?l init] =>
    pose proof (rfp_outage_always_zero l) as H end.
  cbv zeta in H. split; apply H; vm_compute; reflexivity.
Defined.

Lemma u64_sub_sub (s r d : Z) :
  u32 (u64 (u64 (s - d) - u64 (r - d))) = u32 (s - r).
Proof.
  unfold u32, u64.
  rewrite <- Zminus_mod.
  replace (s - d - (r - d)) with (s - r) by lia.
  change (2 ^ 64) with (2 ^ 32 * 2 ^ 32).
  rewrite Z.rem_mul_r by lia.
  rewrite Z.mul_comm, Z.mod_add by lia. apply Z.mod_mod. lia.
Qed.

(** The count of packets lost during an outage does not depend on the
    count of packets sent that was saved when the link went down: it is
    the difference between everything sent and everything received since
    the start of the simulation, reduced to 32 bits. *)
Theorem loss_ignores_snapshot (a b : Z) (simNow : double)
    (pa : PerformanceAnalyzer) (event : LinkEvent) :
  m_activeEvents pa !! MakeLinkKey a b = Some event ->
  option_map packetsLostDuringOutage
    (m_activeEvents (RecordRouteConvergence a b simNow pa) !! MakeLinkKey a b)
  = Some (u32 (m_packetsSentTotal pa - m_packetsReceivedTotal pa)).
Proof.
  intros He. unfold RecordRouteConvergence. cbv zeta. rewrite He.
  cbn [m_activeEvents]. rewrite lookup_insert_eq. cbn. by rewrite u64_sub_sub.
Qed.

Lemma loss_ignores_snapshot_witness :
  let pa := OnPacketReceived (OnPacketSent
              (StartLinkDownEvent 1 2 false (Double.of_int 5)
                 (OnPacketSent (OnPacketSent init)))) in
  m_packetsAtLinkDown pa = 2
  /\ option_map packetsLostDuringOutage
       (m_activeEvents (RecordRouteConvergence 2 1 (Double.of_int 6) pa)
          !! MakeLinkKey 2 1)
     = Some (u32 (3 - 1)).
Proof.
  cbv zeta. split; [reflexivity|].
  eapply (loss_ignores_snapshot 2 1). vm_compute. reflexivity.
Defined.

Lemma MakeLinkKey_comm (a b : Z) : MakeLinkKey a b = MakeLinkKey b a.
Proof.
  unfold MakeLinkKey.
  destruct (Z.ltb_spec b a), (Z.ltb_spec a b); try done; try lia.
  by replace b with a by lia.
Qed.

(** A measurement needs its event. Completion removes the event of the
    link, so that afterwards, and in either order of the two identifiers,
    the three recording methods change nothing: a second completion adds
    nothing to the totals. On a fresh analyzer they change nothing
    either. *)
Theorem measurement_needs_event (a b : Z) (mods mods' : Z) (simNow simNow' : double)
    (pa : PerformanceAnalyzer) :
  let pa' := CompleteLinkEvent a b mods simNow pa in
  m_activeEvents pa' !! MakeLinkKey b a = None
  /\ RecordOspfDetection b a simNow' pa' = pa'
  /\ RecordRouteConvergence b a simNow' pa' = pa'
  /\ CompleteLinkEvent b a mods' simNow' pa' = pa'
  /\ RecordOspfDetection a b simNow init = init
  /\ RecordRouteConvergence a b simNow init = init
  /\ CompleteLinkEvent a b mods simNow init = init.
Proof.
  intros pa'.
  assert (Hgone : m_activeEvents pa' !! MakeLinkKey b a = None).
  { rewrite (MakeLinkKey_comm b a). unfold pa', CompleteLinkEvent. cbv zeta.
    destruct (m_activeEvents pa !! MakeLinkKey a b) eqn:E; [|done].
    cbn [m_activeEvents]. by rewrite lookup_delete_eq. }
  unfold RecordOspfDetection, RecordRouteConvergence, CompleteLinkEvent at 1.
  cbv zeta. rewrite Hgone.
  unfold CompleteLinkEvent. cbn [init m_activeEvents]. rewrite lookup_empty. done.
Qed.

End Measurement.

(** ** The keys of the analyzer *)

Section LinkKeys.

Import Analyzer.
Import Stdlib.Strings.Ascii.

(** The digits of a number hold no dash, so that the first dash after
    them is the separator. *)
Lemma uint_separator (d1 d2 : Decimal.uint) (s1 s2 : string) :
  NilEmpty.string_of_uint d1 +:+ String "-"%char s1
  = NilEmpty.string_of_uint d2 +:+ String "-"%char s2 ->
  d1 = d2 /\ s1 = s2.
Proof.
  revert d2. induction d1 as [|d1 IH|d1 IH|d1 IH|d1 IH|d1 IH|d1 IH|d1 IH|d1 IH|d1 IH|d1 IH];
    intros [|d2|d2|d2|d2|d2|d2|d2|d2|d2|d2] H; cbn in H; try discriminate;
    try (injection H as H; destruct (IH _ H) as [-> ->]; done).
  by injection H as ->.
Qed.

Lemma uint_first (d : Decimal.uint) :
  d <> Decimal.Nil ->
  exists c r, NilEmpty.string_of_uint d = String c r /\ c <> "-"%char.
Proof. destruct d; try done; intros _; cbn; by do 2 eexists. Qed.

Lemma to_string_shape (z : Z) :
  exists (neg : bool) (d : Decimal.uint),
    d <> Decimal.Nil
    /\ Z.to_int z = (if neg then Decimal.Neg d else Decimal.Pos d)
    /\ to_string z = (if neg then "-" else "") +:+ NilEmpty.string_of_uint d.
Proof.
  destruct z as [|p|p].
  - exists false, (Decimal.D0 Decimal.Nil). done.
  - exists false, (Pos.to_uint p). pose proof (DecimalPos.Unsigned.to_uint_nonnil p) as Hp.
    repeat split; [done|]. unfold to_string. cbn [Z.to_int NilZero.string_of_int].
    unfold NilZero.string_of_uint. by destruct (Pos.to_uint p).
  - exists true, (Pos.to_uint p). pose proof (DecimalPos.Unsigned.to_uint_nonnil p) as Hp.
    repeat split; [done|]. unfold to_string. cbn [Z.to_int NilZero.string_of_int].
    unfold NilZero.string_of_uint. by destruct (Pos.to_uint p).
Qed.

Lemma to_string_inj (x y : Z) : to_string x = to_string y -> x = y.
Proof.
  intros H. apply DecimalZ.to_int_inj.
  assert (Hnn : forall z, Z.to_int z <> Decimal.Pos Decimal.Nil
                          /\ Z.to_int z <> Decimal.Neg Decimal.Nil).
  { intros [|p|p]; cbn; split; try done; intros [=E];
      by apply (DecimalPos.Unsigned.to_uint_nonnil p). }
  destruct (Hnn x) as [Hx1 Hx2], (Hnn y) as [Hy1 Hy2].
  pose proof (NilZero.isi _ Hx1 Hx2) as Ex.
  pose proof (NilZero.isi _ Hy1 Hy2) as Ey.
  unfold to_string in H. rewrite H in Ex. congruence.
Qed.

(** Two keys are equal only for the same two numbers. *)
Lemma key_inj (a b c d : Z) :
  to_string a +:+ "-" +:+ to_string b = to_string c +:+ "-" +:+ to_string d ->
  a = c /\ b = d.
Proof.
  intros H.
  destruct (to_string_shape a) as (na & da & Hda & Ea & Sa).
  destruct (to_string_shape c) as (nc & dc & Hdc & Ec & Sc).
  rewrite Sa, Sc in H.
  change ("-" +:+ to_string b) with (String "-"%char (to_string b)) in H.
  change ("-" +:+ to_string d) with (String "-"%char (to_string d)) in H.
  destruct (uint_first da Hda) as (ca & ra & Fa & Hca).
  destruct (uint_first dc Hdc) as (cc & rc & Fc & Hcc).
  assert (Hsame : na = nc
                  /\ NilEmpty.string_of_uint da +:+ String "-"%char (to_string b)
                     = NilEmpty.string_of_uint dc +:+ String "-"%char (to_string d)).
  { destruct na, nc.
    - split; [done|]. by injection H.
    - exfalso. rewrite Fc in H. injection H as H _. by subst.
    - exfalso. rewrite Fa in H. injection H as H _. by subst.
    - split; [done|]. exact H. }
  destruct Hsame as [-> Hrest].
  destruct (uint_separator _ _ _ _ Hrest) as [-> Hbd].
  split; [|by apply to_string_inj].
  apply DecimalZ.to_int_inj. by rewrite Ea, Ec.
Qed.

(** The analyzer's key names the link. [MakeLinkKey] gives two pairs
    of identifiers the same string exactly when [MakeOrderedPair] gives
    them the same pair: neither order nor a negative identifier makes
    two links share an analyzer record, and the two modules agree on what
    one link is. *)
Theorem link_key_names_the_link (a b c d : Z) :
  MakeLinkKey a b = MakeLinkKey c d
  <-> LDM.MakeOrderedPair a b = LDM.MakeOrderedPair c d.
Proof.
  assert (Hkey : forall x y,
             MakeLinkKey x y = to_string (Z.min x y) +:+ "-" +:+ to_string (Z.max x y)).
  { intros x y. unfold MakeLinkKey.
    destruct (Z.ltb_spec y x).
    - by rewrite Z.min_r, Z.max_l by lia.
    - by rewrite Z.min_l, Z.max_r by lia. }
  rewrite !Hkey. unfold LDM.MakeOrderedPair. split.
  - intros H. apply key_inj in H as [-> ->]. done.
  - intros [= -> ->]. done.
Qed.

End LinkKeys.

(** ** The relay of a link *)

Section AlternativePath.

Import Controller.

Lemma find_first {A : Type} (p : A -> bool) (l : list A) :
  match List.find p l with
  | Some x => exists l1 l2, l = l1 ++ x :: l2 /\ p x = true
                            /\ forallb (fun y => negb (p y)) l1 = true
  | None => forallb (fun y => negb (p y)) l = true
  end.
Proof.
  induction l as [|y l IH]; [done|]. cbn [List.find].
  destruct (p y) eqn:E.
  - exists [], l. done.
  - destruct (List.find p l) as [x|].
    + destruct IH as (l1 & l2 & -> & Hx & Hl1). exists (y :: l1), l2.
      repeat split; [done|]. cbn [forallb]. by rewrite E, Hl1.
    + cbn [forallb]. by rewrite E, IH.
Qed.

(** The relay that [FindAlternativePath] proposes is the smallest node
    index that is not an end of the link, so it is always one of the
    nodes 0, 1 and 2, whatever the topology; it is found whenever there
    are three nodes, and the answer is -1 only when each of the first
    [min (totalNodes, 10)] nodes is an end of the link. *)
Theorem alternative_is_smallest_other_node (totalNodes a b : Z) :
  let r := FindAlternativePath totalNodes a b in
  (r = -1 \/ (0 <= r <= 2 /\ r < Z.min totalNodes 10 /\ r <> a /\ r <> b))
  /\ (forall i, 0 <= i < (if r =? -1 then Z.min totalNodes 10 else r) ->
                i = a \/ i = b)
  /\ (3 <= totalNodes -> r <> -1).
Proof.
  intros r. unfold r, FindAlternativePath. cbv zeta.
  set (p := fun i => negb (i =? a) && negb (i =? b)).
  set (n := Z.min totalNodes 10).
  assert (Hp : forall i, p i = false -> i = a \/ i = b).
  { intros i. unfold p. destruct (Z.eqb_spec i a), (Z.eqb_spec i b); auto; done. }
  assert (Hp' : forall i, p i = true -> i <> a /\ i <> b).
  { intros i. unfold p. destruct (Z.eqb_spec i a), (Z.eqb_spec i b); auto; done. }
  pose proof (find_first p (seqZ 0 n)) as Hfind.
  destruct (List.find p (seqZ 0 n)) as [x|].
  - destruct Hfind as (l1 & l2 & Hl & Hx & Hl1).
    assert (Hxin : x ∈ seqZ 0 n).
    { rewrite Hl, elem_of_app, elem_of_cons. auto. }
    apply elem_of_seqZ in Hxin.
    assert (Hbelow : forall i, 0 <= i < x -> i = a \/ i = b).
    { intros i Hi. apply Hp.
      assert (Hi1 : seqZ 0 n !! Z.to_nat i = Some i).
      { rewrite lookup_seqZ. split; lia. }
      assert (Hx1 : seqZ 0 n !! Z.to_nat x = Some x).
      { rewrite lookup_seqZ. split; lia. }
      assert (Hlen : length l1 = Z.to_nat x).
      { rewrite Hl in Hx1.
        destruct (Nat.lt_trichotomy (Z.to_nat x) (length l1)) as [Hlt|[Heq|Hgt]];
          [|done|].
        - rewrite lookup_app_l in Hx1 by done.
          rewrite forallb_forall in Hl1.
          apply list_elem_of_lookup_2, list_elem_of_In, Hl1 in Hx1.
          by rewrite Hx in Hx1.
        - pose proof (f_equal (fun l => l !! length l1) Hl) as Hmid.
          cbn beta in Hmid.
          rewrite list_lookup_middle in Hmid by done.
          rewrite lookup_seqZ in Hmid. lia. }
      rewrite Hl in Hi1. rewrite lookup_app_l in Hi1 by lia.
      rewrite forallb_forall in Hl1.
      apply list_elem_of_lookup_2, list_elem_of_In, Hl1 in Hi1.
      by destruct (p i). }
    destruct (Hp' x Hx) as [Hxa Hxb].
    assert (Hsmall : x <= 2).
    { destruct (Z.le_gt_cases x 2) as [|Hbig]; [done|].
      destruct (Hbelow 0 ltac:(lia)), (Hbelow 1 ltac:(lia)), (Hbelow 2 ltac:(lia)); lia. }
    split; [right; lia|]. split.
    + destruct (Z.eqb_spec x (-1)); [lia|]. exact Hbelow.
    + lia.
  - split; [by left|]. split.
    + rewrite Z.eqb_refl. intros i Hi. apply Hp.
      rewrite forallb_forall in Hfind.
      assert (Hin : In i (seqZ 0 n)).
      { apply list_elem_of_In, elem_of_seqZ. lia. }
      specialize (Hfind i Hin). by destruct (p i).
    + intros H3. exfalso.
      rewrite forallb_forall in Hfind.
      assert (Hall : forall i, 0 <= i < 3 -> i = a \/ i = b).
      { intros i Hi. apply Hp.
        assert (Hin : In i (seqZ 0 n)).
        { apply list_elem_of_In, elem_of_seqZ. unfold n. lia. }
        specialize (Hfind i Hin). by destruct (p i). }
      destruct (Hall 0 ltac:(lia)), (Hall 1 ltac:(lia)), (Hall 2 ltac:(lia)); lia.
Qed.

End AlternativePath.

(** ** The override through the calls of the controller *)

Section Sequence.

Import Controller.

Lemma OnLinkStateChange_ldm (totalNodes a b : Z) (isUp : bool) (t : double)
    (c : SatnetOspfController) :
  m_ldm (fst (OnLinkStateChange totalNodes a b isUp t c))
  = fst (LDM.UpdateRealLinkState a b isUp t (Some (m_tmm c)) (m_ldm c)).
Proof.
  unfold OnLinkStateChange.
  destruct (LDM.UpdateRealLinkState a b isUp t (Some (m_tmm c)) (m_ldm c))
    as [ldm1 calls1].
  cbn [LDM.GetReportedState].
  destruct (GetNode totalNodes a), (GetNode totalNodes b); try done.
  by destruct (RMM.OnNewRoutingTable _ _ _ _).
Qed.

Lemma OnLinkStateChange_tmm (totalNodes a b : Z) (isUp : bool) (t : double)
    (c : SatnetOspfController) :
  m_tmm (fst (OnLinkStateChange totalNodes a b isUp t c)) = m_tmm c.
Proof.
  unfold OnLinkStateChange.
  destruct (LDM.UpdateRealLinkState a b isUp t (Some (m_tmm c)) (m_ldm c))
    as [ldm1 calls1].
  cbn [LDM.GetReportedState].
  destruct (GetNode totalNodes a), (GetNode totalNodes b); try done.
  by destruct (RMM.OnNewRoutingTable _ _ _ _).
Qed.

Lemma OnLinkStateChange_analyzer (totalNodes a b : Z) (isUp : bool) (t : double)
    (c : SatnetOspfController) :
  m_analyzer (fst (OnLinkStateChange totalNodes a b isUp t c))
  = if negb isUp then AnalyzeLinkDownPerformance a b t c else m_analyzer c.
Proof.
  unfold OnLinkStateChange.
  destruct (LDM.UpdateRealLinkState a b isUp t (Some (m_tmm c)) (m_ldm c))
    as [ldm1 calls1].
  cbn [LDM.GetReportedState].
  destruct (GetNode totalNodes a), (GetNode totalNodes b); try done.
  by destruct (RMM.OnNewRoutingTable _ _ _ _).
Qed.

(** What an observation sends: what the link gate discloses, then the
    route update, when it is applied at once. *)
Lemma OnLinkStateChange_calls (totalNodes a b : Z) (isUp : bool) (t : double)
    (c : SatnetOspfController) :
  exists updates,
    snd (OnLinkStateChange totalNodes a b isUp t c)
    = snd (LDM.UpdateRealLinkState a b isUp t (Some (m_tmm c)) (m_ldm c))
      ++ RMM.applications updates.
Proof.
  unfold OnLinkStateChange.
  destruct (LDM.UpdateRealLinkState a b isUp t (Some (m_tmm c)) (m_ldm c))
    as [ldm1 calls1].
  cbn [LDM.GetReportedState].
  destruct (GetNode totalNodes a) as [pa|], (GetNode totalNodes b) as [pb|];
    try (by exists []).
  unfold RMM.OnNewRoutingTable. destruct (RMM.m_bfuActive (m_rmm c)).
  - by exists [].
  - eexists [(_, _)]. done.
Qed.

Lemma applications_silent (link : Z * Z) (updates : list (Z * string)) :
  Forall (fun s => LDM.told link s <> Some true) (RMM.applications updates).
Proof. unfold RMM.applications. apply Forall_map. by apply Forall_true. Qed.

Lemma step_ldm_overridden (totalNodes : Z) (link : Z * Z) (call : Call)
    (c : SatnetOspfController) :
  lifts link call = false ->
  LDM.overridden link (m_ldm c) ->
  LDM.overridden link (m_ldm (fst (step totalNodes call c)))
  /\ Forall (fun s => LDM.told link s <> Some true) (snd (step totalNodes call c)).
Proof.
  intros Hl Hov.
  destruct call as [lid a b t|a b isUp t|a b t now|a b t|a b t now|a b t]; cbn [step].
  - split; [|by constructor].
    unfold SchedulePredictableLinkDown. by repeat case_match.
  - rewrite OnLinkStateChange_ldm.
    destruct (OnLinkStateChange_calls totalNodes a b isUp t c) as [updates ->].
    split.
    + apply (step_overridden link
               (LDM.CallUpdateRealLinkState a b isUp t (Some (m_tmm c)))
               (m_ldm c) eq_refl Hov).
    + apply Forall_app. split; [|apply applications_silent].
      destruct (decide (LDM.MakeOrderedPair a b = link)) as [Heq|Hne].
      * rewrite (proj2 (UpdateRealLinkState_forced a b isUp t (Some (m_tmm c)) (m_ldm c)
                          ltac:(rewrite Heq; apply Hov))).
        constructor.
      * unfold LDM.UpdateRealLinkState. cbv zeta.
        repeat case_match; cbn [snd]; repeat constructor.
        cbn [LDM.told]. by rewrite decide_False.
  - unfold ExecuteT1Actions.
    pose proof (step_overridden link (LDM.CallForceLinkDown a b t) (m_ldm c) eq_refl Hov)
      as Hs.
    cbn [LDM.step] in Hs. cbn [LDM.ForceLinkDown fst snd m_ldm] in *.
    split; [exact Hs|]. repeat constructor; cbn [LDM.told]; [|done].
    by destruct (decide _).
  - unfold ExecuteT2Actions. rewrite EndBfuPeriod_eq. cbn [fst snd m_ldm].
    split; [exact Hov|]. apply Forall_app. split; [|by repeat constructor].
    apply applications_silent.
  - cbn. split; [exact Hov|constructor].
  - unfold ExecuteT3Actions. cbn [lifts] in Hl. apply bool_decide_eq_false in Hl.
    pose proof (step_overridden link (LDM.CallRestoreNormalDetection a b t) (m_ldm c)) as Hs.
    cbn [LDM.step LDM.restores] in Hs.
    specialize (Hs ltac:(by apply bool_decide_eq_false) Hov).
    cbn [LDM.RestoreNormalDetection fst snd m_ldm] in *.
    split; [exact Hs|]. repeat constructor. cbn [LDM.told]. by rewrite decide_False.
Qed.

Lemma run_ldm_overridden (totalNodes : Z) (link : Z * Z) (calls : list Call)
    (c : SatnetOspfController) :
  Forall (fun call => lifts link call = false) calls ->
  LDM.overridden link (m_ldm c) ->
  LDM.overridden link (m_ldm (fst (run totalNodes calls c)))
  /\ Forall (fun s => LDM.told link s <> Some true) (snd (run totalNodes calls c)).
Proof.
  revert c. induction calls as [|call rest IH]; intros c Hall Hov.
  - cbn. by split.
  - inversion Hall as [|? ? Hl Hrest]; subst. cbn [run].
    destruct (step_ldm_overridden totalNodes link call c Hl Hov) as [Hov1 Hout1].
    destruct (step totalNodes call c) as [c1 out1]. cbn [fst snd] in *.
    destruct (IH c1 Hrest Hov1) as [Hov2 Hout2].
    destruct (run totalNodes rest c1) as [c2 out2]. cbn [fst snd] in *.
    split; [exact Hov2|]. by apply Forall_app.
Qed.

(** From the action of T1 on a pair until the action of T3 on it, and
    through any other calls on the controller (observations of the pair
    included, in either order of the identifiers), the controller reports
    the link down and sends the daemon nothing that declares it up. *)
Theorem link_stays_down_until_T3 (totalNodes a b : Z) (t now : double)
    (calls : list Call) (c : SatnetOspfController) :
  Forall (fun call => lifts (LDM.MakeOrderedPair a b) call = false) calls ->
  let c1 := fst (ExecuteT1Actions a b t now c) in
  let c2 := fst (run totalNodes calls c1) in
  GetOspfLinkState a b c2 = false
  /\ GetOspfLinkState b a c2 = false
  /\ Forall (fun s => LDM.told (LDM.MakeOrderedPair a b) s <> Some true)
            (snd (run totalNodes calls c1)).
Proof.
  intros Hall c1 c2.
  assert (Hov : LDM.overridden (LDM.MakeOrderedPair a b) (m_ldm c1)).
  { unfold c1, ExecuteT1Actions. cbn [fst m_ldm LDM.ForceLinkDown].
    apply (ForceLinkDown_overridden a b t (m_ldm c)). }
  destruct (run_ldm_overridden totalNodes _ calls c1 Hall Hov) as [[_ Hrep] Hout].
  fold c2 in Hrep. unfold GetOspfLinkState. cbn [LDM.GetReportedState fst].
  rewrite <- (MakeOrderedPair_comm a b), Hrep. done.
Qed.

Lemma link_stays_down_until_T3_witness :
  let c1 := fst (ExecuteT1Actions 1 2 (Double.of_int 15) (Double.of_int 15) init) in
  let calls :=
    [CallOnLinkStateChange 2 1 true (Double.of_int 16);
     CallExecuteT2Actions 1 2 (Double.of_int 17);
     CallExecuteT3Actions 0 1 (Double.of_int 18);
     CallOnLinkStateChange 1 2 true (Double.of_int 18)] in
  GetOspfLinkState 1 2 (fst (run 3 calls c1)) = false
  /\ fst (LDM.GetRealState 1 2 (m_ldm (fst (run 3 calls c1)))) = true.
Proof.
  cbv zeta. split; [|vm_compute; reflexivity].
  apply (link_stays_down_until_T3 3 1 2 (Double.of_int 15) (Double.of_int 15)
           _ init).
  repeat constructor.
Defined.

End Sequence.

(** ** The figures of the final report *)

Section Report.

Import Controller.

Lemma add_of_int (x y : Z) :
  0 <= x -> 0 < y -> x + y < 2 ^ 53 ->
  Double.add (Double.of_int x) (Double.of_int y) = Double.of_int (x + y).
Proof.
  intros Hx Hy Hxy. unfold Double.of_int.
  destruct (normalize_small y 0 ltac:(lia) ltac:(lia)) as [Hfy Hty].
  destruct (normalize_small (x + y) 0 ltac:(lia) ltac:(lia)) as [Hfr Htr].
  destruct (Z.eq_dec x 0) as [->|Hne].
  - rewrite Z.add_0_l. cbn [binary_normalize].
    destruct (binary_normalize Double.prec Double.emax y 0 false); try discriminate.
    done.
  - destruct (normalize_small x 0 ltac:(lia) ltac:(lia)) as [Hfx Htx].
    apply add_exact; try done. rewrite Htx, Hty, Htr. lia.
Qed.

Lemma accumulate_baseline (n : Z) :
  0 <= n < 2 ^ 32 ->
  Analyzer.accumulate (Analyzer.baseline n)
    (Double.add (Double.lit 40000 1) (Double.lit 100 1)) 15 (Double.lit 40000 1) 1
  = Analyzer.baseline (n + 1).
Proof.
  intros Hn. unfold Analyzer.accumulate, Analyzer.baseline.
  cbn [Analyzer.packetsLost Analyzer.routeOutageTotal Analyzer.linkDownEvents
       Analyzer.detectionTimeTotal Analyzer.realQuaggaModifications].
  change (Double.add (Double.lit 40000 1) (Double.lit 100 1)) with (Double.of_int 40100).
  change (Double.lit 40000 1) with (Double.of_int 40000).
  assert (H32 : 2 ^ 32 * 40100 < 2 ^ 53) by (vm_compute; reflexivity).
  rewrite !add_of_int by lia. rewrite !u32_add_l.
  f_equal; f_equal; lia.
Qed.

Lemma analyzer_after (totalNodes : Z) (call : Call) (c : SatnetOspfController) :
  m_analyzer (fst (step totalNodes call c))
  = match call with
    | CallOnLinkStateChange a b isUp t =>
        if negb isUp then AnalyzeLinkDownPerformance a b t c else m_analyzer c
    | CallExecuteT1Actions a b t now =>
        Analyzer.StartLinkDownEvent a b true now (m_analyzer c)
    | CallExecuteT0Actions a b t now =>
        Analyzer.CompleteLinkEvent a b (m_totalQuaggaModifications c) now
          (Analyzer.RecordRouteConvergence a b now (m_analyzer c))
    | _ => m_analyzer c
    end.
Proof.
  destruct call as [lid a b t|a b isUp t|a b t now|a b t|a b t now|a b t]; cbn [step].
  - unfold SchedulePredictableLinkDown. by repeat case_match.
  - apply OnLinkStateChange_analyzer.
  - done.
  - unfold ExecuteT2Actions. by destruct (RMM.EndBfuPeriod _ _).
  - done.
  - done.
Qed.

Lemma step_figures (totalNodes : Z) (call : Call) (c : SatnetOspfController) (n : Z) :
  clock_finite call = true ->
  0 <= n < 2 ^ 32 ->
  Analyzer.rfp_events_timeless (m_analyzer c) ->
  (forall key event, Analyzer.m_activeEvents (m_analyzer c) !! key = Some event ->
                     Analyzer.isRfp event = true) ->
  Analyzer.routeOutageTotal (Analyzer.m_rfp (m_analyzer c)) = Double.of_int 0 ->
  Analyzer.detectionTimeTotal (Analyzer.m_rfp (m_analyzer c)) = Double.of_int 0 ->
  Analyzer.m_standardOspf (m_analyzer c) = Analyzer.baseline n ->
  let pa := m_analyzer (fst (step totalNodes call c)) in
  Analyzer.rfp_events_timeless pa
  /\ (forall key event, Analyzer.m_activeEvents pa !! key = Some event ->
                        Analyzer.isRfp event = true)
  /\ Analyzer.routeOutageTotal (Analyzer.m_rfp pa) = Double.of_int 0
  /\ Analyzer.detectionTimeTotal (Analyzer.m_rfp pa) = Double.of_int 0
  /\ (Analyzer.m_standardOspf pa = Analyzer.baseline n
      \/ Analyzer.m_standardOspf pa = Analyzer.baseline (n + 1)).
Proof.
  intros Hclock Hn Hev Hall Ho Hd Hstd pa. unfold pa. rewrite analyzer_after.
  assert (Hsame : Analyzer.rfp_events_timeless (m_analyzer c)
            /\ (forall key event,
                   Analyzer.m_activeEvents (m_analyzer c) !! key = Some event ->
                   Analyzer.isRfp event = true)
            /\ Analyzer.routeOutageTotal (Analyzer.m_rfp (m_analyzer c)) = Double.of_int 0
            /\ Analyzer.detectionTimeTotal (Analyzer.m_rfp (m_analyzer c))
               = Double.of_int 0
            /\ (Analyzer.m_standardOspf (m_analyzer c) = Analyzer.baseline n
                \/ Analyzer.m_standardOspf (m_analyzer c) = Analyzer.baseline (n + 1))).
  { split; [done|]. split; [done|]. split; [done|]. split; [done|]. by left. }
  destruct call as [lid a b t|a b isUp t|a b t now|a b t|a b t now|a b t];
    try exact Hsame.
  - (* an observation *)
    destruct isUp; cbn [negb]; [exact Hsame|].
    unfold AnalyzeLinkDownPerformance.
    destruct (negb (TMM.IsInBldPeriod a b t (m_tmm c))); [|exact Hsame].
    destruct (step_rfp_zero
                (Analyzer.CallRecordLinkDownEvent false
                   (Double.add (Double.lit 40000 1) (Double.lit 100 1)) 15
                   (Double.lit 40000 1) 1)
                (m_analyzer c) eq_refl eq_refl Hev Ho Hd) as (Hev' & Ho' & Hd').
    cbn [Analyzer.step] in *.
    split; [done|]. split; [exact Hall|]. split; [done|]. split; [done|].
    right. cbn [Analyzer.RecordLinkDownEvent Analyzer.m_standardOspf].
    rewrite Hstd. by apply accumulate_baseline.
  - (* T1 *)
    destruct (step_rfp_zero (Analyzer.CallStartLinkDownEvent a b true now)
                (m_analyzer c) Hclock eq_refl Hev Ho Hd) as (Hev' & Ho' & Hd').
    cbn [Analyzer.step] in *.
    split; [done|]. split; [|split; [done|split; [done|by left]]].
    intros key event. cbn [Analyzer.StartLinkDownEvent Analyzer.m_activeEvents].
    destruct (decide (Analyzer.MakeLinkKey a b = key)) as [->|Hne].
    + rewrite lookup_insert_eq. by intros [= <-].
    + rewrite lookup_insert_ne by done. apply Hall.
  - (* T0 *)
    set (pa1 := Analyzer.RecordRouteConvergence a b now (m_analyzer c)).
    destruct (step_rfp_zero (Analyzer.CallRecordRouteConvergence a b now)
                (m_analyzer c) eq_refl eq_refl Hev Ho Hd) as (Hev1 & Ho1 & Hd1).
    cbn [Analyzer.step] in Hev1, Ho1, Hd1. fold pa1 in Hev1, Ho1, Hd1.
    assert (Hall1 : forall key event,
               Analyzer.m_activeEvents pa1 !! key = Some event ->
               Analyzer.isRfp event = true).
    { intros key event. unfold pa1, Analyzer.RecordRouteConvergence. cbv zeta.
      destruct (Analyzer.m_activeEvents (m_analyzer c) !! Analyzer.MakeLinkKey a b)
        as [ev|] eqn:E; [|apply Hall].
      cbn [Analyzer.m_activeEvents].
      destruct (decide (Analyzer.MakeLinkKey a b = key)) as [->|Hne].
      - rewrite lookup_insert_eq. intros [= <-]. cbn. by apply (Hall _ _ E).
      - rewrite lookup_insert_ne by done. apply Hall. }
    assert (Hstd1 : Analyzer.m_standardOspf pa1 = Analyzer.baseline n).
    { unfold pa1, Analyzer.RecordRouteConvergence. cbv zeta.
      by destruct (Analyzer.m_activeEvents (m_analyzer c) !! Analyzer.MakeLinkKey a b). }
    destruct (step_rfp_zero
                (Analyzer.CallCompleteLinkEvent a b (m_totalQuaggaModifications c) now)
                pa1 eq_refl eq_refl Hev1 Ho1 Hd1) as (Hev2 & Ho2 & Hd2).
    cbn [Analyzer.step] in Hev2, Ho2, Hd2.
    split; [done|]. split; [|split; [done|split; [done|left]]].
    + intros key event. unfold Analyzer.CompleteLinkEvent. cbv zeta.
      destruct (Analyzer.m_activeEvents pa1 !! Analyzer.MakeLinkKey a b)
        as [ev|] eqn:E; [|apply Hall1].
      cbn [Analyzer.m_activeEvents].
      destruct (decide (Analyzer.MakeLinkKey a b = key)) as [->|Hne].
      * by rewrite lookup_delete_eq.
      * rewrite lookup_delete_ne by done. apply Hall1.
    + unfold Analyzer.CompleteLinkEvent. cbv zeta.
      destruct (Analyzer.m_activeEvents pa1 !! Analyzer.MakeLinkKey a b)
        as [ev|] eqn:E; [|done].
      cbn [Analyzer.m_standardOspf]. by rewrite (Hall1 _ _ E).
Qed.

Lemma run_figures (totalNodes : Z) (calls : list Call) (c : SatnetOspfController)
    (n : Z) :
  forallb clock_finite calls = true ->
  0 <= n -> n + Z.of_nat (length calls) <= 2 ^ 32 ->
  Analyzer.rfp_events_timeless (m_analyzer c) ->
  (forall key event, Analyzer.m_activeEvents (m_analyzer c) !! key = Some event ->
                     Analyzer.isRfp event = true) ->
  Analyzer.routeOutageTotal (Analyzer.m_rfp (m_analyzer c)) = Double.of_int 0 ->
  Analyzer.detectionTimeTotal (Analyzer.m_rfp (m_analyzer c)) = Double.of_int 0 ->
  Analyzer.m_standardOspf (m_analyzer c) = Analyzer.baseline n ->
  let pa := m_analyzer (fst (run totalNodes calls c)) in
  Analyzer.routeOutageTotal (Analyzer.m_rfp pa) = Double.of_int 0
  /\ Analyzer.detectionTimeTotal (Analyzer.m_rfp pa) = Double.of_int 0
  /\ exists n', n <= n' <= n + Z.of_nat (length calls)
                /\ Analyzer.m_standardOspf pa = Analyzer.baseline n'.
Proof.
  revert c n. induction calls as [|call rest IH]; intros c n Hc Hn Hlen Hev Hall Ho Hd Hstd.
  - cbn. repeat split; try done. exists n. split; [lia|done].
  - cbn [forallb] in Hc. apply andb_prop in Hc as [Hc1 Hc2].
    cbn [length] in Hlen. rewrite Nat2Z.inj_succ in Hlen.
    pose proof (step_figures totalNodes call c n Hc1 ltac:(lia) Hev Hall Ho Hd Hstd)
      as Hstep.
    cbv zeta in Hstep. cbn [run].
    destruct (step totalNodes call c) as [c1 out1]. cbn [fst] in Hstep.
    destruct Hstep as (Hev1 & Hall1 & Ho1 & Hd1 & [Hstd1|Hstd1]).
    + pose proof (IH c1 n Hc2 Hn ltac:(lia) Hev1 Hall1 Ho1 Hd1 Hstd1) as H.
      cbv zeta in H. destruct (run totalNodes rest c1) as [c2 out2]. cbn [fst] in *.
      destruct H as (H1 & H2 & n' & Hn' & H3). repeat split; try done.
      exists n'. split; [cbn [length]; lia|done].
    + pose proof (IH c1 (n + 1) Hc2 ltac:(lia) ltac:(lia) Hev1 Hall1 Ho1 Hd1 Hstd1) as H.
      cbv zeta in H. destruct (run totalNodes rest c1) as [c2 out2]. cbn [fst] in *.
      destruct H as (H1 & H2 & n' & Hn' & H3). repeat split; try done.
      exists n'. split; [cbn [length]; lia|done].
Qed.

Lemma init_events_predicted (key : string) (event : Analyzer.LinkEvent) :
  Analyzer.m_activeEvents (m_analyzer init) !! key = Some event ->
  Analyzer.isRfp event = true.
Proof. cbn. by rewrite lookup_empty. Qed.

(** The baseline is not measured. Over any history of a controller, the
    figures of the failures it had not predicted are those of as many
    identical events: each adds 40100 ms of outage, 40000 ms of detection,
    15 packets and one modification, whatever happened on the link. *)
Theorem standard_figures_are_constants (totalNodes : Z) (calls : list Call) :
  forallb clock_finite calls = true ->
  Z.of_nat (length calls) < 2 ^ 32 ->
  let std := Analyzer.m_standardOspf (m_analyzer (fst (run totalNodes calls init))) in
  std = Analyzer.baseline (Analyzer.linkDownEvents std).
Proof.
  intros Hc Hlen std.
  destruct (run_figures totalNodes calls init 0 Hc ltac:(lia) ltac:(lia)
              init_rfp_events_timeless init_events_predicted eq_refl eq_refl eq_refl)
    as (_ & _ & n & Hn & Hstd).
  fold std in Hstd. rewrite Hstd at 2.
  cbn [Analyzer.baseline Analyzer.linkDownEvents].
  rewrite u32_small by lia. exact Hstd.
Qed.

Lemma standard_figures_are_constants_witness :
  let calls :=
    [CallOnLinkStateChange 0 1 false (Double.of_int 5);
     CallOnLinkStateChange 0 1 false (Double.of_int 6);
     CallExecuteT1Actions 1 2 (Double.of_int 15) (Double.of_int 15);
     CallExecuteT0Actions 1 2 (Double.of_int 18) (Double.of_int 18)] in
  let std := Analyzer.m_standardOspf (m_analyzer (fst (run 3 calls init))) in
  Analyzer.linkDownEvents std = 2 /\ std = Analyzer.baseline (Analyzer.linkDownEvents std).
Proof.
  cbv zeta. split; [vm_compute; reflexivity|].
  apply (standard_figures_are_constants 3); [vm_compute; reflexivity|].
  cbn [length]. lia.
Defined.

Lemma improvement_zero (standard : double) :
  Analyzer.improvement standard (Double.of_int 0)
  = if Double.ltb (Double.of_int 0) standard
    then Some (Double.div standard (Double.lit 1 1000))
    else None.
Proof.
  unfold Analyzer.improvement.
  change (Double.geb (Double.of_int 0) (Double.of_int 0)) with true.
  rewrite andb_true_r.
  change (Double.add (Double.of_int 0) (Double.lit 1 1000)) with (Double.lit 1 1000).
  done.
Qed.

(** What the final report says of the predicted events, over any history
    of a controller: their average outage and their average detection
    time are zero, so that the improvement factor printed for the outage
    is the average of the baseline divided by the constant 0.001. *)
Theorem report_of_predicted_events (totalNodes : Z) (calls : list Call) :
  forallb clock_finite calls = true ->
  Z.of_nat (length calls) < 2 ^ 32 ->
  let report :=
    Analyzer.PrintFinalResults (m_analyzer (fst (run totalNodes calls init))) in
  Analyzer.avgRfpOutage report = Double.of_int 0
  /\ Analyzer.avgRfpDetection report = Double.of_int 0
  /\ Analyzer.outageImprovement report
     = (if Double.ltb (Double.of_int 0) (Analyzer.avgStandardOutage report)
        then Some (Double.div (Analyzer.avgStandardOutage report) (Double.lit 1 1000))
        else None).
Proof.
  intros Hc Hlen report.
  destruct (run_figures totalNodes calls init 0 Hc ltac:(lia) ltac:(lia)
              init_rfp_events_timeless init_events_predicted eq_refl eq_refl eq_refl)
    as (Ho & Hd & _).
  assert (H1 : Analyzer.avgRfpOutage report = Double.of_int 0).
  { unfold report. cbn [Analyzer.PrintFinalResults Analyzer.avgRfpOutage].
    rewrite Ho. apply average_zero. }
  assert (H2 : Analyzer.avgRfpDetection report = Double.of_int 0).
  { unfold report. cbn [Analyzer.PrintFinalResults Analyzer.avgRfpDetection].
    rewrite Hd. apply average_zero. }
  repeat split; try done.
  unfold report in *.
  cbn [Analyzer.PrintFinalResults Analyzer.outageImprovement Analyzer.avgStandardOutage
       Analyzer.avgRfpOutage] in *.
  rewrite H1. apply improvement_zero.
Qed.

Lemma report_of_predicted_events_witness :
  let calls :=
    [CallOnLinkStateChange 0 1 false (Double.of_int 5);
     CallExecuteT1Actions 1 2 (Double.of_int 15) (Double.of_int 15);
     CallExecuteT0Actions 1 2 (Double.of_int 18) (Double.of_int 18)] in
  let report := Analyzer.PrintFinalResults (m_analyzer (fst (run 3 calls init))) in
  Analyzer.avgStandardOutage report = Double.of_int 40100
  /\ Analyzer.avgRfpOutage report = Double.of_int 0.
Proof.
  cbv zeta. split; [vm_compute; reflexivity|].
  apply (report_of_predicted_events 3); [vm_compute; reflexivity|].
  cbn [length]. lia.
Defined.

End Report.

(** ** Binary64 rounding, for every value

    Round to nearest, ties to even, as a function on integers: the
    shifts of [SpecFloat] against a quotient and a remainder. *)

Section Rounding.

Import Double.

(** The record after [k] halvings: the quotient, the last bit shifted
    out, and whether a bit shifted out before it was set. *)
Lemma shr_1_spec (m : Z) (r s : bool) :
  0 <= m ->
  shr_1 {| shr_m := m; shr_r := r; shr_s := s |}
  = {| shr_m := m / 2; shr_r := Z.odd m; shr_s := r || s |}.
Proof.
  intros Hm. destruct m as [|[p|p|]|p]; try lia; cbn [shr_1].
  - done.
  - f_equal; try done. rewrite Pos2Z.inj_xI.
    apply (Z.div_unique _ _ _ 1); lia.
  - f_equal; try done. rewrite Pos2Z.inj_xO.
    apply (Z.div_unique _ _ _ 0); lia.
  - done.
Qed.

Lemma iter_shr_1_spec (m : Z) (k : positive) :
  0 <= m ->
  SpecFloat.iter_pos shr_1 k {| shr_m := m; shr_r := false; shr_s := false |}
  = {| shr_m := m / 2 ^ Zpos k;
       shr_r := Z.odd (m / 2 ^ (Zpos k - 1));
       shr_s := negb (m mod 2 ^ (Zpos k - 1) =? 0) |}.
Proof.
  intros Hm. rewrite iter_pos_eq.
  induction k as [|k IH] using Pos.peano_ind.
  - cbn [Pos.iter]. rewrite shr_1_spec by done.
    change (Zpos 1 - 1) with 0. rewrite Z.pow_0_r, Z.div_1_r, Z.mod_1_r.
    by rewrite Z.pow_1_r.
  - rewrite Pos.iter_succ, IH.
    assert (Hk : 0 < 2 ^ Zpos k) by (apply Z.pow_pos_nonneg; lia).
    assert (Hk1 : 0 < 2 ^ (Zpos k - 1)) by (apply Z.pow_pos_nonneg; lia).
    rewrite shr_1_spec by (apply Z.div_pos; lia).
    rewrite Pos2Z.inj_succ.
    replace (Z.succ (Zpos k) - 1) with (Zpos k) by lia.
    rewrite Z.pow_succ_r by lia.
    f_equal.
    + rewrite Z.div_div by lia. f_equal. lia.
    + (* the sticky bit *)
      assert (Hsplit : 2 ^ Zpos k = 2 * 2 ^ (Zpos k - 1)).
      { rewrite <- Z.pow_succ_r by lia. f_equal. lia. }
      assert (Hmod : m mod 2 ^ Zpos k
                     = 2 ^ (Zpos k - 1) * ((m / 2 ^ (Zpos k - 1)) mod 2)
                       + m mod 2 ^ (Zpos k - 1)).
      { rewrite Hsplit, Z.mul_comm. rewrite Z.rem_mul_r by lia. lia. }
      rewrite Hmod.
      pose proof (Z.mod_pos_bound m (2 ^ (Zpos k - 1)) Hk1) as Hlow.
      rewrite Zodd_mod.
      pose proof (Z.mod_pos_bound (m / 2 ^ (Zpos k - 1)) 2 ltac:(lia)) as Hbit.
      destruct (Z.eqb_spec ((m / 2 ^ (Zpos k - 1)) mod 2) 1) as [H1|H1];
        destruct (Z.eqb_spec (m mod 2 ^ (Zpos k - 1)) 0) as [H0|H0];
        cbn [negb orb]; symmetry.
      * apply negb_true_iff, Z.eqb_neq. nia.
      * apply negb_true_iff, Z.eqb_neq. nia.
      * apply negb_false_iff, Z.eqb_eq. nia.
      * apply negb_true_iff, Z.eqb_neq. nia.
Qed.

(** The mantissa that [binary_round_aux] keeps after a shift of [k] bits
    is the quotient rounded to nearest, ties to even. *)
Lemma round_nearest_even_rne (m : Z) (k : positive) :
  0 <= m ->
  let r := SpecFloat.iter_pos shr_1 k {| shr_m := m; shr_r := false; shr_s := false |} in
  round_nearest_even (shr_m r) (loc_of_shr_record r) = rne m (Zpos k).
Proof.
  intros Hm r. unfold r. rewrite iter_shr_1_spec by done.
  cbn [shr_m]. unfold rne. cbv zeta.
  assert (Hk : 0 < 2 ^ Zpos k) by (apply Z.pow_pos_nonneg; lia).
  assert (Hk1 : 0 < 2 ^ (Zpos k - 1)) by (apply Z.pow_pos_nonneg; lia).
  assert (Hsplit : 2 ^ Zpos k = 2 * 2 ^ (Zpos k - 1)).
  { rewrite <- Z.pow_succ_r by lia. f_equal. lia. }
  assert (Hmod : m mod 2 ^ Zpos k
                 = 2 ^ (Zpos k - 1) * ((m / 2 ^ (Zpos k - 1)) mod 2)
                   + m mod 2 ^ (Zpos k - 1)).
  { rewrite Hsplit at 1. rewrite Z.mul_comm. rewrite Z.rem_mul_r by lia. lia. }
  pose proof (Z.mod_pos_bound m (2 ^ (Zpos k - 1)) Hk1) as Hlow.
  pose proof (Z.mod_pos_bound (m / 2 ^ (Zpos k - 1)) 2 ltac:(lia)) as Hbit.
  rewrite Zodd_mod.
  destruct (Z.eqb_spec ((m / 2 ^ (Zpos k - 1)) mod 2) 1) as [H1|H1];
    destruct (Z.eqb_spec (m mod 2 ^ (Zpos k - 1)) 0) as [H0|H0];
    cbn [negb loc_of_shr_record round_nearest_even].
  - assert (Hc : (2 * (m mod 2 ^ Z.pos k) ?= 2 ^ Z.pos k) = Eq)
      by (apply Z.compare_eq_iff; nia).
    by rewrite Hc.
  - assert (Hc : (2 * (m mod 2 ^ Z.pos k) ?= 2 ^ Z.pos k) = Gt)
      by (apply Z.compare_gt_iff; nia).
    by rewrite Hc.
  - assert (Hc : (2 * (m mod 2 ^ Z.pos k) ?= 2 ^ Z.pos k) = Lt)
      by (apply Z.compare_lt_iff; nia).
    by rewrite Hc.
  - assert (Hc : (2 * (m mod 2 ^ Z.pos k) ?= 2 ^ Z.pos k) = Lt)
      by (apply Z.compare_lt_iff; nia).
    by rewrite Hc.
Qed.

(** *** Arithmetic of [rne] *)

Lemma rne_bounds (x k : Z) : x / 2 ^ k <= rne x k <= x / 2 ^ k + 1.
Proof.
  unfold rne. cbv zeta. destruct (_ ?= _); [destruct (Z.even _)| |]; lia.
Qed.

Lemma rne_exact (q k : Z) : 0 <= k -> rne (q * 2 ^ k) k = q.
Proof.
  intros Hk. unfold rne. cbv zeta.
  assert (Hp : 0 < 2 ^ k) by (apply Z.pow_pos_nonneg; lia).
  rewrite Z.div_mul by lia. rewrite Z.mod_mul by lia.
  assert (Hc : (2 * 0 ?= 2 ^ k) = Lt) by (apply Z.compare_lt_iff; lia).
  by rewrite Hc.
Qed.

Lemma rne_scale (x k j : Z) :
  0 <= k -> 0 <= j -> rne (x * 2 ^ j) (k + j) = rne x k.
Proof.
  intros Hk Hj. unfold rne. cbv zeta.
  assert (Hpk : 0 < 2 ^ k) by (apply Z.pow_pos_nonneg; lia).
  assert (Hpj : 0 < 2 ^ j) by (apply Z.pow_pos_nonneg; lia).
  rewrite Z.pow_add_r by lia.
  rewrite Z.div_mul_cancel_r by lia.
  rewrite Z.mul_mod_distr_r by lia.
  replace (2 * (x mod 2 ^ k * 2 ^ j)) with (2 * (x mod 2 ^ k) * 2 ^ j) by lia.
  destruct (Z.compare_spec (2 * (x mod 2 ^ k) * 2 ^ j) (2 ^ k * 2 ^ j));
    destruct (Z.compare_spec (2 * (x mod 2 ^ k)) (2 ^ k)); try done; nia.
Qed.

Lemma rne_mono (x y k : Z) : 0 <= k -> x <= y -> rne x k <= rne y k.
Proof.
  intros Hk Hxy.
  assert (Hp : 0 < 2 ^ k) by (apply Z.pow_pos_nonneg; lia).
  pose proof (Z.div_le_mono x y (2 ^ k) Hp Hxy) as Hq.
  destruct (Z.eq_dec (x / 2 ^ k) (y / 2 ^ k)) as [Heq|Hne].
  - unfold rne. cbv zeta. rewrite <- Heq.
    assert (Hr : x mod 2 ^ k <= y mod 2 ^ k).
    { rewrite !Z.mod_eq by lia. rewrite Heq. lia. }
    destruct (Z.compare_spec (2 * (x mod 2 ^ k)) (2 ^ k));
      destruct (Z.compare_spec (2 * (y mod 2 ^ k)) (2 ^ k));
      try lia; destruct (Z.even (x / 2 ^ k)); lia.
  - pose proof (rne_bounds x k). pose proof (rne_bounds y k). lia.
Qed.

End Rounding.

Section RoundTicks.

Import Double.

Lemma log2_digits (p : positive) : Z.log2 (Zpos p) = Zpos (digits2_pos p) - 1.
Proof.
  pose proof (digits2_pos_bounds p) as [Hlo Hhi].
  apply Z.log2_unique; [lia|].
  replace (Z.succ (Zpos (digits2_pos p) - 1)) with (Zpos (digits2_pos p)) by lia.
  lia.
Qed.

Lemma excess_nonneg (x : Z) : 0 <= excess x.
Proof. unfold excess. lia. Qed.

Lemma excess_scaled (p : positive) (j : Z) :
  0 <= j ->
  excess (Zpos p * 2 ^ j) = Z.max 0 (Zpos (digits2_pos p) - 53 + j).
Proof.
  intros Hj. unfold excess. rewrite Z.log2_mul_pow2 by lia.
  rewrite log2_digits. lia.
Qed.

Lemma round_ticks_small (x : Z) : 0 <= x < 2 ^ 53 -> round_ticks x = x.
Proof.
  intros [H0 H1]. unfold round_ticks.
  assert (He : excess x = 0).
  { unfold excess. destruct (Z.eq_dec x 0) as [->|Hne]; [done|].
    assert (Z.log2 x < 53) by (apply Z.log2_lt_pow2; lia). lia. }
  rewrite He. rewrite Z.pow_0_r, Z.mul_1_r.
  rewrite <- (Z.mul_1_r x) at 1. change 1 with (2 ^ 0) at 1. by apply rne_exact.
Qed.

Lemma round_ticks_0 : round_ticks 0 = 0.
Proof. by apply round_ticks_small. Qed.

(** Above 53 bits the result stays between the two powers of two that
    surround the value. *)
Lemma round_ticks_large (x : Z) :
  2 ^ 52 <= x ->
  2 ^ Z.log2 x <= round_ticks x <= 2 ^ (Z.log2 x + 1).
Proof.
  intros Hx. assert (H0 : 0 < x) by (pose proof (pow2_pos 52); lia).
  assert (HL : 52 <= Z.log2 x) by (apply Z.log2_le_pow2; lia).
  destruct (Z.log2_spec x H0) as [Hlo Hhi].
  unfold round_ticks, excess. rewrite Z.max_r by lia.
  set (k := Z.log2 x - 52).
  assert (Hk : 0 <= k) by (unfold k; lia).
  assert (Hp : 0 < 2 ^ k) by (apply Z.pow_pos_nonneg; lia).
  assert (HLk : 2 ^ Z.log2 x = 2 ^ 52 * 2 ^ k).
  { rewrite <- Z.pow_add_r by lia. f_equal. unfold k. lia. }
  assert (HLk1 : 2 ^ (Z.log2 x + 1) = 2 ^ 53 * 2 ^ k).
  { rewrite <- Z.pow_add_r by lia. f_equal. unfold k. lia. }
  replace (Z.succ (Z.log2 x)) with (Z.log2 x + 1) in Hhi by lia.
  rewrite HLk, HLk1. rewrite HLk in Hlo. rewrite HLk1 in Hhi.
  pose proof (rne_bounds x k) as [Hq1 Hq2].
  assert (Hq52 : 2 ^ 52 <= x / 2 ^ k) by (apply Z.div_le_lower_bound; lia).
  assert (Hq53 : x / 2 ^ k < 2 ^ 53) by (apply Z.div_lt_upper_bound; lia).
  split; apply Z.mul_le_mono_nonneg_r; lia.
Qed.

Lemma round_ticks_upper (x : Z) : 0 < x -> round_ticks x <= 2 ^ (Z.log2 x + 1).
Proof.
  intros H0. destruct (Z.le_gt_cases (2 ^ 52) x) as [H|H].
  - by apply round_ticks_large.
  - rewrite round_ticks_small by (change (2 ^ 53) with (2 * 2 ^ 52); lia).
    destruct (Z.log2_spec x H0) as [_ Hhi].
    replace (Z.succ (Z.log2 x)) with (Z.log2 x + 1) in Hhi by lia. lia.
Qed.

Lemma round_ticks_lower (x : Z) : 0 < x -> 2 ^ Z.log2 x <= round_ticks x.
Proof.
  intros H0. destruct (Z.le_gt_cases (2 ^ 52) x) as [H|H].
  - by apply round_ticks_large.
  - rewrite round_ticks_small by (change (2 ^ 53) with (2 * 2 ^ 52); lia).
    by destruct (Z.log2_spec x H0).
Qed.

Lemma round_ticks_mono (x y : Z) :
  0 <= x -> x <= y -> round_ticks x <= round_ticks y.
Proof.
  intros H0 Hxy.
  destruct (Z.eq_dec x 0) as [->|Hx].
  { rewrite round_ticks_0. destruct (Z.eq_dec y 0) as [->|Hy].
    - by rewrite round_ticks_0.
    - pose proof (round_ticks_lower y ltac:(lia)).
      pose proof (pow2_pos (Z.log2 y) (Z.log2_nonneg y)). lia. }
  pose proof (Z.log2_le_mono x y Hxy) as HL.
  destruct (Z.eq_dec (Z.log2 x) (Z.log2 y)) as [Heq|Hne].
  - unfold round_ticks, excess. rewrite Heq.
    apply Z.mul_le_mono_nonneg_r; [apply Z.pow_nonneg; lia|].
    apply rne_mono; lia.
  - etransitivity; [apply round_ticks_upper; lia|].
    etransitivity; [|apply round_ticks_lower; lia].
    apply Z.pow_le_mono_r; lia.
Qed.

Lemma round_ticks_positive (x : Z) : 0 < x -> 0 < round_ticks x.
Proof.
  intros H. pose proof (round_ticks_lower x H).
  pose proof (pow2_pos (Z.log2 x) (Z.log2_nonneg x)). lia.
Qed.

(** The value of a double is its own rounding. *)
Lemma round_ticks_representable (m : positive) (e : Z) :
  bounded prec emax m e = true ->
  round_ticks (magnitude m e) = magnitude m e /\ magnitude m e < top.
Proof.
  intros Hb. destruct (bounded_digits _ _ Hb) as (He & Hd & Hn).
  destruct (bounded_inv _ _ Hb) as [_ Hmax]. unfold emax, prec in Hmax.
  pose proof (digits2_pos_bounds m) as [Hlo Hhi].
  assert (Hm53 : Zpos m < 2 ^ 53).
  { eapply Z.lt_le_trans; [exact Hhi|]. apply Z.pow_le_mono_r; lia. }
  assert (Hpe : 0 < 2 ^ (e + 1074)) by (apply Z.pow_pos_nonneg; lia).
  split.
  - unfold round_ticks, magnitude. rewrite excess_scaled by lia.
    destruct (Z.eq_dec e (-1074)) as [->|Hne].
    + rewrite Z.max_l by lia. change (-1074 + 1074) with 0.
      rewrite !Z.pow_0_r, !Z.mul_1_r.
      rewrite <- (Z.mul_1_r (Zpos m)) at 1. change 1 with (2 ^ 0) at 1.
      by apply rne_exact.
    + rewrite (Hn ltac:(lia)). rewrite Z.max_r by lia.
      replace (53 - 53 + (e + 1074)) with (e + 1074) by lia.
      rewrite rne_exact by lia. done.
  - unfold magnitude, top.
    assert (2 ^ (e + 1074) <= 2 ^ 2045) by (apply Z.pow_le_mono_r; lia).
    change (2 ^ 2098) with (2 ^ 53 * 2 ^ 2045).
    pose proof (pow2_pos 2045). nia.
Qed.

End RoundTicks.

Section RoundRank.

Import Double.

Lemma bounded_53 (q : positive) (t : Z) :
  2 ^ 52 <= Zpos q < 2 ^ 53 -> -1074 <= t <= 971 ->
  bounded prec emax q t = true.
Proof.
  intros Hq Ht. unfold bounded, canonical_mantissa.
  rewrite (digits2_pos_unique q 53) by (change (53 - 1) with 52; lia).
  rewrite fexp_normal by lia.
  apply andb_true_intro. split; [apply Z.eqb_eq; lia|apply Z.leb_le].
  unfold emax, prec. lia.
Qed.

Lemma top_split (t : Z) :
  -1074 <= t ->
  (t <= 971 -> 2 ^ 53 * 2 ^ (t + 1074) <= top)
  /\ (971 < t -> top <= 2 ^ 52 * 2 ^ (t + 1074)).
Proof.
  intros Ht. unfold top. split; intros H.
  - rewrite <- Z.pow_add_r by lia. apply Z.pow_le_mono_r; lia.
  - rewrite <- Z.pow_add_r by lia. apply Z.pow_le_mono_r; lia.
Qed.

(** The second half of [binary_round_aux] on a mantissa of 53 bits, or
    [2^53]: the double of that value, or the infinity when the exponent is
    too large. *)
Lemma round_finish_rank (s : bool) (q : positive) (t : Z) :
  2 ^ 52 <= Zpos q <= 2 ^ 53 -> -1074 <= t ->
  let x :=
    let '(mrs, e') := shr_fexp prec emax (Zpos q) t loc_Exact in
    match shr_m mrs with
    | Z0 => S754_zero s
    | Zpos m => if e' <=? emax - prec then S754_finite s m e' else S754_infinity s
    | Zneg _ => S754_nan
    end in
  number x /\ rank x = cond_Zopp s (Z.min top (Zpos q * 2 ^ (t + 1074))).
Proof.
  intros [Hlo Hhi] Ht. unfold shr_fexp. cbn [Zdigits2 shr_record_of_loc].
  assert (Hpt : 0 < 2 ^ (t + 1074)) by (apply Z.pow_pos_nonneg; lia).
  destruct (top_split t Ht) as [Htop1 Htop2].
  destruct (Pos.eq_dec q 9007199254740992%positive) as [->|Hne'].
  - clear Hlo Hhi. vm_compute digits2_pos.
    rewrite fexp_normal by lia.
    replace (54 + t - 53 - t) with 1 by lia.
    cbn [shr SpecFloat.iter_pos shr_1 shr_m].
    change (Z.pos 9007199254740992) with (2 ^ 53).
    change (Z.pos 4503599627370496) with (2 ^ 52).
    unfold emax, prec. change (1024 - 53) with 971.
    destruct (Z.leb_spec (t + 1) 971) as [Hle|Hgt].
    + split.
      * split; [|done]. apply (bounded_53 4503599627370496 (t + 1)).
        { change (Z.pos 4503599627370496) with (2 ^ 52).
          change (2 ^ 53) with (2 * 2 ^ 52). pose proof (pow2_pos 52 ltac:(lia)). lia. }
        lia.
      * cbn [rank ticks]. change (Z.pos 4503599627370496) with (2 ^ 52).
        assert (Hv : 2 ^ 52 * 2 ^ (t + 1 + 1074) = 2 ^ 53 * 2 ^ (t + 1074)).
        { rewrite <- !Z.pow_add_r by lia. f_equal. lia. }
        destruct (top_split (t + 1) ltac:(lia)) as [Htop3 _].
        specialize (Htop3 Hle).
        assert (2 ^ 53 * 2 ^ (t + 1074) < top).
        { rewrite <- Hv. clear Hv.
          assert (0 < 2 ^ 52 * 2 ^ (t + 1 + 1074)).
          { apply Z.mul_pos_pos; apply Z.pow_pos_nonneg; lia. }
          change (2 ^ 53) with (2 * 2 ^ 52) in Htop3. lia. }
        rewrite Z.min_r by lia.
        destruct s; cbn [cond_Zopp]; lia.
    + split; [done|]. cbn [rank].
      assert (top <= 2 ^ 53 * 2 ^ (t + 1074)).
      { destruct (Z.eq_dec t 971) as [->|Hn].
        - unfold top. vm_compute. discriminate.
        - change (2 ^ 53) with (2 * 2 ^ 52). pose proof (pow2_pos 52 ltac:(lia)).
          specialize (Htop2 ltac:(lia)). nia. }
      by rewrite Z.min_l by lia.
  - assert (Hne : Zpos q <> 2 ^ 53).
    { intros E. apply Hne'. change (2 ^ 53) with (Zpos 9007199254740992) in E.
      by injection E. }
    rewrite (digits2_pos_unique q 53) by (change (53 - 1) with 52; lia).
    rewrite fexp_normal by lia.
    replace (53 + t - 53 - t) with 0 by lia. cbn [shr shr_m].
    unfold emax, prec. change (1024 - 53) with 971.
    destruct (Z.leb_spec t 971) as [Hle|Hgt].
    + split.
      * split; [|done]. apply bounded_53; lia.
      * cbn [rank ticks].
        assert (Zpos q * 2 ^ (t + 1074) < top) by (specialize (Htop1 Hle); nia).
        rewrite Z.min_r by lia. destruct s; cbn [cond_Zopp]; lia.
    + split; [done|]. cbn [rank].
      assert (top <= Zpos q * 2 ^ (t + 1074)) by (specialize (Htop2 Hgt); nia).
      by rewrite Z.min_l by lia.
Qed.

End RoundRank.

Section BinaryRound.

Import Double.

Lemma digits_le_53 (m : positive) : Zpos m < 2 ^ 53 -> Zpos (digits2_pos m) <= 53.
Proof.
  intros H. pose proof (digits2_pos_bounds m) as [Hlo _].
  destruct (Z.le_gt_cases (Zpos (digits2_pos m)) 53) as [|Hgt]; [done|].
  assert (2 ^ 53 <= 2 ^ (Zpos (digits2_pos m) - 1)) by (apply Z.pow_le_mono_r; lia).
  lia.
Qed.

Lemma bounded_subnormal (m : positive) :
  Zpos m < 2 ^ 53 -> bounded prec emax m (-1074) = true.
Proof.
  intros H. pose proof (digits_le_53 m H).
  unfold bounded, canonical_mantissa, fexp, SpecFloat.emin, emax, prec.
  apply andb_true_intro. split; [apply Z.eqb_eq|apply Z.leb_le]; lia.
Qed.

(** Below [2^53] ticks every value is a double. *)
Lemma binary_round_small (s : bool) (p : positive) (e : Z) :
  -1074 <= e -> Zpos p * 2 ^ (e + 1074) < 2 ^ 53 ->
  binary_round prec emax s p e
  = S754_finite s (Z.to_pos (Zpos p * 2 ^ (e + 1074))) (-1074).
Proof.
  intros He Hx.
  assert (Hpos : 0 < Zpos p * 2 ^ (e + 1074)).
  { apply Z.mul_pos_pos; [lia|apply Z.pow_pos_nonneg; lia]. }
  apply binary_round_exact; [|done|].
  - apply bounded_subnormal. rewrite Z2Pos.id by done. done.
  - rewrite Z2Pos.id by done. change (-1074 + 1074) with 0.
    by rewrite Z.pow_0_r, Z.mul_1_r.
Qed.

(** In the normal range [binary_round] keeps a mantissa of 53 bits, or
    [2^53], whose value is the rounding of the value it is given. *)
Lemma binary_round_normal_eq (s : bool) (p : positive) (e : Z) :
  -1074 <= e ->
  -1074 <= Zpos (digits2_pos p) + e - 53 ->
  exists q : positive,
    2 ^ 52 <= Zpos q <= 2 ^ 53
    /\ Zpos q * 2 ^ (Zpos (digits2_pos p) + e - 53 + 1074)
       = round_ticks (Zpos p * 2 ^ (e + 1074))
    /\ binary_round prec emax s p e
       = (let '(mrs, e') :=
            shr_fexp prec emax (Zpos q) (Zpos (digits2_pos p) + e - 53) loc_Exact in
          match shr_m mrs with
          | Z0 => S754_zero s
          | Zpos m => if e' <=? emax - prec then S754_finite s m e' else S754_infinity s
          | Zneg _ => S754_nan
          end).
Proof.
  intros He Hn. pose proof (digits2_pos_bounds p) as [Hlo Hhi].
  set (j := e + 1074). assert (Hj : 0 <= j) by (unfold j; lia).
  assert (Hpj : 0 < 2 ^ j) by (apply Z.pow_pos_nonneg; lia).
  set (t := Zpos (digits2_pos p) + e - 53) in *.
  assert (Hexc : excess (Zpos p * 2 ^ j) = t + 1074).
  { rewrite excess_scaled by done. unfold t, j. lia. }
  unfold round_ticks. rewrite Hexc.
  unfold binary_round. fold t. rewrite fexp_normal by done. fold t.
  unfold shl_align.
  replace (t - e) with (Zpos (digits2_pos p) - 53) by (unfold t; lia).
  destruct (Zpos (digits2_pos p) - 53) as [|k|jj] eqn:Hd.
  - (* 53 bits already *)
    exists p. split; [|split].
    + replace (Zpos (digits2_pos p)) with 53 in * by lia.
      change (53 - 1) with 52 in Hlo. lia.
    + replace (t + 1074) with j by (unfold t, j; lia). by rewrite rne_exact.
    + unfold binary_round_aux.
      unfold shr_fexp at 1. cbn [Zdigits2 shr_record_of_loc].
      rewrite fexp_normal by (fold t; done). fold t.
      replace (t - e) with 0 by (unfold t; lia).
      cbn [shr shr_m loc_of_shr_record round_nearest_even].
      replace t with e by (unfold t; lia). done.
  - (* more than 53 bits: shifted right, then rounded *)
    assert (Hb : 2 ^ 52 <= Zpos p / 2 ^ Zpos k < 2 ^ 53).
    { replace (Zpos (digits2_pos p)) with (53 + Zpos k) in * by lia.
      replace (53 + Zpos k - 1) with (52 + Zpos k) in Hlo by lia.
      rewrite !Z.pow_add_r in * by lia.
      assert (0 < 2 ^ Zpos k) by (apply Z.pow_pos_nonneg; lia).
      split.
      - apply Z.div_le_lower_bound; lia.
      - apply Z.div_lt_upper_bound; lia. }
    pose proof (rne_bounds (Zpos p) (Zpos k)) as Hq.
    destruct (rne (Zpos p) (Zpos k)) as [|q|q] eqn:Hq'; try lia.
    exists q. split; [lia|split].
    + replace (t + 1074) with (Zpos k + j) by (unfold t, j; lia).
      rewrite rne_scale by lia. by rewrite Hq'.
    + unfold binary_round_aux.
      unfold shr_fexp at 1. cbn [Zdigits2 shr_record_of_loc].
      rewrite fexp_normal by (fold t; done). fold t.
      replace (t - e) with (Zpos k) by (unfold t; lia).
      cbn [shr].
      pose proof (round_nearest_even_rne (Zpos p) k ltac:(lia)) as Hr.
      cbv zeta in Hr. rewrite Hr, Hq'.
      replace (e + Zpos k) with t by (unfold t; lia). done.
  - (* fewer than 53 bits: shifted left *)
    exists (Pos.iter xO p jj). split; [|split].
    + rewrite iter_xO_value.
      replace (Zpos jj) with (53 - Zpos (digits2_pos p)) by lia.
      assert (Hpow : 2 ^ (Zpos (digits2_pos p) - 1) * 2 ^ (53 - Zpos (digits2_pos p))
                     = 2 ^ 52).
      { rewrite <- Z.pow_add_r by lia. f_equal. lia. }
      assert (Hpow' : 2 ^ Zpos (digits2_pos p) * 2 ^ (53 - Zpos (digits2_pos p))
                      = 2 ^ 53).
      { rewrite <- Z.pow_add_r by lia. f_equal. lia. }
      assert (0 < 2 ^ (53 - Zpos (digits2_pos p))) by (apply Z.pow_pos_nonneg; lia).
      nia.
    + assert (Hsplit : Zpos p * 2 ^ j = Zpos (Pos.iter xO p jj) * 2 ^ (t + 1074)).
      { rewrite iter_xO_value, <- Z.mul_assoc, <- Z.pow_add_r by (unfold t; lia).
        f_equal. f_equal. unfold t, j. lia. }
      rewrite Hsplit. by rewrite rne_exact by (unfold t; lia).
    + unfold binary_round_aux.
      unfold shr_fexp at 1. cbn [Zdigits2 shr_record_of_loc].
      rewrite iter_xO_digits.
      rewrite fexp_normal by lia.
      replace (Z.pos (digits2_pos p + jj) + t - 53 - t) with 0 by lia.
      cbn [shr shr_m loc_of_shr_record round_nearest_even]. done.
Qed.

Lemma binary_round_rank (s : bool) (p : positive) (e : Z) :
  -1074 <= e ->
  number (binary_round prec emax s p e)
  /\ rank (binary_round prec emax s p e)
     = cond_Zopp s (Z.min top (round_ticks (Zpos p * 2 ^ (e + 1074)))).
Proof.
  intros He.
  destruct (Z.lt_ge_cases (Zpos (digits2_pos p) + e - 53) (-1074)) as [Hsub|Hn].
  - (* below the normal range *)
    pose proof (digits2_pos_bounds p) as [Hlo Hhi].
    set (j := e + 1074). assert (Hj : 0 <= j) by (unfold j; lia).
    assert (Hpj : 0 < 2 ^ j) by (apply Z.pow_pos_nonneg; lia).
    assert (Hx : Zpos p * 2 ^ j < 2 ^ 53).
    { assert (2 ^ Zpos (digits2_pos p) * 2 ^ j <= 2 ^ 53).
      { rewrite <- Z.pow_add_r by lia. apply Z.pow_le_mono_r; unfold j; lia. }
      nia. }
    rewrite binary_round_small by done. fold j.
    assert (Hpos : 0 < Zpos p * 2 ^ j) by (apply Z.mul_pos_pos; lia).
    split.
    + split; [|done]. apply bounded_subnormal. by rewrite Z2Pos.id.
    + cbn [rank ticks]. rewrite Z2Pos.id by done.
      change (-1074 + 1074) with 0. rewrite Z.pow_0_r, Z.mul_1_r.
      rewrite round_ticks_small by lia.
      assert (2 ^ 53 < top) by (unfold top; apply Z.pow_lt_mono_r; lia).
      by rewrite Z.min_r by lia.
  - (* the normal range *)
    destruct (binary_round_normal_eq s p e He Hn) as (q & Hq & Hv & ->).
    rewrite <- Hv. apply round_finish_rank; lia.
Qed.

Lemma round_rank_0 : round_rank 0 = 0.
Proof. done. Qed.

Lemma normalize_rank (z e : Z) :
  -1074 <= e ->
  number (binary_normalize prec emax z e false)
  /\ rank (binary_normalize prec emax z e false) = round_rank (z * 2 ^ (e + 1074)).
Proof.
  intros He. assert (Hp : 0 < 2 ^ (e + 1074)) by (apply Z.pow_pos_nonneg; lia).
  destruct z as [|p|p]; cbn [binary_normalize].
  - done.
  - destruct (binary_round_rank false p e He) as [Hn Hr]. split; [done|].
    rewrite Hr. unfold round_rank. cbn [cond_Zopp].
    rewrite Z.sgn_pos by lia. rewrite Z.abs_eq by lia. lia.
  - destruct (binary_round_rank true p e He) as [Hn Hr]. split; [done|].
    rewrite Hr. unfold round_rank. cbn [cond_Zopp].
    assert (Hneg : Z.neg p * 2 ^ (e + 1074) < 0) by nia.
    rewrite Z.sgn_neg by lia. rewrite Z.abs_neq by lia.
    replace (- (Z.neg p * 2 ^ (e + 1074))) with (Zpos p * 2 ^ (e + 1074)) by lia.
    lia.
Qed.

End BinaryRound.

Section Ranks.

Import Double.

Lemma top_pos : 0 < top.
Proof. unfold top. apply Z.pow_pos_nonneg; lia. Qed.

Lemma round_ticks_nonneg (x : Z) : 0 <= x -> 0 <= round_ticks x.
Proof.
  intros H. rewrite <- round_ticks_0. by apply round_ticks_mono.
Qed.

Lemma round_rank_nonneg (z : Z) :
  0 <= z -> round_rank z = Z.min top (round_ticks z).
Proof.
  intros H. unfold round_rank. destruct (Z.eq_dec z 0) as [->|Hne].
  - change (Z.abs 0) with 0. change (- 0) with 0. change (Z.sgn 0) with 0.
    rewrite round_ticks_0. pose proof top_pos. lia.
  - rewrite Z.sgn_pos, Z.abs_eq by lia. lia.
Qed.

Lemma round_rank_nonpos (z : Z) :
  z <= 0 -> round_rank z = - Z.min top (round_ticks (- z)).
Proof.
  intros H. unfold round_rank. destruct (Z.eq_dec z 0) as [->|Hne].
  - change (Z.abs 0) with 0. change (- 0) with 0. change (Z.sgn 0) with 0.
    rewrite round_ticks_0. pose proof top_pos. lia.
  - rewrite Z.sgn_neg, Z.abs_neq by lia. lia.
Qed.

(** Rounding keeps the order. *)
Lemma round_rank_mono (z z' : Z) : z <= z' -> round_rank z <= round_rank z'.
Proof.
  intros H. pose proof top_pos as Ht.
  destruct (Z.le_gt_cases 0 z) as [Hz|Hz].
  - rewrite !round_rank_nonneg by lia.
    pose proof (round_ticks_mono z z' Hz H). lia.
  - destruct (Z.le_gt_cases z' 0) as [Hz'|Hz'].
    + rewrite !round_rank_nonpos by lia.
      pose proof (round_ticks_mono (- z') (- z) ltac:(lia) ltac:(lia)). lia.
    + rewrite round_rank_nonpos, round_rank_nonneg by lia.
      pose proof (round_ticks_nonneg (- z) ltac:(lia)).
      pose proof (round_ticks_nonneg z' ltac:(lia)). lia.
Qed.

Lemma ticks_magnitude (s : bool) (m : positive) (e : Z) :
  ticks (S754_finite s m e) = cond_Zopp s (magnitude m e).
Proof. unfold magnitude. destruct s; cbn [ticks cond_Zopp]; lia. Qed.

Lemma magnitude_pos (m : positive) (e : Z) : -1074 <= e -> 0 < magnitude m e.
Proof.
  intros He. unfold magnitude. apply Z.mul_pos_pos; [lia|].
  apply Z.pow_pos_nonneg; lia.
Qed.

(** A number that is not an infinity is below [top], and it is its own
    rounding. *)
Lemma rank_finite (x : double) :
  number x -> is_finite x = true ->
  - top < rank x < top /\ round_rank (rank x) = rank x.
Proof.
  intros [Hv _] Hf. pose proof top_pos.
  destruct x as [s|s| |s m e]; try discriminate.
  - cbn. split; [lia|done].
  - cbn [valid valid_binary] in Hv.
    destruct (round_ticks_representable m e Hv) as [Hr Hlt].
    destruct (bounded_digits _ _ Hv) as (He & _).
    pose proof (magnitude_pos m e He).
    cbn [rank]. rewrite ticks_magnitude. destruct s; cbn [cond_Zopp].
    + split; [lia|]. rewrite round_rank_nonpos by lia.
      rewrite Z.opp_involutive, Hr. lia.
    + split; [lia|]. rewrite round_rank_nonneg by lia. rewrite Hr. lia.
Qed.

Lemma rank_bounded_finite (x : double) :
  number x -> - top < rank x < top -> is_finite x = true.
Proof.
  intros [_ Hn] Hr. destruct x as [s|s| |s m e]; try done.
  destruct s; cbn [rank cond_Zopp] in Hr; lia.
Qed.

(** The comparison of two numbers is the comparison of their ranks. *)
Lemma compare_rank (x y : double) :
  number x -> number y -> SFcompare x y = Some (rank x ?= rank y).
Proof.
  intros Hx Hy. pose proof top_pos as Ht.
  destruct (is_finite x) eqn:Hfx, (is_finite y) eqn:Hfy.
  - (* two finite numbers *)
    destruct x as [sx|sx| |sx mx ex], y as [sy|sy| |sy my ey]; try discriminate.
    + done.
    + destruct Hy as [Hvy _]. cbn [valid valid_binary] in Hvy.
      destruct (bounded_digits _ _ Hvy) as (He & _).
      pose proof (magnitude_pos my ey He).
      cbn [SFcompare rank]. rewrite ticks_magnitude. f_equal. symmetry.
      destruct sy; cbn [cond_Zopp ticks].
      * apply Z.compare_gt_iff. lia.
      * apply Z.compare_lt_iff. lia.
    + destruct Hx as [Hvx _]. cbn [valid valid_binary] in Hvx.
      destruct (bounded_digits _ _ Hvx) as (He & _).
      pose proof (magnitude_pos mx ex He).
      cbn [SFcompare rank]. rewrite ticks_magnitude. f_equal. symmetry.
      destruct sx; cbn [cond_Zopp ticks].
      * apply Z.compare_lt_iff. lia.
      * apply Z.compare_gt_iff. lia.
    + apply compare_ticks; [apply Hx|apply Hy].
  - (* a finite number and an infinity *)
    destruct (rank_finite x Hx Hfx) as [Hr _].
    destruct y as [sy|sy| |sy my ey]; try discriminate; [|by destruct Hy].
    destruct x as [sx|sx| |sx mx ex]; try discriminate;
      cbn [SFcompare]; f_equal; symmetry; destruct sy; cbn [rank cond_Zopp] in *;
      (apply Z.compare_gt_iff; lia) || (apply Z.compare_lt_iff; lia).
  - destruct (rank_finite y Hy Hfy) as [Hr _].
    destruct x as [sx|sx| |sx mx ex]; try discriminate; [|by destruct Hx].
    destruct y as [sy|sy| |sy my ey]; try discriminate;
      cbn [SFcompare]; f_equal; symmetry; destruct sx; cbn [rank cond_Zopp] in *;
      (apply Z.compare_gt_iff; lia) || (apply Z.compare_lt_iff; lia).
  - destruct x as [sx|sx| |sx mx ex]; try discriminate; [|by destruct Hx].
    destruct y as [sy|sy| |sy my ey]; try discriminate; [|by destruct Hy].
    cbn [SFcompare rank]. f_equal. symmetry.
    destruct sx, sy; cbn [cond_Zopp].
    + apply Z.compare_refl.
    + apply Z.compare_lt_iff. lia.
    + apply Z.compare_gt_iff. lia.
    + apply Z.compare_refl.
Qed.

Lemma leb_rank (x y : double) :
  number x -> number y -> leb x y = (rank x <=? rank y).
Proof.
  intros Hx Hy. unfold leb, SFleb, Z.leb. rewrite compare_rank by done.
  by destruct (rank x ?= rank y).
Qed.

Lemma ltb_rank (x y : double) :
  number x -> number y -> ltb x y = (rank x <? rank y).
Proof.
  intros Hx Hy. unfold ltb, SFltb, Z.ltb. rewrite compare_rank by done.
  by destruct (rank x ?= rank y).
Qed.

(** The difference and the sum of two finite numbers: the nearest
    double. *)
Lemma sub_rank (x y : double) :
  number x -> number y -> is_finite x = true -> is_finite y = true ->
  number (sub x y) /\ rank (sub x y) = round_rank (rank x - rank y).
Proof.
  intros Hx Hy Hfx Hfy.
  destruct (rank_finite x Hx Hfx) as [_ Hrx].
  destruct (rank_finite y Hy Hfy) as [_ Hry].
  destruct x as [sx|sx| |sx mx ex], y as [sy|sy| |sy my ey]; try discriminate.
  - by destruct sx, sy.
  - unfold sub. cbn [SFsub].
    assert (Hn' : number (S754_finite (negb sy) my ey)) by (split; [apply Hy|done]).
    split; [exact Hn'|].
    destruct (rank_finite _ Hn' eq_refl) as [_ Hr].
    assert (Hopp : rank (S754_finite (negb sy) my ey)
                   = rank (S754_zero sx) - rank (S754_finite sy my ey)).
    { cbn [rank]. rewrite !ticks_magnitude. cbn [ticks].
      destruct sy; cbn [negb cond_Zopp]; lia. }
    rewrite <- Hopp. by rewrite Hr.
  - unfold sub. cbn [SFsub]. split; [done|].
    change (rank (S754_zero sy)) with 0. by rewrite Z.sub_0_r, Hrx.
  - destruct Hx as [Hvx _], Hy as [Hvy _]. cbn [valid valid_binary] in Hvx, Hvy.
    destruct (bounded_digits _ _ Hvx) as (Hex & _).
    destruct (bounded_digits _ _ Hvy) as (Hey & _).
    unfold sub. cbn [SFsub]. cbv zeta.
    destruct (normalize_rank
                (cond_Zopp sx (Zpos (fst (shl_align mx ex (Z.min ex ey))))
                 - cond_Zopp sy (Zpos (fst (shl_align my ey (Z.min ex ey)))))
                (Z.min ex ey) ltac:(lia)) as [Hn Hr].
    split; [exact Hn|]. rewrite Hr.
    rewrite Z.mul_sub_distr_r, !aligned_ticks by lia. done.
Qed.

Lemma add_rank (x y : double) :
  number x -> number y -> is_finite x = true -> is_finite y = true ->
  number (add x y) /\ rank (add x y) = round_rank (rank x + rank y).
Proof.
  intros Hx Hy Hfx Hfy.
  destruct (rank_finite x Hx Hfx) as [_ Hrx].
  destruct (rank_finite y Hy Hfy) as [_ Hry].
  destruct x as [sx|sx| |sx mx ex], y as [sy|sy| |sy my ey]; try discriminate.
  - by destruct sx, sy.
  - unfold add. cbn [SFadd]. split; [done|].
    change (rank (S754_zero sx)) with 0. by rewrite Z.add_0_l, Hry.
  - unfold add. cbn [SFadd]. split; [done|].
    change (rank (S754_zero sy)) with 0. by rewrite Z.add_0_r, Hrx.
  - destruct Hx as [Hvx _], Hy as [Hvy _]. cbn [valid valid_binary] in Hvx, Hvy.
    destruct (bounded_digits _ _ Hvx) as (Hex & _).
    destruct (bounded_digits _ _ Hvy) as (Hey & _).
    unfold add. cbn [SFadd]. cbv zeta.
    destruct (normalize_rank
                (cond_Zopp sx (Zpos (fst (shl_align mx ex (Z.min ex ey))))
                 + cond_Zopp sy (Zpos (fst (shl_align my ey (Z.min ex ey)))))
                (Z.min ex ey) ltac:(lia)) as [Hn Hr].
    split; [exact Hn|]. rewrite Hr.
    rewrite Z.mul_add_distr_r, !aligned_ticks by lia. done.
Qed.

End Ranks.

Section Markers.

Import Double.

(** One second, in ticks. *)
Lemma rank_Tc : rank RFP_CONVERGENCE_TIME_TC = 2 * 2 ^ 1074.
Proof. vm_compute. reflexivity. Qed.

Lemma rank_dT : 2 * rank RFP_SAFETY_MARGIN_DT = 2 ^ 1074.
Proof. vm_compute. reflexivity. Qed.

Lemma rank_two_dT : rank (mul (of_int 2) RFP_SAFETY_MARGIN_DT) = 2 ^ 1074.
Proof. vm_compute. reflexivity. Qed.

Lemma rank_three : rank (of_int 3) = 3 * 2 ^ 1074.
Proof. vm_compute. reflexivity. Qed.

Lemma number_Tc : number RFP_CONVERGENCE_TIME_TC.
Proof. by vm_compute. Qed.

Lemma number_dT : number RFP_SAFETY_MARGIN_DT.
Proof. by vm_compute. Qed.

Lemma number_two_dT : number (mul (of_int 2) RFP_SAFETY_MARGIN_DT).
Proof. by vm_compute. Qed.

Lemma round_rank_one : round_rank (2 ^ 1074) = 2 ^ 1074.
Proof.
  change (2 ^ 1074) with (rank (of_int 1)).
  apply rank_finite; by vm_compute.
Qed.

Lemma round_rank_zero : round_rank 0 = 0.
Proof. done. Qed.

(** The two subtractions that give T1, from a finite T0 at or after the
    boundary: no intermediate result leaves the numbers, and T1 is not
    negative. *)
Lemma unclamped_T1 (t0 : double) :
  number t0 -> is_finite t0 = true -> 3 * 2 ^ 1074 <= rank t0 ->
  let u := sub t0 RFP_CONVERGENCE_TIME_TC in
  let t1 := sub u (mul (of_int 2) RFP_SAFETY_MARGIN_DT) in
  number u /\ is_finite u = true /\ number t1
  /\ rank u = round_rank (rank t0 - 2 * 2 ^ 1074)
  /\ rank t1 = round_rank (rank u - 2 ^ 1074)
  /\ 2 ^ 1074 <= rank u <= rank t0
  /\ 0 <= rank t1 <= rank u.
Proof.
  intros Hn Hf Ht u t1.
  destruct (rank_finite t0 Hn Hf) as [Hb Hr].
  pose proof (pow2_pos 1074 ltac:(lia)) as Hs.
  destruct (sub_rank t0 RFP_CONVERGENCE_TIME_TC Hn number_Tc Hf eq_refl) as [Hnu Hru].
  fold u in Hnu, Hru. rewrite rank_Tc in Hru.
  assert (Hu : 2 ^ 1074 <= rank u <= rank t0).
  { rewrite Hru. split.
    - rewrite <- round_rank_one at 1. apply round_rank_mono. lia.
    - rewrite <- Hr at 2. apply round_rank_mono. lia. }
  assert (Hfu : is_finite u = true).
  { apply rank_bounded_finite; [done|]. lia. }
  destruct (rank_finite u Hnu Hfu) as [_ Hru'].
  destruct (sub_rank u (mul (of_int 2) RFP_SAFETY_MARGIN_DT) Hnu number_two_dT Hfu eq_refl)
    as [Hn1 Hr1].
  fold t1 in Hn1, Hr1. rewrite rank_two_dT in Hr1.
  assert (H1 : 0 <= rank t1 <= rank u).
  { rewrite Hr1. split.
    - rewrite <- round_rank_zero. apply round_rank_mono. lia.
    - rewrite <- Hru' at 2. apply round_rank_mono. lia. }
  done.
Qed.

Lemma unclamped_guard (t0 : double) :
  valid t0 = true ->
  ltb t0 (of_int 3) = false ->
  ltb (sub (sub t0 RFP_CONVERGENCE_TIME_TC) (mul (of_int 2) RFP_SAFETY_MARGIN_DT))
      (of_int 0) = false.
Proof.
  intros Hv Hlt.
  destruct t0 as [s|s| |s m e].
  - by destruct s.
  - by destruct s.
  - done.
  - assert (Hn : number (S754_finite s m e)) by done.
    rewrite ltb_rank in Hlt by (done || by vm_compute).
    rewrite rank_three in Hlt. apply Z.ltb_ge in Hlt.
    destruct (unclamped_T1 _ Hn eq_refl Hlt) as (_ & _ & Hn1 & _ & _ & _ & H1).
    rewrite ltb_rank by (done || by vm_compute).
    apply Z.ltb_ge. change (rank (of_int 0)) with 0. lia.
Qed.

End Markers.

(** ** The timeline, for every double *)

Section MarkersForAll.

Import Double.

Lemma boundary_value :
  add RFP_CONVERGENCE_TIME_TC (mul (of_int 2) RFP_SAFETY_MARGIN_DT) = of_int 3.
Proof. vm_compute. reflexivity. Qed.

(** The constructor, for every double: one test decides. *)
Lemma constructor_cases (lid a b : Z) (t0 : double) :
  valid t0 = true ->
  NewPredictableLinkDownEvent lid a b t0
  = if ltb t0 (of_int 3)
    then {| linkId := lid; nodeA := a; nodeB := b;
            T0 := lit 31 10; T1 := lit 1 10; T2 := lit 26 10; T3 := lit 36 10;
            active := true |}
    else {| linkId := lid; nodeA := a; nodeB := b;
            T0 := t0;
            T1 := sub (sub t0 RFP_CONVERGENCE_TIME_TC)
                      (mul (of_int 2) RFP_SAFETY_MARGIN_DT);
            T2 := sub t0 RFP_SAFETY_MARGIN_DT;
            T3 := add t0 RFP_SAFETY_MARGIN_DT;
            active := true |}.
Proof.
  intros Hv. destruct (ltb t0 (of_int 3)) eqn:Hlt.
  - apply clamped_below_boundary; [done|]. by rewrite boundary_value.
  - unfold NewPredictableLinkDownEvent. cbv zeta.
    by rewrite (unclamped_guard t0 Hv Hlt).
Qed.

(** The clamp, for every double: the constructor replaces the markers
    exactly when T0 is before [Tc + 2 * dT], and then by the same four
    values whatever T0 was; from the boundary on, and for a T0 that is
    not a number, it keeps T0 and the three markers computed from it. *)
Theorem clamped_iff_before_boundary (lid a b : Z) (t0 : double) :
  valid t0 = true ->
  NewPredictableLinkDownEvent lid a b t0
  = if ltb t0 (add RFP_CONVERGENCE_TIME_TC (mul (of_int 2) RFP_SAFETY_MARGIN_DT))
    then {| linkId := lid; nodeA := a; nodeB := b;
            T0 := lit 31 10; T1 := lit 1 10; T2 := lit 26 10; T3 := lit 36 10;
            active := true |}
    else {| linkId := lid; nodeA := a; nodeB := b;
            T0 := t0;
            T1 := sub (sub t0 RFP_CONVERGENCE_TIME_TC)
                      (mul (of_int 2) RFP_SAFETY_MARGIN_DT);
            T2 := sub t0 RFP_SAFETY_MARGIN_DT;
            T3 := add t0 RFP_SAFETY_MARGIN_DT;
            active := true |}.
Proof. intros Hv. rewrite boundary_value. by apply constructor_cases. Qed.

Lemma clamped_iff_before_boundary_witness :
  T1 (NewPredictableLinkDownEvent 1 0 1 (lit 29 10)) = lit 1 10
  /\ T0 (NewPredictableLinkDownEvent 1 0 1 (lit 39 10)) = lit 39 10.
Proof.
  split.
  - rewrite (clamped_iff_before_boundary 1 0 1 (lit 29 10)); [|by vm_compute].
    by vm_compute.
  - rewrite (clamped_iff_before_boundary 1 0 1 (lit 39 10)); [|by vm_compute].
    by vm_compute.
Defined.

Lemma markers_ordered_finite (t0 : double) :
  number t0 -> is_finite t0 = true -> 3 * 2 ^ 1074 <= rank t0 ->
  let t1 := sub (sub t0 RFP_CONVERGENCE_TIME_TC)
                (mul (of_int 2) RFP_SAFETY_MARGIN_DT) in
  let t2 := sub t0 RFP_SAFETY_MARGIN_DT in
  let t3 := add t0 RFP_SAFETY_MARGIN_DT in
  number t1 /\ number t2 /\ number t3
  /\ rank t1 <= rank t2 /\ rank t2 <= rank t0 /\ rank t0 <= rank t3.
Proof.
  intros Hn Hf Ht t1 t2 t3.
  destruct (unclamped_T1 t0 Hn Hf Ht) as (Hnu & Hfu & Hn1 & Hru & Hr1 & Hu & H1).
  fold t1 in Hn1, Hr1, H1.
  destruct (rank_finite t0 Hn Hf) as [Hb Hr].
  pose proof (pow2_pos 1074 ltac:(lia)) as Hs.
  pose proof rank_dT as HdT.
  destruct (sub_rank t0 RFP_SAFETY_MARGIN_DT Hn number_dT Hf eq_refl) as [Hn2 Hr2].
  destruct (add_rank t0 RFP_SAFETY_MARGIN_DT Hn number_dT Hf eq_refl) as [Hn3 Hr3].
  fold t2 in Hn2, Hr2. fold t3 in Hn3, Hr3.
  assert (H2 : rank (sub t0 RFP_CONVERGENCE_TIME_TC) <= rank t2 <= rank t0).
  { rewrite Hru, Hr2. split.
    - apply round_rank_mono. lia.
    - rewrite <- Hr at 2. apply round_rank_mono. lia. }
  assert (H3 : rank t0 <= rank t3).
  { rewrite Hr3. rewrite <- Hr at 1. apply round_rank_mono. lia. }
  repeat split; try apply Hn1; try apply Hn2; try apply Hn3; lia.
Qed.

(** The order of the markers, for every T0 that is a number: the event
    that the constructor builds has T1 <= T2 <= T0 <= T3, whatever the
    subtractions and the addition round to. *)
Theorem markers_ordered (lid a b : Z) (t0 : double) :
  valid t0 = true -> is_nan t0 = false ->
  let event := NewPredictableLinkDownEvent lid a b t0 in
  leb (T1 event) (T2 event) = true
  /\ leb (T2 event) (T0 event) = true
  /\ leb (T0 event) (T3 event) = true.
Proof.
  intros Hv Hnan event. unfold event. rewrite constructor_cases by done.
  destruct (ltb t0 (of_int 3)) eqn:Hlt; [by vm_compute|].
  cbn [T0 T1 T2 T3].
  destruct t0 as [s|s| |s m e].
  - destruct s; vm_compute in Hlt; discriminate.
  - destruct s; [vm_compute in Hlt; discriminate|by vm_compute].
  - discriminate.
  - assert (Hn : number (S754_finite s m e)) by done.
    rewrite ltb_rank in Hlt by (done || by vm_compute).
    rewrite rank_three in Hlt. apply Z.ltb_ge in Hlt.
    destruct (markers_ordered_finite _ Hn eq_refl Hlt)
      as (Hn1 & Hn2 & Hn3 & H12 & H20 & H03).
    rewrite !leb_rank by done.
    repeat split; by apply Z.leb_le.
Qed.

Lemma markers_ordered_witness :
  let event := NewPredictableLinkDownEvent 1 0 1 (lit 39 10) in
  sub (T3 event) (T1 event)
  <> add RFP_CONVERGENCE_TIME_TC (mul (of_int 3) RFP_SAFETY_MARGIN_DT)
  /\ leb (T1 event) (T2 event) = true
  /\ leb (T2 event) (T0 event) = true
  /\ leb (T0 event) (T3 event) = true.
Proof.
  cbv zeta. split; [by vm_compute|].
  apply (markers_ordered 1 0 1 (lit 39 10)); by vm_compute.
Defined.

End MarkersForAll.

Section Scheduling.

Import Double.

(** The double that follows 3.0 is [3 + 2^-51]. *)
Lemma above_three (t0 : double) :
  number t0 -> is_finite t0 = true -> 3 * 2 ^ 1074 < rank t0 ->
  3 * 2 ^ 1074 + 2 ^ 1023 <= rank t0.
Proof.
  intros [Hv _] Hf Hlt. pose proof (pow2_pos 1074 ltac:(lia)) as Hs.
  destruct t0 as [s|s| |s m e]; try discriminate.
  cbn [valid valid_binary] in Hv.
  destruct (bounded_digits _ _ Hv) as (He & Hd & _).
  pose proof (digits2_pos_bounds m) as [_ Hhi].
  assert (Hm53 : Zpos m < 2 ^ 53).
  { eapply Z.lt_le_trans; [exact Hhi|]. apply Z.pow_le_mono_r; lia. }
  cbn [rank] in *. rewrite ticks_magnitude in *.
  pose proof (magnitude_pos m e He) as Hmag.
  destruct s; cbn [cond_Zopp] in *; [lia|]. unfold magnitude in *.
  assert (Hexp : 1023 <= e + 1074).
  { destruct (Z.le_gt_cases 1023 (e + 1074)) as [|Hsmall]; [done|].
    assert (2 ^ (e + 1074) <= 2 ^ 1022) by (apply Z.pow_le_mono_r; lia).
    assert (Hc : 2 ^ 53 * 2 ^ 1022 = 2 * 2 ^ 1074) by (vm_compute; reflexivity).
    pose proof (pow2_pos 1022 ltac:(lia)).
    pose proof (pow2_pos (e + 1074) ltac:(lia)). nia. }
  replace (e + 1074) with ((e + 51) + 1023) in * by lia.
  rewrite Z.pow_add_r in * by lia.
  assert (Hc3 : 3 * 2 ^ 1074 = 3 * 2 ^ 51 * 2 ^ 1023) by (vm_compute; reflexivity).
  rewrite Hc3 in *.
  pose proof (pow2_pos 1023 ltac:(lia)) as H1023.
  pose proof (pow2_pos (e + 51) ltac:(lia)) as He51.
  assert (3 * 2 ^ 51 < Zpos m * 2 ^ (e + 51)) by nia.
  nia.
Qed.

Lemma round_rank_above_one : round_rank (2 ^ 1074 + 2 ^ 1023) = 2 ^ 1074 + 2 ^ 1023.
Proof.
  change (2 ^ 1074 + 2 ^ 1023)
    with (rank (S754_finite false 4503599627370498 (-52))).
  apply rank_finite; by vm_compute.
Qed.

Lemma round_rank_ulp : round_rank (2 ^ 1023) = 2 ^ 1023.
Proof.
  change (2 ^ 1023) with (rank (S754_finite false 4503599627370496 (-103))).
  apply rank_finite; by vm_compute.
Qed.

(** T1 is positive exactly when T0 is a number other than the
    boundary. *)
Lemma T1_positive (lid a b : Z) (t0 : double) :
  valid t0 = true ->
  ltb (of_int 0) (T1 (NewPredictableLinkDownEvent lid a b t0))
  = ltb t0 (of_int 3) || ltb (of_int 3) t0.
Proof.
  intros Hv. rewrite constructor_cases by done.
  destruct (ltb t0 (of_int 3)) eqn:Hlt; [by vm_compute|].
  cbn [T1 orb].
  destruct t0 as [s|s| |s m e].
  - destruct s; vm_compute in Hlt; discriminate.
  - destruct s; [vm_compute in Hlt; discriminate|by vm_compute].
  - by vm_compute.
  - assert (Hn : number (S754_finite s m e)) by done.
    rewrite ltb_rank in Hlt by (done || by vm_compute).
    rewrite rank_three in Hlt. apply Z.ltb_ge in Hlt.
    destruct (unclamped_T1 _ Hn eq_refl Hlt) as (Hnu & Hfu & Hn1 & Hru & Hr1 & Hu & H1).
    rewrite !ltb_rank by (done || by vm_compute).
    rewrite rank_three. change (rank (of_int 0)) with 0.
    pose proof (pow2_pos 1074 ltac:(lia)) as Hs.
    pose proof (pow2_pos 1023 ltac:(lia)) as Hs'.
    destruct (Z.ltb_spec (3 * 2 ^ 1074) (rank (S754_finite s m e))) as [Hgt|Hle].
    + apply Z.ltb_lt. pose proof (above_three _ Hn eq_refl Hgt) as Ha.
      assert (Hu' : 2 ^ 1074 + 2 ^ 1023
                    <= rank (sub (S754_finite s m e) RFP_CONVERGENCE_TIME_TC)).
      { rewrite Hru. rewrite <- round_rank_above_one. apply round_rank_mono. lia. }
      rewrite Hr1.
      assert (round_rank (2 ^ 1023)
              <= round_rank (rank (sub (S754_finite s m e) RFP_CONVERGENCE_TIME_TC)
                             - 2 ^ 1074)) by (apply round_rank_mono; lia).
      rewrite round_rank_ulp in *. lia.
    + apply Z.ltb_ge.
      assert (Heq : rank (S754_finite s m e) = 3 * 2 ^ 1074) by lia.
      rewrite Hr1, Hru, Heq.
      replace (3 * 2 ^ 1074 - 2 * 2 ^ 1074) with (2 ^ 1074) by lia.
      rewrite round_rank_one, Z.sub_diag. done.
Qed.

(** [SchedulePredictableLinkDown] with valid identifiers, for every
    double. *)
Lemma schedule_cases (totalNodes lid a b : Z) (t0 : double)
    (c : Controller.SatnetOspfController) :
  ValidateNodeIndices totalNodes a b = true ->
  valid t0 = true ->
  let event := NewPredictableLinkDownEvent lid a b t0 in
  Controller.SchedulePredictableLinkDown totalNodes lid a b t0 c
  = if ltb t0 (of_int 3) || ltb (of_int 3) t0 then
      ({| Controller.m_tmm := TMM.AddPredictableLinkDown lid a b t0 (Controller.m_tmm c);
          Controller.m_ldm := Controller.m_ldm c;
          Controller.m_rmm := Controller.m_rmm c;
          Controller.m_analyzer := Controller.m_analyzer c;
          Controller.m_eventCounter := u32 (Controller.m_eventCounter c + 1);
          Controller.m_lastEventTime := Controller.m_lastEventTime c;
          Controller.m_totalQuaggaModifications :=
            Controller.m_totalQuaggaModifications c |},
       Scenario.timeline a b event)
    else
      ({| Controller.m_tmm := TMM.AddPredictableLinkDown lid a b t0 (Controller.m_tmm c);
          Controller.m_ldm := Controller.m_ldm c;
          Controller.m_rmm := Controller.m_rmm c;
          Controller.m_analyzer := Controller.m_analyzer c;
          Controller.m_eventCounter := Controller.m_eventCounter c;
          Controller.m_lastEventTime := Controller.m_lastEventTime c;
          Controller.m_totalQuaggaModifications :=
            Controller.m_totalQuaggaModifications c |}, []).
Proof.
  intros Hval Hv event.
  unfold Controller.SchedulePredictableLinkDown. rewrite Hval. cbn [negb].
  rewrite (T1_positive lid a b t0 Hv). fold event.
  by destruct (ltb t0 (of_int 3) || ltb (of_int 3) t0).
Qed.

(** Registration and scheduling, for every double. With valid
    identifiers the event is always added to the topology module; the four
    calls of [Simulator::Schedule] are made, in the order T1, T2, T0, T3
    and with those delays, when T0 is a number other than [Tc + 2 * dT],
    and none of them is made when T0 is exactly the boundary or is not a
    number, although the event was added. *)
Theorem four_actions_or_none (totalNodes lid a b : Z) (t0 : double)
    (c : Controller.SatnetOspfController) :
  ValidateNodeIndices totalNodes a b = true ->
  valid t0 = true ->
  let event := NewPredictableLinkDownEvent lid a b t0 in
  let boundary := add RFP_CONVERGENCE_TIME_TC (mul (of_int 2) RFP_SAFETY_MARGIN_DT) in
  let result := Controller.SchedulePredictableLinkDown totalNodes lid a b t0 c in
  TMM.m_predictedEvents (Controller.m_tmm (fst result))
  = TMM.m_predictedEvents (Controller.m_tmm c) ++ [event]
  /\ snd result
     = (if ltb t0 boundary || ltb boundary t0 then Scenario.timeline a b event
        else []).
Proof.
  intros Hval Hv event boundary result. unfold result, boundary.
  rewrite boundary_value, schedule_cases by done.
  by destruct (ltb t0 (of_int 3) || ltb (of_int 3) t0).
Qed.

Lemma four_actions_or_none_witness :
  length (snd (Controller.SchedulePredictableLinkDown 3 1 0 1 (lit 39 10)
                 Controller.init)) = 4%nat
  /\ snd (Controller.SchedulePredictableLinkDown 3 1 0 1 (of_int 3) Controller.init)
     = [].
Proof.
  split.
  - rewrite (proj2 (four_actions_or_none 3 1 0 1 (lit 39 10) Controller.init
                      eq_refl eq_refl)).
    by vm_compute.
  - rewrite (proj2 (four_actions_or_none 3 1 0 1 (of_int 3) Controller.init
                      eq_refl eq_refl)).
    by vm_compute.
Defined.

End Scheduling.

Section Windows.

Import Double.

Lemma leb_nan_r (x : double) : leb x S754_nan = false.
Proof. by destruct x as [[]|[]| |[] ? ?]. Qed.

Lemma leb_nan_l (y : double) : leb S754_nan y = false.
Proof. done. Qed.

Lemma leb_through (x y z : double) :
  valid x = true -> number y -> number z -> rank y <= rank z ->
  leb x y = true -> leb x z = true.
Proof.
  intros Hx Hy Hz Hyz Hxy.
  destruct (is_nan x) eqn:Hnan.
  { destruct x; try discriminate. }
  assert (Hnx : number x) by done.
  rewrite leb_rank in * by done.
  apply Z.leb_le. apply Z.leb_le in Hxy. lia.
Qed.

(** Every time up to T2 of a constructed event is a time up to its T3. *)
Lemma T2_before_T3 (lid a b : Z) (t0 t : double) :
  valid t0 = true -> valid t = true ->
  let event := NewPredictableLinkDownEvent lid a b t0 in
  leb t (T2 event) = true -> leb t (T3 event) = true.
Proof.
  intros Hv Ht event. unfold event. rewrite constructor_cases by done.
  destruct (ltb t0 (of_int 3)) eqn:Hlt; cbn [T2 T3].
  - apply leb_through; done.
  - destruct t0 as [s|s| |s m e].
    + destruct s; vm_compute in Hlt; discriminate.
    + destruct s; [vm_compute in Hlt; discriminate|].
      assert (sub (S754_infinity false) RFP_SAFETY_MARGIN_DT = S754_infinity false)
        as -> by by vm_compute.
      assert (add (S754_infinity false) RFP_SAFETY_MARGIN_DT = S754_infinity false)
        as -> by by vm_compute.
      done.
    + assert (sub S754_nan RFP_SAFETY_MARGIN_DT = S754_nan) as -> by by vm_compute.
      by rewrite leb_nan_r.
    + assert (Hn : number (S754_finite s m e)) by done.
      rewrite ltb_rank in Hlt by (done || by vm_compute).
      rewrite rank_three in Hlt. apply Z.ltb_ge in Hlt.
      destruct (markers_ordered_finite _ Hn eq_refl Hlt)
        as (Hn1 & Hn2 & Hn3 & H12 & H20 & H03).
      apply leb_through; try done. lia.
Qed.

Lemma registrations_events (regs : list (Z * Z * Z * double))
    (tmm : TMM.TopologyManagementModule) :
  TMM.m_predictedEvents (TMM.registrations regs tmm)
  = TMM.m_predictedEvents tmm
    ++ map (fun '(lid, a, b, t0) => NewPredictableLinkDownEvent lid a b t0) regs.
Proof.
  unfold TMM.registrations. revert tmm.
  induction regs as [|[[[lid a] b] t0] regs IH]; intros tmm; cbn [fold_left map].
  - by rewrite app_nil_r.
  - rewrite IH. cbn [TMM.AddPredictableLinkDown TMM.m_predictedEvents].
    by rewrite <- app_assoc.
Qed.

(** The buffering window lies inside a masking window. On a module
    filled by registrations only, whenever [IsInBfuPeriod] answers true at
    a time, one of the events [GetActiveEvents] returns for that time has
    its own pair under [IsInBldPeriod]: updates are never held back while
    no link is masked. *)
Theorem buffering_implies_masking (regs : list (Z * Z * Z * double)) (t : double) :
  valid t = true ->
  Forall (fun r => valid r.2 = true) regs ->
  let tmm := TMM.registrations regs TMM.init in
  TMM.IsInBfuPeriod t tmm = true ->
  exists event,
    In event (TMM.GetActiveEvents t tmm)
    /\ TMM.IsInBldPeriod (nodeA event) (nodeB event) t tmm = true.
Proof.
  intros Ht Hregs tmm Hbfu. unfold TMM.IsInBfuPeriod in Hbfu.
  apply existsb_exists in Hbfu as (event & Hin & Hcond).
  assert (Hwin : leb t (T2 event) = true -> leb t (T3 event) = true).
  { unfold tmm in Hin. rewrite registrations_events in Hin.
    cbn [TMM.init TMM.m_predictedEvents app] in Hin.
    apply in_map_iff in Hin as ([[[lid a] b] t0] & <- & Hr).
    rewrite Forall_forall in Hregs.
    apply T2_before_T3; [|done].
    apply (Hregs (lid, a, b, t0)). by apply list_elem_of_In. }
  apply andb_prop in Hcond as [Hcond H2].
  apply andb_prop in Hcond as [Hact H1].
  specialize (Hwin H2).
  exists event. split.
  - unfold TMM.GetActiveEvents. apply filter_In. split; [done|].
    by rewrite Hact, H1, Hwin.
  - unfold TMM.IsInBldPeriod. apply existsb_exists. exists event. split; [done|].
    unfold TMM.bld_match. by rewrite Hact, !Z.eqb_refl, H1, Hwin.
Qed.

Lemma buffering_implies_masking_witness :
  TMM.IsInBfuPeriod (lit 18 1)
    (TMM.registrations [(1, 0, 1, lit 20 1)] TMM.init) = true
  /\ exists event,
       In event (TMM.GetActiveEvents (lit 18 1)
                   (TMM.registrations [(1, 0, 1, lit 20 1)] TMM.init))
       /\ TMM.IsInBldPeriod (nodeA event) (nodeB event) (lit 18 1)
            (TMM.registrations [(1, 0, 1, lit 20 1)] TMM.init) = true.
Proof.
  split; [by vm_compute|].
  apply (buffering_implies_masking [(1, 0, 1, lit 20 1)] (lit 18 1)).
  - by vm_compute.
  - repeat constructor.
  - by vm_compute.
Defined.

End Windows.

(** ** The scenario *)

Section ScenarioEvents.

Import Double.

Variable totalNodes : Z.

Lemma six_cases (k : Z) :
  0 <= k < 6 -> k = 0 \/ k = 1 \/ k = 2 \/ k = 3 \/ k = 4 \/ k = 5.
Proof. lia. Qed.

Lemma linkDownTime_value (k : Z) :
  0 <= k < 6 ->
  add (of_int 10) (mul (of_int (u32 (k + 1))) (of_int 8)) = of_int (18 + 8 * k).
Proof.
  intros Hk. destruct (six_cases k Hk) as [->|[->|[->|[->|[->| ->]]]]];
    by vm_compute.
Qed.

Lemma linkDownTime_in_time (k : Z) :
  0 <= k < 6 ->
  ltb (of_int (18 + 8 * k)) (sub Scenario.SIM_STOP (of_int 15)) = true
  /\ valid (of_int (18 + 8 * k)) = true
  /\ ltb (of_int (18 + 8 * k)) (of_int 3) || ltb (of_int 3) (of_int (18 + 8 * k))
     = true.
Proof.
  intros Hk. destruct (six_cases k Hk) as [->|[->|[->|[->|[->| ->]]]]];
    by vm_compute.
Qed.

(** Two neighbours on a ring of at least two nodes are valid indices. *)
Lemma ring_neighbours_valid (m k : Z) :
  2 <= m <= totalNodes -> 0 <= k ->
  (k mod m =? (k + 1) mod m) = false
  /\ ValidateNodeIndices totalNodes (k mod m) ((k + 1) mod m) = true.
Proof.
  intros Hm Hk.
  pose proof (Z.mod_pos_bound k m ltac:(lia)) as Ha.
  pose proof (Z.mod_pos_bound (k + 1) m ltac:(lia)) as Hb.
  assert (Hne : k mod m <> (k + 1) mod m).
  { rewrite <- (Zplus_mod_idemp_l k 1 m). clear Hb.
    generalize dependent (k mod m). intros r Hr.
    destruct (Z.eq_dec (r + 1) m) as [E|E].
    - rewrite E, Z_mod_same_full. lia.
    - rewrite Z.mod_small by lia. lia. }
  generalize dependent (k mod m). intros r Hr Hne.
  generalize dependent ((k + 1) mod m). intros r' Hr' Hne.
  split; [by apply Z.eqb_neq|].
  unfold ValidateNodeIndices.
  destruct (Z.ltb_spec r 0); [lia|].
  destruct (Z.ltb_spec r' 0); [lia|].
  destruct (Z.leb_spec totalNodes r); [lia|].
  destruct (Z.leb_spec totalNodes r'); [lia|].
  cbn [orb]. by destruct (Z.eqb_spec r r').
Qed.

Lemma create_pass_registers (m k : Z) (c : Controller.SatnetOspfController)
    (scheduled : list Controller.Scheduled) :
  2 <= m <= totalNodes -> 0 <= k < 6 ->
  let a := k mod m in
  let b := (k + 1) mod m in
  let t0 := of_int (18 + 8 * k) in
  Scenario.create_pass totalNodes m (c, scheduled, k) k
  = ({| Controller.m_tmm :=
          TMM.AddPredictableLinkDown (k + 1) a b t0 (Controller.m_tmm c);
        Controller.m_ldm := Controller.m_ldm c;
        Controller.m_rmm := Controller.m_rmm c;
        Controller.m_analyzer := Controller.m_analyzer c;
        Controller.m_eventCounter := u32 (Controller.m_eventCounter c + 1);
        Controller.m_lastEventTime := Controller.m_lastEventTime c;
        Controller.m_totalQuaggaModifications :=
          Controller.m_totalQuaggaModifications c |},
     scheduled
     ++ Scenario.timeline a b (NewPredictableLinkDownEvent (k + 1) a b t0),
     k + 1).
Proof.
  intros Hm Hk a b t0.
  destruct (ring_neighbours_valid m k Hm ltac:(lia)) as [Hne Hval].
  destruct (linkDownTime_in_time k Hk) as (Hin & Hv & Hb).
  assert (Hu : u32 (k + 1) = k + 1) by (unfold u32; apply Z.mod_small; lia).
  unfold Scenario.create_pass.
  destruct (Z.ltb_spec k 6); [|lia]. cbn [negb]. cbv zeta.
  rewrite Hne, Hval. cbn [negb].
  rewrite linkDownTime_value by done. rewrite Hin, Hu.
  rewrite schedule_cases by done. cbv zeta. by rewrite Hb.
Qed.

(** The scenario's events. On a topology of at least two nodes
    [CreatePredictableLinkEvents] registers six events and schedules
    their twenty-four actions: event [k + 1] (for k from 0 to 5) is on the
    neighbours [k mod m] and [(k + 1) mod m] of the first
    [m = min (totalNodes, 30)] nodes, with T0 = 18 + 8 k seconds, and none
    of them is clamped or dropped. With fewer than two nodes, or without a
    controller, it does nothing. *)
Theorem scenario_registers_six_events (c : Controller.SatnetOspfController) :
  let m := Z.min totalNodes 30 in
  let a k := k mod m in
  let b k := (k + 1) mod m in
  let event k := NewPredictableLinkDownEvent (k + 1) (a k) (b k) (of_int (18 + 8 * k)) in
  Scenario.CreatePredictableLinkEvents totalNodes None = (None, [])
  /\ Scenario.CreatePredictableLinkEvents totalNodes (Some c)
     = (if totalNodes <? 2 then (Some c, [])
        else
          (Some {| Controller.m_tmm :=
                     {| TMM.m_predictedEvents :=
                          TMM.m_predictedEvents (Controller.m_tmm c)
                          ++ map event (seqZ 0 6) |};
                   Controller.m_ldm := Controller.m_ldm c;
                   Controller.m_rmm := Controller.m_rmm c;
                   Controller.m_analyzer := Controller.m_analyzer c;
                   Controller.m_eventCounter := u32 (Controller.m_eventCounter c + 6);
                   Controller.m_lastEventTime := Controller.m_lastEventTime c;
                   Controller.m_totalQuaggaModifications :=
                     Controller.m_totalQuaggaModifications c |},
           flat_map (fun k => Scenario.timeline (a k) (b k) (event k)) (seqZ 0 6)))
  /\ forall k, 0 <= k < 6 ->
       event k = {| linkId := k + 1; nodeA := a k; nodeB := b k;
                    T0 := of_int (18 + 8 * k);
                    T1 := of_int (15 + 8 * k);
                    T2 := lit (35 + 16 * k) 2;
                    T3 := lit (37 + 16 * k) 2;
                    active := true |}.
Proof.
  intros m a b event. split; [done|]. split.
  - unfold Scenario.CreatePredictableLinkEvents. fold m.
    destruct (Z.ltb_spec totalNodes 2) as [Hlt|Hge].
    { destruct (Z.ltb_spec m 2); [done|]. unfold m in *. lia. }
    destruct (Z.ltb_spec m 2) as [Hm|Hm]; [unfold m in *; lia|].
    assert (Hm' : 2 <= m <= totalNodes) by (unfold m in *; lia).
    change (seqZ 0 6) with [0; 1; 2; 3; 4; 5].
    cbn [fold_left].
    rewrite (create_pass_registers m 0) by (done || lia). cbv zeta.
    change (0 + 1) with 1.
    rewrite (create_pass_registers m 1) by (done || lia). cbv zeta.
    change (1 + 1) with 2.
    rewrite (create_pass_registers m 2) by (done || lia). cbv zeta.
    change (2 + 1) with 3.
    rewrite (create_pass_registers m 3) by (done || lia). cbv zeta.
    change (3 + 1) with 4.
    rewrite (create_pass_registers m 4) by (done || lia). cbv zeta.
    change (4 + 1) with 5.
    rewrite (create_pass_registers m 5) by (done || lia). cbv zeta.
    cbn [Controller.m_tmm Controller.m_ldm Controller.m_rmm Controller.m_analyzer
         Controller.m_eventCounter Controller.m_lastEventTime
         Controller.m_totalQuaggaModifications TMM.AddPredictableLinkDown
         TMM.m_predictedEvents map flat_map app].
    f_equal. f_equal. f_equal.
    + unfold TMM.AddPredictableLinkDown. cbn [TMM.m_predictedEvents].
      f_equal. rewrite <- !app_assoc. cbn [app]. reflexivity.
    + unfold u32.
      repeat (rewrite Z.add_mod_idemp_l by lia; rewrite <- ?Z.add_assoc).
      apply (f_equal (fun z => z mod 2 ^ 32)). lia.
  - intros k Hk. unfold event. generalize (a k) (b k). intros x y.
    destruct (six_cases k Hk) as [->|[->|[->|[->|[->| ->]]]]]; by vm_compute.
Qed.

End ScenarioEvents.

(** ** The vtysh helper *)

Section Daemon.

Import Quagga.

Lemma index_colon (s : string) :
  match String.index 0 ":" s with
  | None => True
  | Some pos =>
      String.index 0 ":" (String.substring 0 pos s) = None
      /\ exists tail, s = String.substring 0 pos s +:+ ":" +:+ tail
  end.
Proof.
  induction s as [|c r IH]; [done|].
  cbn [String.index String.prefix].
  match goal with |- context [Ascii.ascii_dec ?x c] =>
    destruct (Ascii.ascii_dec x c) as [<-|Hne] end.
  - destruct r; cbn; (split; [done|by eexists]).
  - destruct (String.index 0 ":" r) as [pos|] eqn:E; [|done].
    destruct IH as [IH1 [tail IH2]].
    cbn [String.substring String.index String.prefix].
    match goal with |- context [Ascii.ascii_dec ?x c] =>
      destruct (Ascii.ascii_dec x c) end; [done|].
    rewrite IH1. split; [done|]. exists tail. change (String c r = String c (String.substring 0 pos r +:+ ":" +:+ tail)).
    f_equal. exact IH2.
Qed.

(** [GetPrimaryDceRoot] returns a string without a colon: nothing when
    the variable is not set, the variable when it has no colon, and else
    what stands before its first colon. *)
Theorem primary_root_has_no_colon (env : Environment) :
  String.index 0 ":" (GetPrimaryDceRoot env) = None
  /\ match DCE_ROOT env with
     | None => GetPrimaryDceRoot env = ""
     | Some rootStr =>
         GetPrimaryDceRoot env = rootStr
         \/ exists tail, rootStr = GetPrimaryDceRoot env +:+ ":" +:+ tail
     end.
Proof.
  unfold GetPrimaryDceRoot. destruct (DCE_ROOT env) as [rootStr|]; [|done].
  pose proof (index_colon rootStr) as H.
  destruct (String.index 0 ":" rootStr) as [pos|] eqn:E.
  - destruct H as [H1 H2]. split; [done|by right].
  - split; [done|by left].
Qed.

Lemma getlines_nil (delim : Ascii.ascii) (s : string) :
  Stream.getlines delim s = [] -> s = "".
Proof.
  destruct s as [|c r]; [done|]. cbn.
  destruct (Ascii.eqb c delim); [done|].
  by destruct (Stream.getlines delim r).
Qed.

Lemma join_cons (delim c : Ascii.ascii) (line : string) (lines : list string) :
  Stream.join delim (String c line :: lines)
  = String c (Stream.join delim (line :: lines)).
Proof. by destruct lines. Qed.

(** The directories that the search of [DCE_PATH] goes through are the
    pieces of the variable between the colons: joined again with colons
    they give the variable back, up to one colon at its end, and no piece
    has a colon in it. *)
Theorem getlines_join (s : string) :
  let lines := Stream.getlines Stream.colon s in
  (Stream.join Stream.colon lines = s
   \/ Stream.join Stream.colon lines +:+ ":" = s)
  /\ Forall (fun line => String.index 0 ":" line = None) lines.
Proof.
  induction s as [|c r IH]; [by split; [left|]|].
  cbv zeta in *. cbn [Stream.getlines].
  destruct (Ascii.eqb_spec c Stream.colon) as [->|Hne].
  - destruct IH as [IH1 IH2]. split; [|by constructor].
    destruct (Stream.getlines Stream.colon r) as [|line lines] eqn:E.
    + apply getlines_nil in E as ->. by right.
    + change (Stream.join Stream.colon ("" :: line :: lines))
        with (String Stream.colon (Stream.join Stream.colon (line :: lines))).
      destruct IH1 as [<-|<-]; [by left|by right].
  - destruct IH as [IH1 IH2].
    destruct (Stream.getlines Stream.colon r) as [|line lines] eqn:E.
    + apply getlines_nil in E as ->. split; [by left|].
      constructor; [|done]. cbn [String.index String.prefix].
      match goal with |- context [Ascii.ascii_dec ?x c] =>
        destruct (Ascii.ascii_dec x c) as [He|He] end; [|done].
      by subst c.
    + rewrite join_cons. split.
      * destruct IH1 as [<-|<-]; [by left|by right].
      * inversion IH2; subst. constructor; [|done].
        cbn [String.index String.prefix].
        match goal with |- context [Ascii.ascii_dec ?x c] =>
          destruct (Ascii.ascii_dec x c) as [He|He] end; [by subst c|].
        by match goal with H : String.index _ _ line = None |- _ => rewrite H end.
Qed.

(** The answer of [IsVtyshAvailable] is computed once: after a call the
    state holds the answer, and any later call returns it without looking
    at the environment it is given. *)
Theorem vtysh_answer_is_cached (env env' : Environment) (st : VtyshState) :
  let answer := fst (IsVtyshAvailable env st) in
  let st1 := snd (IsVtyshAvailable env st) in
  checked st1 = true
  /\ available st1 = answer
  /\ IsVtyshAvailable env' st1 = (answer, st1).
Proof.
  unfold IsVtyshAvailable. destruct (checked st) eqn:E; cbn [fst snd].
  - by rewrite E.
  - done.
Qed.

(** [ExecuteVtyshCommand] starts at most the command it is given, on the
    node it is given, and only a command of 1 to 200 characters, when
    vtysh is there. A longer command is dropped, not cut. *)
Theorem command_started_or_dropped (env : Environment) (node : option Z)
    (command : string) (st : VtyshState) :
  snd (ExecuteVtyshCommand env node command st) = []
  \/ exists n,
       node = Some n
       /\ snd (ExecuteVtyshCommand env node command st) = [(n, command)]
       /\ (0 < String.length command <= 200)%nat
       /\ available (fst (ExecuteVtyshCommand env node command st)) = true.
Proof.
  unfold ExecuteVtyshCommand. destruct node as [n|]; [|by left].
  destruct (Stream.nonempty command) eqn:Hne; cbn [negb]; [|by left].
  pose proof (vtysh_answer_is_cached env env st) as (_ & Hav & _).
  destruct (IsVtyshAvailable env st) as [ok st1]. cbn [fst snd] in Hav.
  destruct ok; cbn [negb]; [|by left].
  destruct (Nat.ltb_spec 200 (String.length command)) as [Hlen|Hlen]; [by left|].
  right. exists n. cbn [fst snd]. repeat split; try done.
  destruct command; [done|cbn; lia].
Qed.

End Daemon.

Section DaemonCommands.

Import Quagga.

Lemma IsVtyshAvailable_cached (env env' : Environment) (st : VtyshState) :
  checked (snd (IsVtyshAvailable env st)) = true
  /\ available (snd (IsVtyshAvailable env st)) = fst (IsVtyshAvailable env st)
  /\ IsVtyshAvailable env' (snd (IsVtyshAvailable env st))
     = (fst (IsVtyshAvailable env st), snd (IsVtyshAvailable env st)).
Proof.
  unfold IsVtyshAvailable. destruct (checked st) eqn:E; cbn [fst snd].
  - by rewrite E.
  - done.
Qed.

(** *** The simulation mode *)

Lemma IsVtyshAvailable_absent (env : Environment) (st : VtyshState) :
  (forall path, stat env path = false) -> available st = false ->
  fst (IsVtyshAvailable env st) = false
  /\ available (snd (IsVtyshAvailable env st)) = false.
Proof.
  intros Hstat Hav. unfold IsVtyshAvailable.
  assert (Hex : existsb (stat env) (pathsToCheck env) = false).
  { induction (pathsToCheck env) as [|p l IH]; [done|]. cbn. by rewrite Hstat. }
  destruct (checked st); cbn [fst snd]; by rewrite ?Hex.
Qed.

Lemma seq_silent (f g : Action) : silent f -> silent g -> silent (f ;> g).
Proof.
  intros Hf Hg st Hst. unfold seq.
  destruct (Hf st Hst) as [Hf1 Hf2]. destruct (f st) as [st1 l1]. cbn [fst snd] in *.
  destruct (Hg st1 Hf2) as [Hg1 Hg2]. destruct (g st1) as [st2 l2]. cbn [fst snd] in *.
  by subst.
Qed.

Lemma skip_silent : silent skip.
Proof. by intros st Hst. Qed.

Lemma for_each_silent {A : Type} (l : list A) (body : A -> Action) :
  (forall x, silent (body x)) -> silent (for_each l body).
Proof.
  intros Hbody. induction l as [|x l IH]; [apply skip_silent|].
  cbn [for_each fold_right]. apply seq_silent; [apply Hbody|exact IH].
Qed.

Lemma ExecuteVtyshCommand_silent (env : Environment) (node : option Z)
    (command : string) :
  (forall path, stat env path = false) ->
  silent (ExecuteVtyshCommand env node command).
Proof.
  intros Hstat st Hst. unfold ExecuteVtyshCommand.
  destruct node as [n|]; [|done].
  destruct (Stream.nonempty command); cbn [negb]; [|done].
  destruct (IsVtyshAvailable_absent env st Hstat Hst) as [H1 H2].
  destruct (IsVtyshAvailable env st) as [ok st1]. cbn [fst snd] in *. by subst ok.
Qed.

Lemma AddQuaggaRoute_silent (env : Environment) (node : Z) (prefix nexthop : string)
    (metric : Z) :
  (forall path, stat env path = false) ->
  silent (AddQuaggaRoute env node prefix nexthop metric).
Proof.
  intros Hstat. unfold AddQuaggaRoute.
  repeat apply seq_silent; by apply ExecuteVtyshCommand_silent.
Qed.

Lemma DelQuaggaRoute_silent (env : Environment) (node : Z) (prefix nexthop : string) :
  (forall path, stat env path = false) ->
  silent (DelQuaggaRoute env node prefix nexthop).
Proof.
  intros Hstat. unfold DelQuaggaRoute.
  repeat apply seq_silent; by apply ExecuteVtyshCommand_silent.
Qed.

Lemma perform_silent (env : Environment) (totalNodes : Z) (c : SinkCall) :
  (forall path, stat env path = false) ->
  silent (perform env totalNodes c).
Proof.
  intros Hstat. destruct c as [a b isUp|a b|node u|]; cbn [perform].
  - intros st Hst. unfold SetQuaggaLinkStateReal.
    destruct (ValidateNodeIndices totalNodes a b); cbn [negb]; [|done].
    destruct (GetNode totalNodes a), (GetNode totalNodes b); try done.
    destruct (IsVtyshAvailable_absent env st Hstat Hst) as [H1 H2].
    destruct (IsVtyshAvailable env st) as [ok st1]. cbn [fst snd] in *. by subst ok.
  - unfold AddAlternativeRoutes. apply for_each_silent. intros i.
    destruct (negb (i =? a) && negb (i =? b)); [|apply skip_silent].
    destruct (GetNode totalNodes a); [|apply skip_silent].
    by apply AddQuaggaRoute_silent.
  - unfold ApplyRouteUpdateReal.
    repeat (destruct (Stream.extract_string _ _) as [? ?]).
    repeat case_match; try apply skip_silent;
      try (by apply AddQuaggaRoute_silent); try (by apply DelQuaggaRoute_silent).
    apply seq_silent; [by apply DelQuaggaRoute_silent|by apply AddQuaggaRoute_silent].
  - unfold ForceOspfConvergence. apply for_each_silent. intros i.
    repeat apply seq_silent; by apply ExecuteVtyshCommand_silent.
Qed.

(** In the simulation mode nothing reaches the daemon: when no path to
    vtysh exists, whatever the modules ask of the helper starts no
    command, and the state keeps saying that vtysh is not there. *)
Theorem simulation_mode_is_silent (env : Environment) (totalNodes : Z)
    (calls : list SinkCall) (st : VtyshState) :
  (forall path, stat env path = false) ->
  available st = false ->
  snd (perform_all env totalNodes calls st) = []
  /\ available (fst (perform_all env totalNodes calls st)) = false.
Proof.
  intros Hstat Hst. unfold perform_all.
  apply (for_each_silent calls (perform env totalNodes)); [|exact Hst].
  intros c. by apply perform_silent.
Qed.

Lemma simulation_mode_is_silent_witness :
  let env := {| DCE_PATH := Some "/bake/build/bin_dce"; DCE_ROOT := None;
                stat := fun _ => false |} in
  let calls :=
    snd (Controller.run 3
           [Controller.CallExecuteT1Actions 0 1 (Double.of_int 15) (Double.of_int 15);
            Controller.CallOnLinkStateChange 1 2 true (Double.of_int 16);
            Controller.CallExecuteT2Actions 0 1 (Double.of_int 17)]
           Controller.init) in
  calls <> [] /\ snd (perform_all env 3 calls VtyshState_init) = [].
Proof.
  cbv zeta. split; [by vm_compute|].
  apply simulation_mode_is_silent; done.
Defined.

(** *** With vtysh *)

Lemma ExecuteVtyshCommand_cases (env : Environment) (node : option Z)
    (command : string) (st : VtyshState) :
  snd (ExecuteVtyshCommand env node command st) = []
  \/ exists n,
       node = Some n
       /\ snd (ExecuteVtyshCommand env node command st) = [(n, command)]
       /\ (0 < String.length command <= 200)%nat
       /\ available (fst (ExecuteVtyshCommand env node command st)) = true.
Proof.
  unfold ExecuteVtyshCommand. destruct node as [n|]; [|by left].
  destruct (Stream.nonempty command) eqn:Hne; cbn [negb]; [|by left].
  pose proof (IsVtyshAvailable_cached env env st) as (_ & Hav & _).
  destruct (IsVtyshAvailable env st) as [ok st1]. cbn [fst snd] in Hav.
  destruct ok; cbn [negb]; [|by left].
  destruct (Nat.ltb_spec 200 (String.length command)) as [Hlen|Hlen]; [by left|].
  right. exists n. cbn [fst snd]. repeat split; try done.
  destruct command; [done|cbn; lia].
Qed.

Lemma ready_after (env : Environment) (st : VtyshState) :
  ready env st -> ready env (snd (IsVtyshAvailable env st)).
Proof.
  unfold ready. intros H.
  destruct (IsVtyshAvailable_cached env env st) as (_ & _ & Hc).
  by rewrite Hc.
Qed.

Lemma ExecuteVtyshCommand_ready (env : Environment) (n : Z) (command : string)
    (st : VtyshState) :
  ready env st -> Stream.nonempty command = true ->
  (String.length command <= 200)%nat ->
  ready env (fst (ExecuteVtyshCommand env (Some n) command st))
  /\ snd (ExecuteVtyshCommand env (Some n) command st) = [(n, command)].
Proof.
  intros Hr Hne Hlen. unfold ExecuteVtyshCommand. rewrite Hne. cbn [negb].
  pose proof (ready_after env st Hr) as Hr'. unfold ready in Hr.
  destruct (IsVtyshAvailable env st) as [ok st1]. cbn [fst snd] in *. subst ok.
  cbn [negb]. destruct (Nat.ltb_spec 200 (String.length command)); [lia|done].
Qed.

Lemma seq_run (f g : Action) (st : VtyshState) :
  (f ;> g) st = (fst (g (fst (f st))), snd (f st) ++ snd (g (fst (f st)))).
Proof.
  unfold seq. destruct (f st) as [st1 l1]. cbn [fst snd]. by destruct (g st1).
Qed.

Lemma for_each_ready {A : Type} (env : Environment) (l : list A)
    (body : A -> Action) (out : A -> list (Z * string)) (st : VtyshState) :
  (forall x st, x ∈ l -> ready env st ->
                ready env (fst (body x st)) /\ snd (body x st) = out x) ->
  ready env st ->
  ready env (fst (for_each l body st))
  /\ snd (for_each l body st) = flat_map out l.
Proof.
  revert st. induction l as [|x l IH]; intros st Hbody Hr; [done|].
  cbn [for_each fold_right flat_map]. fold (for_each l body).
  rewrite seq_run. cbn [fst snd].
  destruct (Hbody x st (list_elem_of_here x l) Hr) as [H1 H2].
  destruct (IH (fst (body x st))) as [H3 H4]; [|done|].
  { intros y st' Hy. apply Hbody. by apply list_elem_of_further. }
  by rewrite H2, H4.
Qed.

Lemma GetNode_Some (totalNodes n : Z) :
  0 <= n < totalNodes -> GetNode totalNodes n = Some n.
Proof.
  intros H. unfold GetNode.
  destruct (Z.leb_spec 0 n), (Z.ltb_spec n totalNodes); try lia. done.
Qed.

Lemma GetNode_inv (totalNodes n m : Z) : GetNode totalNodes n = Some m -> m = n.
Proof. unfold GetNode. case_match; congruence. Qed.

(** [ForceOspfConvergence] tells the first twenty nodes, and no other,
    to converge: four commands each, node after node. *)
Theorem convergence_reaches_twenty_nodes (env : Environment) (totalNodes : Z)
    (st : VtyshState) :
  ready env st ->
  snd (Quagga.ForceOspfConvergence env totalNodes st)
  = flat_map convergence_commands (seqZ 0 (Z.min totalNodes 20)).
Proof.
  intros Hr. unfold Quagga.ForceOspfConvergence. cbv zeta.
  apply (for_each_ready env _ _ convergence_commands st); [|exact Hr].
  intros i st' Hi Hr'. apply elem_of_seqZ in Hi.
  rewrite GetNode_Some by lia. rewrite !seq_run. cbn [fst snd].
  destruct (ExecuteVtyshCommand_ready env i "clear ip ospf database" st' Hr' eq_refl)
    as [R1 ->]; [cbn; lia|].
  destruct (ExecuteVtyshCommand_ready env i "router ospf" _ R1 eq_refl)
    as [R2 ->]; [cbn; lia|].
  destruct (ExecuteVtyshCommand_ready env i "area 0.0.0.0 stub" _ R2 eq_refl)
    as [R3 ->]; [cbn; lia|].
  destruct (ExecuteVtyshCommand_ready env i "no area 0.0.0.0 stub" _ R3 eq_refl)
    as [R4 ->]; [cbn; lia|].
  done.
Qed.

Lemma convergence_reaches_twenty_nodes_witness :
  let env := {| DCE_PATH := None; DCE_ROOT := None;
                stat := fun path => String.eqb path "/usr/bin/vtysh" |} in
  length (snd (Quagga.ForceOspfConvergence env 31 VtyshState_init)) = 80%nat.
Proof.
  cbv zeta. rewrite convergence_reaches_twenty_nodes; [|by vm_compute].
  by vm_compute.
Defined.

(** [SetQuaggaLinkStateReal] acts on the first node of the pair only:
    it starts nothing, or it is given a valid pair and starts two commands
    on node [a], the second of which is [shutdown] or [no shutdown]. *)
Theorem link_state_set_on_first_node (env : Environment) (totalNodes a b : Z)
    (isUp : bool) (st : VtyshState) :
  snd (Quagga.SetQuaggaLinkStateReal env totalNodes a b isUp st) = []
  \/ (ValidateNodeIndices totalNodes a b = true
      /\ snd (Quagga.SetQuaggaLinkStateReal env totalNodes a b isUp st)
         = [(a, "configure terminal");
            (a, if isUp then "no shutdown" else "shutdown")]).
Proof.
  unfold Quagga.SetQuaggaLinkStateReal.
  destruct (ValidateNodeIndices totalNodes a b) eqn:Hv; cbn [negb]; [|by left].
  destruct (GetNode totalNodes a) as [pa|] eqn:Ha; [|by left].
  destruct (GetNode totalNodes b) as [pb|]; [|by left].
  apply GetNode_inv in Ha as ->.
  assert (Hr : fst (IsVtyshAvailable env st) = true ->
               ready env (snd (IsVtyshAvailable env st))) by apply ready_after.
  destruct (IsVtyshAvailable env st) as [ok st1]. cbn [fst snd] in Hr.
  destruct ok; [|by left]. specialize (Hr eq_refl).
  right. split; [done|]. rewrite seq_run. cbn [fst snd].
  destruct (ExecuteVtyshCommand_ready env a "configure terminal" st1 Hr eq_refl)
    as [R1 ->]; [cbn; lia|].
  destruct (ExecuteVtyshCommand_ready env a (if isUp then "no shutdown" else "shutdown")
              _ R1) as [R2 ->]; [by destruct isUp|destruct isUp; cbn; lia|].
  done.
Qed.

Lemma seq_on_node (n : Z) (f g : Action) :
  (forall st, Forall (fun l => fst l = n) (snd (f st))) ->
  (forall st, Forall (fun l => fst l = n) (snd (g st))) ->
  forall st, Forall (fun l => fst l = n) (snd ((f ;> g) st)).
Proof.
  intros Hf Hg st. rewrite seq_run. cbn [snd]. by apply Forall_app.
Qed.

Lemma ExecuteVtyshCommand_on_node (env : Environment) (n : Z) (command : string)
    (st : VtyshState) :
  Forall (fun l => fst l = n) (snd (ExecuteVtyshCommand env (Some n) command st)).
Proof.
  destruct (ExecuteVtyshCommand_cases env (Some n) command st)
    as [->|(m & [= <-] & -> & _)]; repeat constructor.
Qed.

Lemma AddQuaggaRoute_on_node (env : Environment) (n : Z) (prefix nexthop : string)
    (metric : Z) (st : VtyshState) :
  Forall (fun l => fst l = n) (snd (AddQuaggaRoute env n prefix nexthop metric st)).
Proof.
  revert st. unfold AddQuaggaRoute.
  repeat apply seq_on_node; intros st; apply ExecuteVtyshCommand_on_node.
Qed.

(** The alternative routes of a link forced down are all installed on
    the first node of the pair: [AddAlternativeRoutes] starts no command
    on any other node. *)
Theorem alternative_routes_on_first_node (env : Environment) (totalNodes a b : Z)
    (st : VtyshState) :
  Forall (fun l => fst l = a)
         (snd (Quagga.AddAlternativeRoutes env totalNodes a b st)).
Proof.
  unfold Quagga.AddAlternativeRoutes. cbv zeta. revert st.
  induction (seqZ 0 (Z.min totalNodes 10)) as [|i l IH]; intros st; [constructor|].
  cbn [for_each fold_right]. apply seq_on_node; [|exact IH].
  intros st'. destruct (negb (i =? a) && negb (i =? b)); [|constructor].
  destruct (GetNode totalNodes a) as [pa|] eqn:Ha; [|constructor].
  apply GetNode_inv in Ha as ->. apply AddQuaggaRoute_on_node.
Qed.

End DaemonCommands.

(** ** Route updates as text *)

Section RouteText.

Import Stream.

Lemma append_assoc (x y z : string) : (x +:+ y) +:+ z = x +:+ (y +:+ z).
Proof.
  induction x as [|c x IH]; [done|].
  change (String c ((x +:+ y) +:+ z) = String c (x +:+ (y +:+ z))). by f_equal.
Qed.

Lemma no_space_app (x y : string) : no_space x -> no_space y -> no_space (x +:+ y).
Proof.
  unfold no_space. intros Hx Hy. induction x as [|c x IH]; [done|].
  cbn in *. inversion Hx; subst. constructor; [done|]. by apply IH.
Qed.

Lemma no_space_uint (d : Decimal.uint) : no_space (NilEmpty.string_of_uint d).
Proof.
  unfold no_space. induction d; cbn; constructor; done.
Qed.

Lemma no_space_to_string (z : Z) : no_space (to_string z).
Proof.
  unfold to_string, NilZero.string_of_int, NilZero.string_of_uint.
  destruct (Z.to_int z) as [d|d].
  - destruct d; try apply no_space_uint. repeat constructor.
  - unfold no_space. cbn. constructor; [done|].
    destruct d; try apply no_space_uint. repeat constructor.
Qed.

Lemma nonempty_to_string (z : Z) : nonempty (to_string z) = true.
Proof.
  unfold to_string, NilZero.string_of_int, NilZero.string_of_uint.
  destruct (Z.to_int z) as [d|d]; [|done]. by destruct d.
Qed.

Lemma word_app (w s : string) :
  no_space w -> word (w +:+ s) = (w +:+ fst (word s), snd (word s)).
Proof.
  unfold no_space. induction w as [|c w IH]; intros Hw.
  - change ("" +:+ s) with s. by destruct (word s).
  - cbn [String.list_ascii_of_string] in Hw. inversion Hw as [|? ? Hc Hw']; subst.
    change (String c w +:+ s) with (String c (w +:+ s)).
    cbn [word]. rewrite Hc, (IH Hw'). done.
Qed.

Lemma append_nil_r (w : string) : w +:+ "" = w.
Proof.
  induction w as [|c w IH]; [done|].
  change (String c (w +:+ "") = String c w). by f_equal.
Qed.

Lemma word_token (w r : string) :
  no_space w -> ends_word r -> word (w +:+ r) = (w, r).
Proof.
  intros Hw Hr. rewrite word_app by done.
  destruct Hr as [->|[r' ->]].
  - change (word "") with ("", ""). cbn [fst snd]. by rewrite append_nil_r.
  - change (word (" " +:+ r')) with ("", " " +:+ r'). cbn [fst snd].
    by rewrite append_nil_r.
Qed.

Lemma skipws_token (w r : string) :
  no_space w -> nonempty w = true ->
  skipws (w +:+ r) = w +:+ r /\ nonempty (w +:+ r) = true.
Proof.
  intros Hw Hne. destruct w as [|c w]; [done|].
  unfold no_space in Hw. cbn [String.list_ascii_of_string] in Hw.
  inversion Hw as [|? ? Hc _]; subst.
  change (String c w +:+ r) with (String c (w +:+ r)). cbn [skipws nonempty].
  by rewrite Hc.
Qed.

Lemma extract_token (str w r : string) :
  no_space w -> nonempty w = true -> ends_word r ->
  extract_string str {| rest := w +:+ r; eofbit := false; failbit := false |}
  = (w, {| rest := r;
           eofbit := match r with EmptyString => true | _ => false end;
           failbit := false |}).
Proof.
  intros Hw Hne Hr. unfold extract_string, sentry, good.
  cbn [rest eofbit failbit negb andb].
  destruct (skipws_token w r Hw Hne) as [-> Hnon].
  destruct (w +:+ r) as [|c s] eqn:E; [done|]. rewrite <- E.
  cbn [rest]. by rewrite word_token.
Qed.

Lemma extract_next_token (str w r : string) :
  no_space w -> nonempty w = true -> ends_word r ->
  extract_string str
    {| rest := " " +:+ w +:+ r; eofbit := false; failbit := false |}
  = (w, {| rest := r;
           eofbit := match r with EmptyString => true | _ => false end;
           failbit := false |}).
Proof.
  intros Hw Hne Hr. unfold extract_string, sentry, good.
  cbn [rest eofbit failbit negb andb].
  change (skipws (" " +:+ w +:+ r)) with (skipws (w +:+ r)).
  destruct (skipws_token w r Hw Hne) as [-> Hnon].
  destruct (w +:+ r) as [|c s] eqn:E; [done|]. rewrite <- E.
  cbn [rest]. by rewrite word_token.
Qed.

Lemma extract_first_word (str w r : string) :
  no_space w -> nonempty w = true ->
  extract_string str {| rest := w +:+ " " +:+ r; eofbit := false; failbit := false |}
  = (w, {| rest := " " +:+ r; eofbit := false; failbit := false |}).
Proof. intros Hw Hne. rewrite extract_token; [done|done|done|right; by eexists]. Qed.

Lemma extract_next_word (str w r : string) :
  no_space w -> nonempty w = true ->
  extract_string str
    {| rest := " " +:+ w +:+ " " +:+ r; eofbit := false; failbit := false |}
  = (w, {| rest := " " +:+ r; eofbit := false; failbit := false |}).
Proof.
  intros Hw Hne. rewrite extract_next_token; [done|done|done|right; by eexists].
Qed.

End RouteText.

Section RouteUpdates.

Import Quagga.

Lemma apply_add (env : Environment) (node : Z) (tb ta : string) :
  Stream.no_space tb -> Stream.no_space ta ->
  Quagga.ApplyRouteUpdateReal env node
    ("ADD 10." +:+ tb +:+ ".0.0/16 10.0." +:+ ta +:+ ".1 1")
  = AddQuaggaRoute env node ("10." +:+ tb +:+ ".0.0/16") ("10.0." +:+ ta +:+ ".1") 1.
Proof.
  intros Hb Ha.
  set (prefix := "10." +:+ tb +:+ ".0.0/16").
  set (nexthop := "10.0." +:+ ta +:+ ".1").
  assert (Hs : "ADD 10." +:+ tb +:+ ".0.0/16 10.0." +:+ ta +:+ ".1 1"
               = "ADD" +:+ " " +:+ prefix +:+ " " +:+ nexthop +:+ " 1").
  { unfold prefix, nexthop. by rewrite !append_assoc. }
  rewrite Hs. unfold Quagga.ApplyRouteUpdateReal, Stream.open.
  assert (Hp : Stream.no_space prefix).
  { unfold prefix. repeat apply no_space_app; try done; repeat constructor. }
  assert (Hn : Stream.no_space nexthop).
  { unfold nexthop. repeat apply no_space_app; try done; repeat constructor. }
  rewrite (extract_first_word "" "ADD"); [|repeat constructor|done].
  rewrite (extract_next_word "" prefix); [|done|done].
  rewrite (extract_next_token "" nexthop); [|done|done|right; by eexists].
  done.
Qed.

Lemma apply_del (env : Environment) (node : Z) (tb ta tail : string) :
  Stream.no_space tb -> Stream.no_space ta -> Stream.ends_word tail ->
  Quagga.ApplyRouteUpdateReal env node
    ("DEL 10." +:+ tb +:+ ".0.0/16 10.0." +:+ ta +:+ ".1" +:+ tail)
  = DelQuaggaRoute env node ("10." +:+ tb +:+ ".0.0/16") ("10.0." +:+ ta +:+ ".1").
Proof.
  intros Hb Ha Ht.
  set (prefix := "10." +:+ tb +:+ ".0.0/16").
  set (nexthop := "10.0." +:+ ta +:+ ".1").
  assert (Hs : "DEL 10." +:+ tb +:+ ".0.0/16 10.0." +:+ ta +:+ ".1" +:+ tail
               = "DEL" +:+ " " +:+ prefix +:+ " " +:+ nexthop +:+ tail).
  { unfold prefix, nexthop. by rewrite !append_assoc. }
  rewrite Hs. unfold Quagga.ApplyRouteUpdateReal, Stream.open.
  assert (Hp : Stream.no_space prefix).
  { unfold prefix. repeat apply no_space_app; try done; repeat constructor. }
  assert (Hn : Stream.no_space nexthop).
  { unfold nexthop. repeat apply no_space_app; try done; repeat constructor. }
  rewrite (extract_first_word "" "DEL"); [|repeat constructor|done].
  rewrite (extract_next_word "" prefix); [|done|done].
  rewrite (extract_next_token "" nexthop); [|done|done|exact Ht].
  done.
Qed.

(** The text that the controller generates for a link, read back by
    [ApplyRouteUpdateReal]. For a link reported up the route is added with
    metric 1. For a link reported down the route is removed and that is
    all: the alternative route that the text names after it is not read,
    whatever [FindAlternativePath] found. *)
Theorem generated_update_applied (env : Environment) (totalNodes node a b : Z) :
  let prefix := "10." +:+ to_string b +:+ ".0.0/16" in
  let nexthop := "10.0." +:+ to_string a +:+ ".1" in
  Quagga.ApplyRouteUpdateReal env node
    (Controller.GenerateOspfRouteUpdate totalNodes a b true)
  = AddQuaggaRoute env node prefix nexthop 1
  /\ Quagga.ApplyRouteUpdateReal env node
       (Controller.GenerateOspfRouteUpdate totalNodes a b false)
     = DelQuaggaRoute env node prefix nexthop.
Proof.
  cbv zeta. unfold Controller.GenerateOspfRouteUpdate. split.
  - apply apply_add; apply no_space_to_string.
  - cbv zeta. rewrite <- !append_assoc. rewrite !append_assoc.
    apply apply_del; try apply no_space_to_string.
    destruct (0 <=? Controller.FindAlternativePath totalNodes a b); [right|by left].
    by eexists.
Qed.

End RouteUpdates.
